(** * QuickbooksService: token lifecycle and authenticated-request protocol

    A shallow embedding of [src/quickbooks/quickbooks.service.ts] (the
    current revision, the one that routes every resource call through
    [makeRequest]) and of [src/quickbooks/utils/quickbooks.helper.ts].

    Conventions of the embedding.
    - A JavaScript value that is "a string, or [null], or [undefined]" is a
      [JsStr]; conditions such as [if (x)], [!x] and [a || b] go through
      [truthy] and [js_or], so the empty string is falsy as in the source.
    - Numbers are integers ([Z]): a lifetime is a whole number of seconds
      and a count is an integer.  A [Date] is its time value in
      milliseconds since the epoch, which is what [<=] on two [Date]
      objects compares, or an Invalid Date.
    - The clock of a [World] moves while a request to the vendor is in
      flight, by the time the exchange took, and only then: two readings
      of [Date.now()] with no request between them give the same instant.
    - The service is one mutable object.  Its four private fields are the
      [Session]; asynchronous methods are functions in the monad [M], which
      threads a [World] (session, clock, and the list of requests sent so
      far) and keeps the world when an exception is thrown, as JavaScript
      does.
    - The vendor is an [Upstream]: two functions that answer the request
      just sent, given everything sent so far.
    - Calls to [this.logger] are not modelled, and methods run one at a
      time: the interleaving of concurrent requests on the shared session
      is outside the embedding. *)

From Stdlib Require Import Ascii.
From stdpp Require Import base numbers strings list gmap pretty.

Local Open Scope string_scope.
Local Open Scope Z_scope.

(** ** JavaScript values *)

Inductive JsStr : Type :=
| JsUndefined
| JsNull
| JsString (s : string).

(** [!!x] for a string-or-absent value. *)
Definition truthy (x : JsStr) : bool :=
  match x with
  | JsString s => negb (String.eqb s EmptyString)
  | _ => false
  end.

(** [a || b]. *)
Definition js_or (a b : JsStr) : JsStr := if truthy a then a else b.

(** [`${x}`]. *)
Definition template (x : JsStr) : string :=
  match x with
  | JsUndefined => "undefined"
  | JsNull => "null"
  | JsString s => s
  end.

(** [!!n] for an optional number: [undefined], [null] and [0] are falsy. *)
Definition truthyZ (n : option Z) : bool :=
  match n with
  | Some z => negb (z =? 0)
  | None => false
  end.

(** [a || b] on optional numbers. *)
Definition js_orZ (a b : option Z) : option Z := if truthyZ a then a else b.

(** ** Dates *)

(** A [Date] object holds a time value, in milliseconds since the epoch,
    or is an Invalid Date. *)
Inductive Date : Type :=
| ValidDate (ms : Z)
| InvalidDate.

(** The largest time value a [Date] holds, on either side of the epoch. *)
Definition max_time : Z := 8640000000000000.

(** [new Date(ms)]: an Invalid Date when [ms] is out of range. *)
Definition new_Date (ms : Z) : Date :=
  if Z.abs ms <=? max_time then ValidDate ms else InvalidDate.

(** [date <= t] for a [Date] and the date with time value [t]: the time
    value of an Invalid Date is [NaN], which compares false. *)
Definition date_le (date : Date) (t : Z) : bool :=
  match date with
  | ValidDate ms => ms <=? t
  | InvalidDate => false
  end.

(** ** The session: the service's private fields *)

Record Session : Type := mkSession {
  accessToken : JsStr;
  refreshToken : JsStr;
  realmId : JsStr;
  tokenExpiresAt : option Date   (* Date | null *)
}.

(** [setAccessToken(accessToken, realmId, refreshToken?, expiresIn?)], at
    clock reading [now] ([Date.now()]). *)
Definition setAccessToken (now : Z)
    (accessToken' realmId' refreshToken' : JsStr) (expiresIn : option Z)
    (s : Session) : Session :=
  {| accessToken := accessToken';
     realmId := realmId';
     refreshToken := if truthy refreshToken' then refreshToken' else refreshToken s;
     tokenExpiresAt :=
       if truthyZ expiresIn
       then match expiresIn with
            | Some e => Some (new_Date (now + e * 1000))
            | None => tokenExpiresAt s
            end
       else tokenExpiresAt s |}.

(** [isTokenExpired()].  [Date.now()] is a time value, and five minutes
    after it is taken to be one too. *)
Definition isTokenExpired (now : Z) (s : Session) : bool :=
  if negb (truthy (accessToken s)) && truthy (refreshToken s) then true
  else match tokenExpiresAt s with
       | None => false
       | Some expiry =>
           let fiveMinutesFromNow := now + 5 * 60 * 1000 in
           date_le expiry fiveMinutesFromNow
       end.

(** The earlier revision kept in the same file has no shortcut for a
    missing access token. *)
Module Legacy.
Definition isTokenExpired (now : Z) (s : Session) : bool :=
  match tokenExpiresAt s with
  | None => false
  | Some expiry =>
      let fiveMinutesFromNow := now + 5 * 60 * 1000 in
      date_le expiry fiveMinutesFromNow
  end.
End Legacy.

(** ** Wire data *)

(** One record of the vendor's fault list.  The vendor uses both key
    conventions, so both are kept. *)
Record ErrorDetail : Type := mkErrorDetail {
  ed_code : JsStr;
  ed_Detail : JsStr;
  ed_detail : JsStr;
  ed_Message : JsStr;
  ed_message : JsStr
}.

(** [Fault] / [fault]: the object holding the list under [Error] or [error].
    An array, even an empty one, is truthy; a missing key is [None]. *)
Record Fault : Type := mkFault {
  fault_Error : option (list ErrorDetail);
  fault_error : option (list ErrorDetail)
}.

(** An entity object as far as the service looks into it.  [Count] is what
    [parseInt] is applied to, already converted to a string as [parseInt]
    does with its argument. *)
Record Row : Type := mkRow {
  Id : JsStr;
  Name : JsStr;
  Type_ : JsStr;
  Count : JsStr
}.

(** [QueryResponse]: the rows under the entity's name, and [totalCount]
    ([None] is [undefined]). *)
Record QueryResponse : Type := mkQueryResponse {
  qr_entities : gmap string (list Row);
  qr_totalCount : option Z
}.

(** [response.data] of a resource call, or [error.response.data]. *)
Record ResponseData : Type := mkResponseData {
  data_Fault : option Fault;
  data_fault : option Fault;
  data_QueryResponse : option QueryResponse;
  data_Item : option Row;
  data_Account : option Row
}.

Record HttpResponse : Type := mkHttpResponse {
  status : Z;
  data : option ResponseData
}.

(** What axios rejects with: [error.status] and [error.response]. *)
Record AxiosError : Type := mkAxiosError {
  ax_status : option Z;
  ax_response : option HttpResponse
}.

(** The token endpoint's JSON, and equally [QuickBooksTokenResponse]. *)
Record QuickBooksTokenResponse : Type := mkTokenResponse {
  access_token : JsStr;
  refresh_token : JsStr;
  expires_in : option Z;
  token_type : JsStr;
  tr_realmId : JsStr
}.

(** ** Exceptions *)

(** [responseData] of [handleApiError]:
    [error.response?.data || error.response || {}]. *)
Inductive OriginalError : Type :=
| OrigData (d : ResponseData)
| OrigResponse (r : HttpResponse)
| OrigEmpty.

Record ExistingItem : Type := mkExistingItem {
  ex_Id : JsStr;
  ex_Name : JsStr;
  ex_Type : JsStr
}.

(** The first argument of [new HttpException(...)], by call site. *)
Inductive ExceptionBody : Type :=
| BodyText (msg : string)
| BodyApiError (message code detail : JsStr) (originalError : OriginalError)
| BodyDuplicateItem (message code : string) (existingItem : ExistingItem)
    (hint : string)
| BodyAccount (message : string) (detail : JsStr)
    (originalError : option ResponseData)
| BodyHint (message hint : string).

Inductive Exn : Type :=
| ExAxios (e : AxiosError)
| ExHttp (body : ExceptionBody) (st : Z)
| ExTypeError.

Definition BAD_REQUEST : Z := 400.
Definition UNAUTHORIZED : Z := 401.
Definition NOT_FOUND : Z := 404.
Definition CONFLICT : Z := 409.
Definition INTERNAL_SERVER_ERROR : Z := 500.

(** [error.status]. *)
Definition exn_status (error : Exn) : option Z :=
  match error with
  | ExAxios e => ax_status e
  | ExHttp _ st => Some st
  | ExTypeError => None
  end.

(** [error.response?.status]: an [HttpException] has a [response] (its
    body), but no body carries a [status] or a [data] key. *)
Definition exn_response_status (error : Exn) : option Z :=
  match error with
  | ExAxios e => status <$> ax_response e
  | _ => None
  end.

(** [error.response?.data]. *)
Definition exn_response_data (error : Exn) : option ResponseData :=
  match error with
  | ExAxios e => ax_response e ≫= data
  | _ => None
  end.

(** ** Requests and the vendor *)

Inductive Method : Type := get | post.

(** The [config] argument: absent, or [{ params: { name: value } }]. *)
Inductive Config : Type :=
| NoConfig
| Params (name value : string).

Record AccountRef : Type := mkAccountRef {
  ref_value : JsStr;
  ref_name : JsStr
}.

Record ItemBody : Type := mkItemBody {
  ib_Name : string;
  ib_Type : string;
  ib_UnitPrice : option Z;
  ib_Description : option string;
  ib_Sku : option string;
  ib_IncomeAccountRef : option AccountRef;
  ib_ExpenseAccountRef : option AccountRef;
  ib_AssetAccountRef : option AccountRef;
  ib_TrackQtyOnHand : option bool;
  ib_QtyOnHand : option Z;
  ib_InvStartDate : option string
}.

Record AccountBody : Type := mkAccountBody {
  ab_Name : string;
  ab_AccountType : string;
  ab_Active : bool;
  ab_AccountSubType : option string
}.

Inductive RequestData : Type :=
| NoData
| ItemData (b : ItemBody)
| AccountData (b : AccountBody).

(** A request as it leaves the process.  [authorization] is the header the
    request interceptor adds when an access token is set. *)
Inductive Event : Type :=
| TokenRequest (grant_type token : string)
| ApiRequest (method : Method) (url : string) (authorization : option string)
    (config : Config) (body : RequestData).

(** The vendor answers the last request of the list, knowing all earlier
    ones; the first component is the time the exchange took. *)
Record Upstream : Type := mkUpstream {
  tokenEndpoint : list Event -> Z * (AxiosError + option QuickBooksTokenResponse);
  api : list Event -> Z * (AxiosError + HttpResponse)
}.

(** ** The monad of the service's methods *)

Record World : Type := mkWorld {
  session : Session;
  clock : Z;
  sent : list Event
}.

Inductive Result (A : Type) : Type :=
| Ok (a : A) (w : World)
| Throw (e : Exn) (w : World)
| OutOfFuel.
Arguments Ok {A} a w.
Arguments Throw {A} e w.
Arguments OutOfFuel {A}.

Definition M (A : Type) : Type := World -> Result A.

Definition ret {A : Type} (a : A) : M A := fun w => Ok a w.

Definition bind {A B : Type} (m : M A) (f : A -> M B) : M B :=
  fun w =>
    match m w with
    | Ok a w' => f a w'
    | Throw e w' => Throw e w'
    | OutOfFuel => OutOfFuel
    end.

Declare Scope M_scope.
Delimit Scope M_scope with M.
Bind Scope M_scope with M.
Notation "x ← y ; z" := (bind y (fun x => z)) : M_scope.
Notation "x ;; z" := (bind x (fun _ => z)) : M_scope.
Local Open Scope M_scope.

Definition throw {A : Type} (e : Exn) : M A := fun w => Throw e w.

(** [try { m } catch (error) { handler error }]. *)
Definition try_catch {A : Type} (m : M A) (handler : Exn -> M A) : M A :=
  fun w =>
    match m w with
    | Throw e w' => handler e w'
    | r => r
    end.

Definition this_session : M Session := fun w => Ok (session w) w.

(** [this.setAccessToken(...)] on the shared object, at the reading of
    the world's clock. *)
Definition this_setAccessToken (accessToken' realmId' refreshToken' : JsStr)
    (expiresIn : option Z) : M unit :=
  fun w =>
    Ok tt {| session := setAccessToken (clock w) accessToken' realmId'
                          refreshToken' expiresIn (session w);
             clock := clock w;
             sent := sent w |}.

(** [this.isTokenExpired()]. *)
Definition this_isTokenExpired : M bool :=
  fun w => Ok (isTokenExpired (clock w) (session w)) w.

(** ** String helpers standing for JavaScript built-ins *)

(** [String.prototype.toLowerCase] / [toUpperCase] on ASCII letters;
    every other character is left as it is, which is what the built-ins
    do on text written in ASCII. *)
Definition lower_ascii (c : ascii) : ascii :=
  let n := nat_of_ascii c in
  if ((65 <=? n) && (n <=? 90))%nat then ascii_of_nat (n + 32) else c.

Definition upper_ascii (c : ascii) : ascii :=
  let n := nat_of_ascii c in
  if ((97 <=? n) && (n <=? 122))%nat then ascii_of_nat (n - 32) else c.

Fixpoint map_string (f : ascii -> ascii) (s : string) : string :=
  match s with
  | EmptyString => EmptyString
  | String c s' => String (f c) (map_string f s')
  end.

Definition toLowerCase : string -> string := map_string lower_ascii.
Definition toUpperCase : string -> string := map_string upper_ascii.

(** [s.includes(p)] for a non-empty [p]. *)
Fixpoint includes (p s : string) : bool :=
  String.prefix p s ||
  match s with
  | EmptyString => false
  | String _ s' => includes p s'
  end.

(** [parseInt(s)]: leading white space, a sign, a [0x] prefix, then the
    longest run of digits; [None] is [NaN].  The result is the integer
    that was read, which is the number JavaScript returns as long as a
    number holds that integer exactly (up to 2^53 in magnitude). *)
Definition is_space (c : ascii) : bool :=
  let n := nat_of_ascii c in
  ((9 <=? n) && (n <=? 13) || (n =? 32))%nat.

Fixpoint skip_spaces (s : string) : string :=
  match s with
  | String c s' => if is_space c then skip_spaces s' else s
  | EmptyString => s
  end.

Definition digit_value (c : ascii) : option Z :=
  let n := Z.of_nat (nat_of_ascii c) in
  if (48 <=? n) && (n <=? 57) then Some (n - 48)
  else if (97 <=? n) && (n <=? 122) then Some (n - 87)
  else if (65 <=? n) && (n <=? 90) then Some (n - 55)
  else None.

Fixpoint parse_digits (radix : Z) (s : string) (acc : option Z) : option Z :=
  match s with
  | String c s' =>
      match digit_value c with
      | Some d =>
          if d <? radix
          then parse_digits radix s' (Some (default 0 acc * radix + d))
          else acc
      | None => acc
      end
  | EmptyString => acc
  end.

Definition parseInt (input : string) : option Z :=
  let s := skip_spaces input in
  let '(sign, s) :=
    match s with
    | String "-" s' => (-1, s')
    | String "+" s' => (1, s')
    | _ => (1, s)
    end in
  let '(radix, s) :=
    match s with
    | String "0" (String "x" s') => (16, s')
    | String "0" (String "X" s') => (16, s')
    | _ => (10, s)
    end in
  (fun n => sign * n) <$> parse_digits radix s None.

(** [new Date(ms).toISOString().split('T')[0]]: the UTC calendar date. *)
Definition civil_from_days (days : Z) : Z * Z * Z :=
  let z := days + 719468 in
  let era := z `div` 146097 in
  let doe := z - era * 146097 in
  let yoe := (doe - doe `div` 1460 + doe `div` 36524 - doe `div` 146096) `div` 365 in
  let doy := doe - (365 * yoe + yoe `div` 4 - yoe `div` 100) in
  let mp := (5 * doy + 2) `div` 153 in
  let d := doy - (153 * mp + 2) `div` 5 + 1 in
  let m := if mp <? 10 then mp + 3 else mp - 9 in
  let y := yoe + era * 400 + (if m <=? 2 then 1 else 0) in
  (y, m, d).

Fixpoint pad_left (width : nat) (s : string) : string :=
  match width with
  | O => s
  | S width' =>
      if (String.length s <=? width')%nat then pad_left width' ("0" +:+ s) else s
  end.

Definition isoDate (ms : Z) : string :=
  let '(y, m, d) := civil_from_days (ms `div` 86400000) in
  let year :=
    if (0 <=? y) && (y <=? 9999) then pad_left 4 (pretty y)
    else if y <? 0 then "-" +:+ pad_left 6 (pretty (- y))
    else "+" +:+ pad_left 6 (pretty y) in
  year +:+ "-" +:+ pad_left 2 (pretty m) +:+ "-" +:+ pad_left 2 (pretty d).

(** ** QuickBooksHelper *)

Module QuickBooksHelper.

(** [formatQuery(entity, maxResults, startPosition, where?)]. *)
Definition formatQuery (entity : string) (maxResults startPosition : Z)
    (where_ : JsStr) : string :=
  let query := "SELECT * FROM " +:+ entity in
  let query :=
    if truthy where_ then query +:+ " WHERE " +:+ template where_ else query in
  query +:+ " MAXRESULTS " +:+ pretty maxResults
        +:+ " STARTPOSITION " +:+ pretty startPosition.

(** [formatCountQuery(entity, where?)]. *)
Definition formatCountQuery (entity : string) (where_ : JsStr) : string :=
  let query := "SELECT COUNT(*) FROM " +:+ entity in
  if truthy where_ then query +:+ " WHERE " +:+ template where_ else query.

(** [escapeQueryValue(value)]: every single quote is doubled. *)
Fixpoint escapeQueryValue (value : string) : string :=
  match value with
  | EmptyString => EmptyString
  | String c rest =>
      if Ascii.eqb c "'"%char
      then String "'" (String "'" (escapeQueryValue rest))
      else String c (escapeQueryValue rest)
  end.

(** The exception [handleApiError(error, context)] throws. *)
Definition handleApiError (error : AxiosError) (context : string) : Exn :=
  let responseData :=
    match ax_response error with
    | Some r =>
        match data r with
        | Some d => OrigData d
        | None => OrigResponse r
        end
    | None => OrigEmpty
    end in
  let fault :=
    match responseData with
    | OrigData d =>
        match data_Fault d with
        | Some f => Some f
        | None => data_fault d
        end
    | _ => None
    end in
  let errorList :=
    match fault with
    | Some f =>
        match fault_Error f with
        | Some l => Some l
        | None => fault_error f
        end
    | None => None
    end in
  let errorDetail := errorList ≫= head in
  let field (p : ErrorDetail -> JsStr) : JsStr :=
    match errorDetail with
    | Some e => p e
    | None => JsUndefined
    end in
  let errorMessage :=
    js_or (js_or (js_or (js_or (field ed_Detail) (field ed_detail))
                        (field ed_Message))
                 (field ed_message))
          (JsString ("Failed to " +:+ toLowerCase context)) in
  let statusCode :=
    js_orZ (js_orZ (status <$> ax_response error) (ax_status error))
           (Some BAD_REQUEST) in
  ExHttp
    (BodyApiError errorMessage (field ed_code)
       (js_or (field ed_Detail) (field ed_detail)) responseData)
    (default BAD_REQUEST statusCode).

End QuickBooksHelper.

Example parseInt_ok :
  parseInt "  42px" = Some 42 /\ parseInt "-0x1F" = Some (-31) /\
  parseInt "abc" = None /\ parseInt EmptyString = None /\ parseInt "007" = Some 7.
Proof. repeat split. Qed.

Example isoDate_ok :
  isoDate 0 = "1970-01-01" /\ isoDate 1762041600000 = "2025-11-02" /\
  isoDate 951782400000 = "2000-02-29" /\ isoDate (-1) = "1969-12-31".
Proof. repeat split; vm_compute; reflexivity. Qed.

Example formatQuery_ok :
  QuickBooksHelper.formatQuery "Item" 1 1
    (JsString ("Id = '" +:+ QuickBooksHelper.escapeQueryValue "a'b" +:+ "'"))
  = "SELECT * FROM Item WHERE Id = 'a''b' MAXRESULTS 1 STARTPOSITION 1".
Proof. vm_compute. reflexivity. Qed.

Example toLowerCase_ok :
  toLowerCase "API Request GET /v3/X" = "api request get /v3/x" /\
  toUpperCase "get" = "GET" /\ includes "Duplicate" "A Duplicate Name" = true.
Proof. repeat split. Qed.

(** ** Talking to the vendor *)

(** A pending axios call: it sends one request, time passes, and it
    settles with a response or rejects with an [AxiosError]. *)
Definition Axios (A : Type) : Type := World -> (AxiosError + A) * World.

(** [await call]. *)
Definition await {A : Type} (call : Axios A) : M A :=
  fun w =>
    match call w with
    | (inl e, w') => Throw (ExAxios e) w'
    | (inr a, w') => Ok a w'
    end.

(** [try { return await call } catch (error) { handler error }], for a
    [try] block that holds the axios call alone. *)
Definition try_await {A : Type} (call : Axios A) (handler : AxiosError -> M A)
    : M A :=
  fun w =>
    match call w with
    | (inl e, w') => handler e w'
    | (inr a, w') => Ok a w'
    end.

Definition method_name (m : Method) : string :=
  match m with
  | get => "get"
  | post => "post"
  end.

(** [x === s] for a string literal [s]. *)
Definition is_string (x : JsStr) (s : string) : bool :=
  match x with
  | JsString t => String.eqb t s
  | _ => false
  end.

(** [f?.[0]?.code] for a fault list [f]. *)
Definition first_code (l : option (list ErrorDetail)) : JsStr :=
  match l ≫= head with
  | Some e => ed_code e
  | None => JsUndefined
  end.

(** The local [isAuthError] of [makeRequest], for the caught [error]. *)
Definition isAuthError (error : AxiosError) : bool :=
  let statusCode := js_orZ (status <$> ax_response error) (ax_status error) in
  let error_data := ax_response error ≫= data in
  bool_decide (statusCode = Some 401)
  || is_string (first_code ((error_data ≫= data_Fault) ≫= fault_Error)) "3200"
  || is_string (first_code ((error_data ≫= data_fault) ≫= fault_error)) "3200".

Section Service.

Variable up : Upstream.

(** [axios.post(tokenUrl, new URLSearchParams({ grant_type, refresh_token }), ...)]:
    the one request that goes to the token endpoint. *)
Definition axios_post_token (grant_type token : string)
    : Axios (option QuickBooksTokenResponse) :=
  fun w =>
    let sent' := (sent w ++ [TokenRequest grant_type token])%list in
    let '(elapsed, answer) := tokenEndpoint up sent' in
    (answer,
     {| session := session w; clock := clock w + elapsed; sent := sent' |}).

(** A call through [this.axiosInstance]; the request interceptor adds the
    bearer header when an access token is set. *)
Definition axiosInstance (method : Method) (url : string)
    (body : RequestData) (config : Config) : Axios HttpResponse :=
  fun w =>
    let authorization :=
      if truthy (accessToken (session w))
      then Some ("Bearer " +:+ template (accessToken (session w)))
      else None in
    let sent' :=
      (sent w ++ [ApiRequest method url authorization config body])%list in
    let '(elapsed, answer) := api up sent' in
    (answer,
     {| session := session w; clock := clock w + elapsed; sent := sent' |}).

(** [refreshAccessToken(refreshToken)]. *)
Definition refreshAccessToken (refreshToken' : JsStr)
    : M QuickBooksTokenResponse :=
  try_catch
    (response_data ← await (axios_post_token "refresh_token" (template refreshToken'));
     match response_data with
     | None => throw ExTypeError   (* tokenData.refresh_token of undefined *)
     | Some tokenData =>
         let newRefreshToken := js_or (refresh_token tokenData) refreshToken' in
         s ← this_session;
         this_setAccessToken
           (access_token tokenData)
           (js_or (js_or (tr_realmId tokenData) (realmId s)) (JsString EmptyString))
           newRefreshToken
           (expires_in tokenData);;
         s' ← this_session;
         ret {| access_token := access_token tokenData;
                refresh_token := newRefreshToken;
                expires_in := expires_in tokenData;
                token_type := token_type tokenData;
                tr_realmId :=
                  js_or (js_or (tr_realmId tokenData) (realmId s'))
                        (JsString EmptyString) |}
     end)
    (fun error =>
       throw (ExHttp (BodyText "Failed to refresh access token") BAD_REQUEST)).

(** [ensureValidToken()]. *)
Definition ensureValidToken : M unit :=
  s ← this_session;
  if negb (truthy (refreshToken s)) then ret tt
  else
    expired ← this_isTokenExpired;
    if expired then
      try_catch
        (tokenResponse ← refreshAccessToken (refreshToken s);
         this_setAccessToken
           (access_token tokenResponse)
           (tr_realmId tokenResponse)
           (refresh_token tokenResponse)
           (expires_in tokenResponse))
        (fun error =>
           if bool_decide (exn_status error = Some 401)
              || bool_decide (exn_status error = Some 400)
           then throw (ExHttp
                         (BodyText "Refresh token expired or invalid. Please re-authenticate to get a new refresh token.")
                         UNAUTHORIZED)
           else throw error)
    else ret tt.

(** [makeRequest(method, url, data?, config?, isRetry = false)].  The
    method calls itself once more at most; [fuel] bounds the depth of
    that recursion, and two units are always enough
    ([makeRequest_fuel_enough]).  In the source the last
    [handleApiError] follows the [if] block; it is reached only when the
    condition is false, since inside the block the [try] returns and the
    [catch] throws. *)
Fixpoint makeRequest_fuel (fuel : nat) (method : Method) (url : string)
    (body : RequestData) (config : Config) (isRetry : bool)
    : M HttpResponse :=
  match fuel with
  | O => fun _ => OutOfFuel
  | S fuel' =>
      ensureValidToken;;
      try_await
        (match method with
         | get => axiosInstance get url NoData config
         | post => axiosInstance post url body config
         end)
        (fun error =>
           s ← this_session;
           if isAuthError error && negb isRetry && truthy (refreshToken s) then
             try_catch
               (refreshAccessToken (refreshToken s);;
                makeRequest_fuel fuel' method url body config true)
               (fun refreshError =>
                  throw (QuickBooksHelper.handleApiError error
                           "API Request (after failed refresh)"))
           else
             throw (QuickBooksHelper.handleApiError error
                      ("API Request " +:+ toUpperCase (method_name method)
                         +:+ " " +:+ url)))
  end.

Definition makeRequest : Method -> string -> RequestData -> Config -> bool
    -> M HttpResponse :=
  makeRequest_fuel 2.

(** *** Paginated queries *)

Record QuickBooksPaginatedResponse : Type := mkPaginated {
  items : list Row;
  totalCount : Z;
  startPosition : Z;
  maxResults : Z
}.

(** [`/v3/company/${this.realmId}/...`], read from the session when the
    argument list of the call is evaluated. *)
Definition company_url (suffix : string) : M string :=
  s ← this_session;
  ret ("/v3/company/" +:+ template (realmId s) +:+ suffix).

(** [executeQuery(entity, maxResults, startPosition, where?)]. *)
Definition executeQuery (entity : string) (maxResults' startPosition' : Z)
    (where_ : JsStr) : M QuickBooksPaginatedResponse :=
  let query :=
    QuickBooksHelper.formatQuery entity maxResults' startPosition' where_ in
  url ← company_url "/query";
  response ← makeRequest get url NoData (Params "query" query) false;
  match data response ≫= data_QueryResponse with
  | None => throw ExTypeError   (* queryResponse[entity] of undefined *)
  | Some queryResponse =>
      let items' := default [] (qr_entities queryResponse !! entity) in
      let fallback := Z.of_nat (length items') in
      count ←
        try_catch
          (let countQuery := QuickBooksHelper.formatCountQuery entity where_ in
           url ← company_url "/query";
           countResponse ←
             makeRequest get url NoData (Params "query" countQuery) false;
           match data countResponse with
           | None => throw ExTypeError   (* countResponse.data.QueryResponse *)
           | Some countResponse_data =>
               match data_QueryResponse countResponse_data with
               | Some countData =>
                   match qr_totalCount countData with
                   | Some n => ret n
                   | None =>
                       match (qr_entities countData !! entity) ≫= head with
                       | Some row =>
                           ret (default fallback
                                  (js_orZ (parseInt (template (Count row)))
                                          (Some fallback)))
                       | None => ret fallback
                       end
                   end
               | None => ret fallback
               end
           end)
          (fun error => ret fallback);
      ret {| items := items';
             totalCount := count;
             startPosition := startPosition';
             maxResults := maxResults' |}
  end.

(** [getAccounts], [getCustomers], [getInvoices]: the page, and the items
    once more under the entity's own key.  [None] is an omitted argument. *)
Definition getAccounts (maxResults' startPosition' : option Z)
    : M (QuickBooksPaginatedResponse * list Row) :=
  result ← executeQuery "Account" (default 100 maxResults')
                        (default 1 startPosition') JsUndefined;
  ret (result, items result).

Definition getCustomers (maxResults' startPosition' : option Z)
    : M (QuickBooksPaginatedResponse * list Row) :=
  result ← executeQuery "Customer" (default 20 maxResults')
                        (default 1 startPosition') JsUndefined;
  ret (result, items result).

Definition getInvoices (maxResults' startPosition' : option Z)
    : M (QuickBooksPaginatedResponse * list Row) :=
  result ← executeQuery "Invoice" (default 20 maxResults')
                        (default 1 startPosition') JsUndefined;
  ret (result, items result).

(** [getItems]. *)
Definition getItems (maxResults' startPosition' : option Z)
    : M QuickBooksPaginatedResponse :=
  executeQuery "Item" (default 20 maxResults') (default 1 startPosition')
               JsUndefined.

(** [`Id = '${QuickBooksHelper.escapeQueryValue(id)}'`]. *)
Definition where_id (id : string) : JsStr :=
  JsString ("Id = '" +:+ QuickBooksHelper.escapeQueryValue id +:+ "'").

(** The body shared by [getCustomerById], [getInvoiceById], [getItemById]:
    the three differ in the entity's name only. *)
Definition getById (entity id : string) : M Row :=
  result ← executeQuery entity 1 1 (where_id id);
  match items result with
  | [] =>
      throw (ExHttp (BodyText (entity +:+ " with ID " +:+ id +:+ " not found"))
                    NOT_FOUND)
  | row :: _ => ret row
  end.

Definition getCustomerById (customerId : string) : M Row :=
  getById "Customer" customerId.

Definition getInvoiceById (invoiceId : string) : M Row :=
  getById "Invoice" invoiceId.

Definition getItemById (itemId : string) : M Row :=
  getById "Item" itemId.

(** [findItemByName(itemName)]; [None] is [null]. *)
Definition findItemByName (itemName : string) : M (option Row) :=
  result ←
    executeQuery "Item" 1 1
      (JsString ("Name = '" +:+ QuickBooksHelper.escapeQueryValue itemName
                   +:+ "' AND Active IN (true, false)"));
  match items result with
  | row :: _ => ret (Some row)
  | [] => ret None
  end.

(** *** Accounts *)

Definition account_by_name_query (accountName : string) : string :=
  "SELECT * FROM Account WHERE Name = '"
    +:+ QuickBooksHelper.escapeQueryValue accountName
    +:+ "' AND Active IN (true, false)".

(** [findOrCreateAccount(accountName, accountType, accountSubType?)]. *)
Definition findOrCreateAccount (accountName accountType : string)
    (accountSubType : JsStr) : M JsStr :=
  s ← this_session;
  if negb (truthy (realmId s)) then
    throw (ExHttp (BodyText "Realm ID not set. Please authenticate first.")
                  BAD_REQUEST)
  else
    ensureValidToken;;
    try_catch
      (url ← company_url "/query";
       searchResponse ←
         makeRequest get url NoData
           (Params "query" (account_by_name_query accountName)) false;
       match data searchResponse ≫= data_QueryResponse with
       | None => throw ExTypeError   (* queryResponse.Account of undefined *)
       | Some queryResponse =>
           match default [] (qr_entities queryResponse !! "Account") with
           | account :: _ => ret (Id account)
           | [] =>
               let accountData :=
                 {| ab_Name := accountName;
                    ab_AccountType := accountType;
                    ab_Active := true;
                    ab_AccountSubType :=
                      if truthy accountSubType
                      then Some (template accountSubType) else None |} in
               url ← company_url "/account";
               createResponse ←
                 makeRequest post url (AccountData accountData) NoConfig false;
               match data createResponse with
               | None => throw ExTypeError   (* createResponse.data.Account *)
               | Some created =>
                   match data_Account created with
                   | Some createdAccount =>
                       if truthy (Id createdAccount)
                       then ret (Id createdAccount)
                       else throw (ExHttp (BodyText "Failed to create account")
                                          INTERNAL_SERVER_ERROR)
                   | None =>
                       throw (ExHttp (BodyText "Failed to create account")
                                     INTERNAL_SERVER_ERROR)
                   end
               end
           end
       end)
      (fun error =>
         let errorDetail :=
           ((exn_response_data error ≫= data_Fault) ≫= fault_Error) ≫= head in
         let field (p : ErrorDetail -> JsStr) : JsStr :=
           match errorDetail with
           | Some e => p e
           | None => JsUndefined
           end in
         let failure : M JsStr :=
           throw (ExHttp
                    (BodyAccount
                       ("Failed to find or create account: " +:+ accountName)
                       (js_or (field ed_Detail) (field ed_Message))
                       (exn_response_data error))
                    (default BAD_REQUEST
                       (js_orZ (exn_response_status error) (Some BAD_REQUEST)))) in
         let duplicate :=
           is_string (field ed_code) "6240"
           || match field ed_Message with
              | JsString m => includes "Duplicate" m
              | _ => false
              end in
         if duplicate then
           url ← company_url "/query";
           retryResponse ←
             makeRequest get url NoData
               (Params "query" (account_by_name_query accountName)) false;
           match data retryResponse with
           | None => throw ExTypeError   (* retryResponse.data.QueryResponse *)
           | Some retry_data =>
               let retryAccounts :=
                 default []
                   (data_QueryResponse retry_data
                      ≫= (fun q => qr_entities q !! "Account")) in
               match retryAccounts with
               | account :: _ => ret (Id account)
               | [] => failure
               end
           end
         else failure).

(** [resolveAccountRef(accountRef, accountType?, accountSubType?)]. *)
Definition resolveAccountRef (accountRef : AccountRef)
    (accountType accountSubType : JsStr) : M AccountRef :=
  if truthy (ref_value accountRef) then
    ret {| ref_value := ref_value accountRef; ref_name := ref_name accountRef |}
  else if truthy (ref_name accountRef) then
    if negb (truthy accountType) then
      throw (ExHttp
               (BodyHint
                  "Account type is required when providing account name without ID"
                  "Provide accountType when using account name")
               BAD_REQUEST)
    else
      accountId ←
        findOrCreateAccount (template (ref_name accountRef))
                            (template accountType) accountSubType;
      ret {| ref_value := accountId; ref_name := ref_name accountRef |}
  else
    throw (ExHttp (BodyText "Either account value (ID) or name must be provided")
                  BAD_REQUEST).

(** *** Items *)

Record QuickBooksItem : Type := mkItem {
  item_Name : string;
  item_Type : string;
  item_UnitPrice : option Z;
  item_Description : JsStr;
  item_Sku : JsStr;
  item_IncomeAccountRef : option AccountRef;
  item_ExpenseAccountRef : option AccountRef;
  item_AssetAccountRef : option AccountRef;
  item_QtyOnHand : option Z;
  item_InvStartDate : JsStr
}.

(** [...(x && { key: x })] for a string-valued key. *)
Definition spread_if (x : JsStr) : option string :=
  if truthy x then Some (template x) else None.

(** [new Date().toISOString().split('T')[0]]. *)
Definition today : M string := fun w => Ok (isoDate (clock w)) w.

(** [formatItemRequestBody(itemData)]. *)
Definition formatItemRequestBody (itemData : QuickBooksItem) : M ItemBody :=
  let requestBody :=
    {| ib_Name := item_Name itemData;
       ib_Type := item_Type itemData;
       ib_UnitPrice := item_UnitPrice itemData;
       ib_Description := spread_if (item_Description itemData);
       ib_Sku := spread_if (item_Sku itemData);
       ib_IncomeAccountRef := None;
       ib_ExpenseAccountRef := None;
       ib_AssetAccountRef := None;
       ib_TrackQtyOnHand := None;
       ib_QtyOnHand := None;
       ib_InvStartDate := None |} in
  requestBody ←
    (if String.eqb (item_Type itemData) "Service"
        || String.eqb (item_Type itemData) "NonInventory"
     then
       match item_IncomeAccountRef itemData with
       | Some ref =>
           if negb (truthy (ref_value ref)) && negb (truthy (ref_name ref)) then
             throw (ExHttp
                      (BodyText "IncomeAccountRef is required for Service and NonInventory items")
                      BAD_REQUEST)
           else
             income ←
               resolveAccountRef ref (JsString "Income")
                 (JsString (if String.eqb (item_Type itemData) "Service"
                            then "ServiceIncome" else "SalesOfProductIncome"));
             ret {| ib_Name := ib_Name requestBody;
                    ib_Type := ib_Type requestBody;
                    ib_UnitPrice := ib_UnitPrice requestBody;
                    ib_Description := ib_Description requestBody;
                    ib_Sku := ib_Sku requestBody;
                    ib_IncomeAccountRef := Some income;
                    ib_ExpenseAccountRef := ib_ExpenseAccountRef requestBody;
                    ib_AssetAccountRef := ib_AssetAccountRef requestBody;
                    ib_TrackQtyOnHand := ib_TrackQtyOnHand requestBody;
                    ib_QtyOnHand := ib_QtyOnHand requestBody;
                    ib_InvStartDate := ib_InvStartDate requestBody |}
       | None =>
           throw (ExHttp
                    (BodyText "IncomeAccountRef is required for Service and NonInventory items")
                    BAD_REQUEST)
       end
     else ret requestBody);
  if String.eqb (item_Type itemData) "Inventory" then
    match item_IncomeAccountRef itemData, item_ExpenseAccountRef itemData,
          item_AssetAccountRef itemData with
    | Some incomeRef, Some expenseRef, Some assetRef =>
        income ← resolveAccountRef incomeRef (JsString "Income")
                                   (JsString "SalesOfProductIncome");
        expense ← resolveAccountRef expenseRef (JsString "Cost of Goods Sold")
                                    (JsString "SuppliesMaterialsCogs");
        asset ← resolveAccountRef assetRef (JsString "Asset")
                                  (JsString "Inventory");
        date ← (if truthy (item_InvStartDate itemData)
                then ret (template (item_InvStartDate itemData))
                else today);
        ret {| ib_Name := ib_Name requestBody;
               ib_Type := ib_Type requestBody;
               ib_UnitPrice := ib_UnitPrice requestBody;
               ib_Description := ib_Description requestBody;
               ib_Sku := ib_Sku requestBody;
               ib_IncomeAccountRef := Some income;
               ib_ExpenseAccountRef := Some expense;
               ib_AssetAccountRef := Some asset;
               ib_TrackQtyOnHand := Some true;
               ib_QtyOnHand :=
                 js_orZ (item_QtyOnHand itemData) (Some 0);
               ib_InvStartDate := Some date |}
    | _, _, _ =>
        throw (ExHttp
                 (BodyText "Income, Expense, and Asset account references are required for Inventory items")
                 BAD_REQUEST)
    end
  else ret requestBody.

(** What [createItem] returns: [response.data.Item || response.data]. *)
Inductive Created : Type :=
| CreatedItem (item : Row)
| CreatedData (d : ResponseData).

Definition dquote : string := String (ascii_of_nat 34) EmptyString.

(** [createItem(itemData)]. *)
Definition createItem (itemData : QuickBooksItem) : M Created :=
  existingItem ← findItemByName (item_Name itemData);
  match existingItem with
  | Some existing =>
      throw (ExHttp
               (BodyDuplicateItem
                  ("An item with the name " +:+ dquote +:+ item_Name itemData
                     +:+ dquote +:+ " already exists")
                  "DUPLICATE_ITEM_NAME"
                  {| ex_Id := Id existing;
                     ex_Name := Name existing;
                     ex_Type := Type_ existing |}
                  "Item names must be unique in QuickBooks. Please use a different name or update the existing item.")
               CONFLICT)
  | None =>
      requestBody ← formatItemRequestBody itemData;
      url ← company_url "/item";
      response ← makeRequest post url (ItemData requestBody) NoConfig false;
      match data response with
      | None => throw ExTypeError   (* response.data.Item of undefined *)
      | Some d =>
          match data_Item d with
          | Some item => ret (CreatedItem item)
          | None => ret (CreatedData d)
          end
      end
  end.

End Service.

(** * Properties *)

(** ** The expiry test *)

(** A token is present when the field holds a non-empty string; [null],
    [undefined] and the empty string all count as absent. *)
Definition present (x : JsStr) : Prop := truthy x = true.
Definition absent (x : JsStr) : Prop := truthy x = false.

Definition five_minutes : Z := 5 * 60 * 1000.

(** The reference definition of [isExpired], in the specification's words:
    expired when the access token is absent while a refresh token is
    present, or when an expiry is recorded and lies at or before five
    minutes from now. *)
Definition isExpired_spec (now : Z) (s : Session) : Prop :=
  (absent (accessToken s) /\ present (refreshToken s))
  \/ (exists t, tokenExpiresAt s = Some (ValidDate t) /\ t <= now + five_minutes).

Lemma truthy_cases (x : JsStr) : present x \/ absent x.
Proof. unfold present, absent. destruct (truthy x); auto. Qed.

Lemma isTokenExpired_special (now : Z) (s : Session) :
  absent (accessToken s) -> present (refreshToken s) ->
  isTokenExpired now s = true.
Proof.
  unfold absent, present, isTokenExpired. intros -> ->. reflexivity.
Qed.

Lemma isTokenExpired_general (now : Z) (s : Session) :
  negb (truthy (accessToken s)) && truthy (refreshToken s) = false ->
  isTokenExpired now s =
    match tokenExpiresAt s with
    | Some (ValidDate t) => bool_decide (t <= now + five_minutes)
    | Some InvalidDate => false
    | None => false
    end.
Proof.
  unfold isTokenExpired, five_minutes. intros ->.
  destruct (tokenExpiresAt s) as [[t|]|]; [|reflexivity|reflexivity].
  cbv zeta. cbn [date_le]. case_bool_decide as Hle.
  - apply Z.leb_le. exact Hle.
  - apply Z.leb_gt. lia.
Qed.

(** C2: [isTokenExpired] is the reference definition: it answers [true]
    exactly when the access token is absent while a refresh token is
    present, or an expiry is recorded at or before now plus five minutes.
    In particular an expiry of exactly now plus five minutes gives [true],
    a missing expiry gives [false] outside the special case, and the
    special case gives [true] whatever the expiry. *)
Theorem isTokenExpired_reference (now : Z) (s : Session) :
  (isTokenExpired now s = true <-> isExpired_spec now s)
  /\ (tokenExpiresAt s = Some (ValidDate (now + five_minutes)) ->
      isTokenExpired now s = true)
  /\ (tokenExpiresAt s = None ->
      ~ (absent (accessToken s) /\ present (refreshToken s)) ->
      isTokenExpired now s = false)
  /\ (absent (accessToken s) -> present (refreshToken s) ->
      isTokenExpired now s = true).
Proof.
  assert (Hiff : isTokenExpired now s = true <-> isExpired_spec now s).
  { unfold isExpired_spec.
    destruct (negb (truthy (accessToken s)) && truthy (refreshToken s)) eqn:Hsp.
    - apply andb_true_iff in Hsp as [Ha Hr]. apply negb_true_iff in Ha.
      rewrite isTokenExpired_special by assumption.
      split; [intros _; left; split; assumption | reflexivity].
    - rewrite isTokenExpired_general by exact Hsp.
      split.
      + destruct (tokenExpiresAt s) as [[t|]|]; [|discriminate|discriminate].
        intros Ht. apply bool_decide_eq_true in Ht. right. exists t. auto.
      + intros [[Ha Hr] | [t [-> Ht]]].
        * unfold absent, present in *. rewrite Ha, Hr in Hsp. discriminate.
        * apply bool_decide_eq_true. exact Ht. }
  split; [exact Hiff|]. split; [|split].
  - intros Ht. apply Hiff. right. exists (now + five_minutes). split; [exact Ht|lia].
  - intros Hnone Hnot. apply not_true_is_false. intros E.
    apply Hiff in E as [Hsp | [t [Ht _]]]; [contradiction | congruence].
  - intros Ha Hr. apply isTokenExpired_special; assumption.
Qed.

Lemma isTokenExpired_reference_witness :
  isTokenExpired 1000
    (mkSession (JsString "at") (JsString "rt") (JsString "123")
       (Some (ValidDate (1000 + five_minutes)))) = true.
Proof.
  exact (proj1 (proj2 (isTokenExpired_reference 1000
           (mkSession (JsString "at") (JsString "rt") (JsString "123")
              (Some (ValidDate (1000 + five_minutes)))))) eq_refl).
Defined.

(** The claim of C3 as it is written: no recorded expiry, so not expired,
    whatever the tokens are. *)
Definition never_expired_without_expiry : Prop :=
  forall now s, tokenExpiresAt s = None -> isTokenExpired now s = false.

(** C3, counterexample: with no access token, a refresh token on file and
    no expiry recorded, [isTokenExpired] answers [true]. *)
Lemma never_expired_without_expiry_fails :
  isTokenExpired 0 (mkSession JsNull (JsString "rt") (JsString "123") None) = true
  /\ ~ never_expired_without_expiry.
Proof.
  split; [reflexivity|]. intros H.
  specialize (H 0 (mkSession JsNull (JsString "rt") (JsString "123") None) eq_refl).
  discriminate H.
Qed.

(** C3, amended: with no expiry recorded, [isTokenExpired] answers [true]
    when the access token is absent while a refresh token is present, and
    [false] in every other state. *)
Theorem isTokenExpired_without_expiry (now : Z) (s : Session) :
  tokenExpiresAt s = None ->
  isTokenExpired now s = negb (truthy (accessToken s)) && truthy (refreshToken s).
Proof.
  intros Hnone. unfold isTokenExpired. rewrite Hnone.
  destruct (negb (truthy (accessToken s)) && truthy (refreshToken s)); reflexivity.
Qed.

Lemma isTokenExpired_without_expiry_witness :
  isTokenExpired 0 (mkSession (JsString "at") (JsString "rt") JsNull None) = false
  /\ isTokenExpired 0 (mkSession JsNull (JsString "rt") JsNull None) = true.
Proof.
  split.
  - rewrite (isTokenExpired_without_expiry 0
               (mkSession (JsString "at") (JsString "rt") JsNull None) eq_refl).
    reflexivity.
  - rewrite (isTokenExpired_without_expiry 0
               (mkSession JsNull (JsString "rt") JsNull None) eq_refl).
    reflexivity.
Defined.

(** The earlier revision does satisfy the claim as written. *)
Lemma legacy_isTokenExpired_without_expiry (now : Z) (s : Session) :
  tokenExpiresAt s = None -> Legacy.isTokenExpired now s = false.
Proof. unfold Legacy.isTokenExpired. intros ->. reflexivity. Qed.

(** ** [setAccessToken] *)

Lemma new_Date_valid (ms : Z) :
  - max_time <= ms <= max_time -> new_Date ms = ValidDate ms.
Proof.
  intros H. unfold new_Date. destruct (Z.leb_spec (Z.abs ms) max_time); [reflexivity|lia].
Qed.

Lemma new_Date_invalid (ms : Z) :
  ~ (- max_time <= ms <= max_time) -> new_Date ms = InvalidDate.
Proof.
  intros H. unfold new_Date. destruct (Z.leb_spec (Z.abs ms) max_time); [lia|reflexivity].
Qed.

(** The claim of C7 about the expiry: a lifetime that is given is stored
    as the instant that lies this lifetime after now. *)
Definition stores_expiry_when_given : Prop :=
  forall now a rid rt seconds s,
    tokenExpiresAt (setAccessToken now a rid rt (Some seconds) s)
    = Some (ValidDate (now + seconds * 1000)).

(** The claim of C7 in its last part: after a call, the session is a
    function of the arguments alone. *)
Definition session_determined_by_arguments : Prop :=
  forall now a rid rt e s1 s2,
    setAccessToken now a rid rt e s1 = setAccessToken now a rid rt e s2.

(** C7, counterexample.  The call the controller's set-tokens route makes
    without a refresh token and without a lifetime keeps the refresh token
    and the expiry already stored, so two different sessions stay
    different.  A lifetime of 0 is given and yet the stored expiry stays
    what it was.  A lifetime that leads out of the range of a [Date] is
    stored as an Invalid Date, not as an instant. *)
Lemma setAccessToken_claim_fails :
  setAccessToken 0 (JsString "at") (JsString "123") JsUndefined None
    (mkSession JsNull (JsString "old") JsNull (Some (ValidDate 5)))
  = mkSession (JsString "at") (JsString "old") (JsString "123") (Some (ValidDate 5))
  /\ setAccessToken 0 (JsString "at") (JsString "123") JsUndefined None
       (mkSession JsNull JsNull JsNull None)
     = mkSession (JsString "at") JsNull (JsString "123") None
  /\ ~ session_determined_by_arguments
  /\ tokenExpiresAt
       (setAccessToken 1000 (JsString "at") (JsString "123") JsUndefined (Some 0)
          (mkSession JsNull JsNull JsNull (Some (ValidDate 5))))
     = Some (ValidDate 5)
  /\ tokenExpiresAt
       (setAccessToken 1000 (JsString "at") (JsString "123") JsUndefined
          (Some 8640000000000) (mkSession JsNull JsNull JsNull None))
     = Some InvalidDate
  /\ ~ stores_expiry_when_given.
Proof.
  split; [reflexivity|]. split; [reflexivity|]. split.
  - intros H.
    specialize (H 0 (JsString "at") (JsString "123") JsUndefined None
                  (mkSession JsNull (JsString "old") JsNull (Some (ValidDate 5)))
                  (mkSession JsNull JsNull JsNull None)).
    discriminate H.
  - split; [reflexivity|]. split; [reflexivity|]. intros H.
    specialize (H 1000 (JsString "at") (JsString "123") JsUndefined 0
                  (mkSession JsNull JsNull JsNull (Some (ValidDate 5)))).
    discriminate H.
Qed.

(** C7, amended: [setAccessToken] accepts any token; it overwrites the
    access token and the tenant id unconditionally; it overwrites the
    refresh token only when a non-empty one is given and keeps the stored
    one otherwise; given a lifetime other than zero it stores
    [new Date(now + expiresIn * 1000)], which is the instant that lies
    [expiresIn] seconds after now when that instant is in the range of a
    [Date], and an Invalid Date when it is not; with the lifetime omitted
    or zero it keeps the stored expiry. *)
Theorem setAccessToken_overwrites (now : Z) (a rid rt : JsStr)
    (e : option Z) (s : Session) :
  let s' := setAccessToken now a rid rt e s in
  accessToken s' = a
  /\ realmId s' = rid
  /\ refreshToken s' = (if truthy rt then rt else refreshToken s)
  /\ tokenExpiresAt s' =
       match e with
       | Some seconds =>
           if seconds =? 0 then tokenExpiresAt s
           else Some (new_Date (now + seconds * 1000))
       | None => tokenExpiresAt s
       end
  /\ (forall seconds,
        e = Some seconds -> seconds <> 0 ->
        - max_time <= now + seconds * 1000 <= max_time ->
        tokenExpiresAt s' = Some (ValidDate (now + seconds * 1000)))
  /\ (forall seconds,
        e = Some seconds -> seconds <> 0 ->
        ~ (- max_time <= now + seconds * 1000 <= max_time) ->
        tokenExpiresAt s' = Some InvalidDate).
Proof.
  cbv zeta. split; [reflexivity|]. split; [reflexivity|]. split; [reflexivity|].
  assert (Hstored : tokenExpiresAt (setAccessToken now a rid rt e s) =
                    match e with
                    | Some seconds =>
                        if seconds =? 0 then tokenExpiresAt s
                        else Some (new_Date (now + seconds * 1000))
                    | None => tokenExpiresAt s
                    end).
  { unfold setAccessToken. cbn [tokenExpiresAt]. destruct e as [z|]; [|reflexivity].
    cbn [truthyZ]. destruct (z =? 0); reflexivity. }
  split; [exact Hstored|]. split.
  - intros seconds -> Hnz Hrange. rewrite Hstored.
    destruct (Z.eqb_spec seconds 0); [contradiction|].
    rewrite new_Date_valid by exact Hrange. reflexivity.
  - intros seconds -> Hnz Hrange. rewrite Hstored.
    destruct (Z.eqb_spec seconds 0); [contradiction|].
    rewrite new_Date_invalid by exact Hrange. reflexivity.
Qed.

Lemma setAccessToken_overwrites_witness :
  let s' := setAccessToken 1000 (JsString "at") (JsString "123") JsUndefined
              (Some 3600) (mkSession JsNull (JsString "old") JsNull None) in
  accessToken s' = JsString "at"
  /\ realmId s' = JsString "123"
  /\ refreshToken s' = JsString "old"
  /\ tokenExpiresAt s' = Some (ValidDate 3601000).
Proof.
  pose proof (setAccessToken_overwrites 1000 (JsString "at") (JsString "123")
                JsUndefined (Some 3600)
                (mkSession JsNull (JsString "old") JsNull None))
    as (Ha & Hrid & Hrt & _ & Hvalid & _).
  split; [exact Ha|]. split; [exact Hrid|]. split; [exact Hrt|].
  apply (Hvalid 3600 eq_refl); [discriminate | vm_compute; split; discriminate].
Defined.

(** Unfolding the monad's plumbing, and nothing of the service itself. *)
Ltac run :=
  cbv beta iota zeta
      delta [bind ret throw try_catch this_session this_isTokenExpired
             this_setAccessToken negb].

(** ** Refreshing *)

Definition refresh_request (rt : JsStr) : Event :=
  TokenRequest "refresh_token" (template rt).

Definition refresh_failed : Exn :=
  ExHttp (BodyText "Failed to refresh access token") BAD_REQUEST.

Definition reauthentication_required : Exn :=
  ExHttp
    (BodyText "Refresh token expired or invalid. Please re-authenticate to get a new refresh token.")
    UNAUTHORIZED.

(** The world after one exchange with the vendor. *)
Definition after_exchange (w : World) (ev : Event) (elapsed : Z) : World :=
  {| session := session w;
     clock := clock w + elapsed;
     sent := (sent w ++ [ev])%list |}.

Section Refreshing.

Variable up : Upstream.

(** What a successful refresh leaves in the session and hands back. *)
Definition refreshed_session (rt : JsStr) (td : QuickBooksTokenResponse)
    (now : Z) (s : Session) : Session :=
  setAccessToken now (access_token td)
    (js_or (js_or (tr_realmId td) (realmId s)) (JsString EmptyString))
    (js_or (refresh_token td) rt) (expires_in td) s.

Definition refreshed_result (rt : JsStr) (td : QuickBooksTokenResponse)
    (s' : Session) : QuickBooksTokenResponse :=
  {| access_token := access_token td;
     refresh_token := js_or (refresh_token td) rt;
     expires_in := expires_in td;
     token_type := token_type td;
     tr_realmId :=
       js_or (js_or (tr_realmId td) (realmId s')) (JsString EmptyString) |}.

Lemma refreshAccessToken_ok (rt : JsStr) (w : World) (elapsed : Z)
    (td : QuickBooksTokenResponse) :
  tokenEndpoint up (sent w ++ [refresh_request rt])%list = (elapsed, inr (Some td)) ->
  let w1 := after_exchange w (refresh_request rt) elapsed in
  let s' := refreshed_session rt td (clock w1) (session w) in
  refreshAccessToken up rt w =
    Ok (refreshed_result rt td s')
       {| session := s'; clock := clock w1; sent := sent w1 |}.
Proof.
  intros H. unfold refreshAccessToken, try_catch, bind, await, axios_post_token.
  unfold refresh_request in H. rewrite H. reflexivity.
Qed.

Lemma refreshAccessToken_rejected (rt : JsStr) (w : World) (elapsed : Z)
    (answer : AxiosError + option QuickBooksTokenResponse) :
  tokenEndpoint up (sent w ++ [refresh_request rt])%list = (elapsed, answer) ->
  (forall td, answer <> inr (Some td)) ->
  refreshAccessToken up rt w =
    Throw refresh_failed (after_exchange w (refresh_request rt) elapsed).
Proof.
  intros H Hbad. unfold refreshAccessToken, try_catch, bind, await, axios_post_token.
  unfold refresh_request in H. rewrite H.
  destruct answer as [e | [td|]]; [reflexivity | | reflexivity].
  exfalso. exact (Hbad td eq_refl).
Qed.

(** Whatever went wrong at the token endpoint, [refreshAccessToken]
    throws the same exception, with status 400. *)
Lemma refreshAccessToken_throws (rt : JsStr) (w w' : World) (e : Exn) :
  refreshAccessToken up rt w = Throw e w' -> e = refresh_failed.
Proof.
  destruct (tokenEndpoint up (sent w ++ [refresh_request rt])%list)
    as [elapsed answer] eqn:H.
  destruct answer as [ax | [td|]].
  - rewrite (refreshAccessToken_rejected rt w elapsed _ H) by discriminate.
    congruence.
  - rewrite (refreshAccessToken_ok rt w elapsed td H). discriminate.
  - rewrite (refreshAccessToken_rejected rt w elapsed _ H) by discriminate.
    congruence.
Qed.

Lemma refreshAccessToken_returns (rt : JsStr) (w : World) :
  refreshAccessToken up rt w <> OutOfFuel.
Proof.
  destruct (tokenEndpoint up (sent w ++ [refresh_request rt])%list)
    as [elapsed answer] eqn:H.
  destruct answer as [ax | [td|]].
  - rewrite (refreshAccessToken_rejected rt w elapsed _ H) by discriminate.
    discriminate.
  - rewrite (refreshAccessToken_ok rt w elapsed td H). discriminate.
  - rewrite (refreshAccessToken_rejected rt w elapsed _ H) by discriminate.
    discriminate.
Qed.

(** C6: when a refresh succeeds and the vendor's answer carries no new
    refresh token, the token result carries the refresh token that was
    supplied, and the session holds it too (a supplied token that is
    empty leaves the stored one in place); when the answer carries no
    realm id, the session's stored realm id is used, in the result and
    in the session. *)
Theorem refreshAccessToken_keeps_token (rt : JsStr) (w : World)
    (elapsed : Z) (td : QuickBooksTokenResponse) :
  tokenEndpoint up (sent w ++ [refresh_request rt])%list = (elapsed, inr (Some td)) ->
  absent (refresh_token td) ->
  exists result w',
    refreshAccessToken up rt w = Ok result w'
    /\ refresh_token result = rt
    /\ refreshToken (session w') =
         (if truthy rt then rt else refreshToken (session w))
    /\ (refreshToken (session w) = rt -> refreshToken (session w') = rt)
    /\ (absent (tr_realmId td) ->
        tr_realmId result = js_or (realmId (session w)) (JsString EmptyString)
        /\ realmId (session w') = js_or (realmId (session w)) (JsString EmptyString)
        /\ (present (realmId (session w)) ->
            tr_realmId result = realmId (session w)
            /\ realmId (session w') = realmId (session w))).
Proof.
  intros H Habs. eexists _, _. split; [apply (refreshAccessToken_ok rt w elapsed td H)|].
  unfold absent, present in *.
  unfold refreshed_result, refreshed_session, setAccessToken.
  cbn [refresh_token refreshToken session realmId tr_realmId].
  assert (Hor : js_or (refresh_token td) rt = rt) by (unfold js_or; rewrite Habs; reflexivity).
  rewrite Hor.
  split; [reflexivity|]. split; [reflexivity|]. split.
  - intros Heq. destruct (truthy rt); [reflexivity | exact Heq].
  - intros Hrealm.
    assert (Hor2 : forall x, js_or (tr_realmId td) x = x)
      by (intros x; unfold js_or; rewrite Hrealm; reflexivity).
    rewrite !Hor2.
    assert (Hidem : js_or (js_or (realmId (session w)) (JsString EmptyString))
                      (JsString EmptyString)
                    = js_or (realmId (session w)) (JsString EmptyString)).
    { unfold js_or. destruct (truthy (realmId (session w))) eqn:E;
        [rewrite E|]; reflexivity. }
    rewrite Hidem. split; [reflexivity|]. split; [reflexivity|].
    intros Hstored. unfold js_or. rewrite Hstored. auto.
Qed.

End Refreshing.

(** ** [ensureValidToken] *)

Section EnsureValidToken.

Variable up : Upstream.

Lemma ensureValidToken_no_refresh_token (w : World) :
  absent (refreshToken (session w)) -> ensureValidToken up w = Ok tt w.
Proof.
  unfold absent, ensureValidToken. intros Hrt. run. rewrite Hrt. reflexivity.
Qed.

Lemma ensureValidToken_fresh (w : World) :
  isTokenExpired (clock w) (session w) = false -> ensureValidToken up w = Ok tt w.
Proof.
  intros Hfresh. unfold ensureValidToken. run.
  destruct (truthy (refreshToken (session w))); [rewrite Hfresh|]; reflexivity.
Qed.

(** Every failed refresh ends in the terminal error: the status that
    [ensureValidToken] inspects is the 400 that [refreshAccessToken]
    puts on whatever it caught. *)
Lemma ensureValidToken_refresh_fails (w : World) (elapsed : Z)
    (answer : AxiosError + option QuickBooksTokenResponse) :
  present (refreshToken (session w)) ->
  isTokenExpired (clock w) (session w) = true ->
  tokenEndpoint up (sent w ++ [refresh_request (refreshToken (session w))])%list
    = (elapsed, answer) ->
  (forall td, answer <> inr (Some td)) ->
  ensureValidToken up w =
    Throw reauthentication_required
      (after_exchange w (refresh_request (refreshToken (session w))) elapsed).
Proof.
  intros Hrt Hexp H Hbad.
  unfold present in Hrt.
  unfold ensureValidToken. run. rewrite Hrt, Hexp.
  rewrite (refreshAccessToken_rejected up _ w elapsed answer H Hbad).
  reflexivity.
Qed.

(** After a successful refresh the token result is stored once more. *)
Lemma ensureValidToken_refreshes (w : World) (elapsed : Z)
    (td : QuickBooksTokenResponse) :
  present (refreshToken (session w)) ->
  isTokenExpired (clock w) (session w) = true ->
  tokenEndpoint up (sent w ++ [refresh_request (refreshToken (session w))])%list
    = (elapsed, inr (Some td)) ->
  let rt := refreshToken (session w) in
  let w1 := after_exchange w (refresh_request rt) elapsed in
  let s1 := refreshed_session rt td (clock w1) (session w) in
  let result := refreshed_result rt td s1 in
  ensureValidToken up w =
    Ok tt {| session :=
               setAccessToken (clock w1) (access_token result)
                 (tr_realmId result) (refresh_token result)
                 (expires_in result) s1;
             clock := clock w1;
             sent := sent w1 |}.
Proof.
  intros Hrt Hexp H.
  unfold present in Hrt.
  unfold ensureValidToken. run. rewrite Hrt, Hexp.
  rewrite (refreshAccessToken_ok up _ w elapsed td H).
  reflexivity.
Qed.

Lemma ensureValidToken_returns (w : World) : ensureValidToken up w <> OutOfFuel.
Proof.
  destruct (truthy (refreshToken (session w))) eqn:Hrt.
  - destruct (isTokenExpired (clock w) (session w)) eqn:Hexp.
    + destruct (tokenEndpoint up
                  (sent w ++ [refresh_request (refreshToken (session w))])%list)
        as [elapsed answer] eqn:H.
      destruct answer as [ax | [td|]].
      * rewrite (ensureValidToken_refresh_fails w elapsed _ Hrt Hexp H)
          by discriminate.
        discriminate.
      * rewrite (ensureValidToken_refreshes w elapsed td Hrt Hexp H). discriminate.
      * rewrite (ensureValidToken_refresh_fails w elapsed _ Hrt Hexp H)
          by discriminate.
        discriminate.
    + rewrite (ensureValidToken_fresh w Hexp). discriminate.
  - rewrite (ensureValidToken_no_refresh_token w Hrt). discriminate.
Qed.

(** The request [makeRequest] sends from world [w]. *)
Definition request_of (method : Method) (url : string) (body : RequestData)
    (config : Config) (w : World) : Event :=
  ApiRequest method url
    (if truthy (accessToken (session w))
     then Some ("Bearer " +:+ template (accessToken (session w)))
     else None)
    config
    (match method with
     | get => NoData
     | post => body
     end).

(** The context string of the error [makeRequest] reports. *)
Definition request_context (method : Method) (url : string) : string :=
  "API Request " +:+ toUpperCase (method_name method) +:+ " " +:+ url.

(** C5: with no refresh token on file, [ensureValidToken] returns without
    error, sends nothing and leaves the world as it is, expired or not;
    [makeRequest] then sends the call once with the token it has, never
    a refresh, and hands back that call's answer or reports its
    failure. *)
Theorem ensureValidToken_without_refresh_token (w : World)
    (method : Method) (url : string) (body : RequestData) (config : Config)
    (isRetry : bool) :
  absent (refreshToken (session w)) ->
  ensureValidToken up w = Ok tt w
  /\ let request := request_of method url body config w in
     let w' := after_exchange w request (api up (sent w ++ [request])%list).1 in
     makeRequest up method url body config isRetry w =
       match (api up (sent w ++ [request])%list).2 with
       | inr response => Ok response w'
       | inl error =>
           Throw (QuickBooksHelper.handleApiError error
                    (request_context method url)) w'
       end.
Proof.
  intros Hrt. split; [apply ensureValidToken_no_refresh_token; exact Hrt|].
  cbv zeta. unfold makeRequest. cbn [makeRequest_fuel]. unfold bind at 1.
  rewrite (ensureValidToken_no_refresh_token w Hrt).
  unfold try_await, request_of, request_context, after_exchange.
  destruct method; unfold axiosInstance;
    destruct (api up _) as [elapsed [error|response]]; cbn [fst snd];
    try reflexivity.
  all: unfold bind, this_session; cbn [session].
  all: unfold absent in Hrt; rewrite Hrt, andb_false_r; reflexivity.
Qed.

End EnsureValidToken.

(** ** [makeRequest] *)

Definition after_failed_refresh : string := "API Request (after failed refresh)".

Section MakeRequest.

Variable up : Upstream.
Variables (method : Method) (url : string) (body : RequestData) (config : Config).

(** The axios call of [makeRequest]. *)
Definition the_call : Axios HttpResponse :=
  match method with
  | get => axiosInstance up get url NoData config
  | post => axiosInstance up post url body config
  end.

Lemma the_call_eq (w : World) :
  the_call w =
    let request := request_of method url body config w in
    ((api up (sent w ++ [request])%list).2,
     after_exchange w request (api up (sent w ++ [request])%list).1).
Proof.
  unfold the_call, request_of, after_exchange, axiosInstance.
  destruct method; cbv zeta; destruct (api up _); reflexivity.
Qed.

(** A retry does not look at the fuel that is left. *)
Lemma makeRequest_fuel_retry (n : nat) (w : World) :
  makeRequest_fuel up (S n) method url body config true w =
    match ensureValidToken up w with
    | Ok _ w1 =>
        match the_call w1 with
        | (inr response, w2) => Ok response w2
        | (inl error, w2) =>
            Throw (QuickBooksHelper.handleApiError error
                     (request_context method url)) w2
        end
    | Throw e w1 => Throw e w1
    | OutOfFuel => OutOfFuel
    end.
Proof.
  cbn [makeRequest_fuel]. run.
  destruct (ensureValidToken up w) as [[] w1 | e w1 |]; try reflexivity.
  unfold try_await. fold the_call.
  destruct (the_call w1) as [[error | response] w2]; [|reflexivity].
  rewrite andb_false_r. reflexivity.
Qed.

(** The first attempt, with fuel for one retry. *)
Lemma makeRequest_fuel_first (n : nat) (w : World) :
  makeRequest_fuel up (S (S n)) method url body config false w =
    match ensureValidToken up w with
    | Ok _ w1 =>
        match the_call w1 with
        | (inr response, w2) => Ok response w2
        | (inl error, w2) =>
            if isAuthError error && truthy (refreshToken (session w2)) then
              match refreshAccessToken up (refreshToken (session w2)) w2 with
              | Ok _ w3 =>
                  match makeRequest_fuel up 1 method url body config true w3 with
                  | Ok response w4 => Ok response w4
                  | Throw _ w4 =>
                      Throw (QuickBooksHelper.handleApiError error
                               after_failed_refresh) w4
                  | OutOfFuel => OutOfFuel
                  end
              | Throw _ w3 =>
                  Throw (QuickBooksHelper.handleApiError error
                           after_failed_refresh) w3
              | OutOfFuel => OutOfFuel
              end
            else
              Throw (QuickBooksHelper.handleApiError error
                       (request_context method url)) w2
        end
    | Throw e w1 => Throw e w1
    | OutOfFuel => OutOfFuel
    end.
Proof.
  change (makeRequest_fuel up (S (S n)) method url body config false w)
    with ((ensureValidToken up;;
           try_await the_call
             (fun error =>
                s ← this_session;
                if isAuthError error && negb false && truthy (refreshToken s) then
                  try_catch
                    (refreshAccessToken up (refreshToken s);;
                     makeRequest_fuel up (S n) method url body config true)
                    (fun refreshError =>
                       throw (QuickBooksHelper.handleApiError error
                                after_failed_refresh))
                else
                  throw (QuickBooksHelper.handleApiError error
                           (request_context method url)))) w).
  run.
  destruct (ensureValidToken up w) as [[] w1 | e w1 |]; try reflexivity.
  unfold try_await.
  destruct (the_call w1) as [[error | response] w2]; [|reflexivity].
  rewrite andb_true_r.
  destruct (isAuthError error && truthy (refreshToken (session w2)));
    [|reflexivity].
  destruct (refreshAccessToken up (refreshToken (session w2)) w2)
    as [tr w3 | e w3 |]; try reflexivity.
  rewrite (makeRequest_fuel_retry n w3), <- (makeRequest_fuel_retry 0 w3).
  reflexivity.
Qed.

(** Two units of fuel are always enough. *)
Lemma makeRequest_fuel_enough (n : nat) (isRetry : bool) (w : World) :
  makeRequest_fuel up (S (S n)) method url body config isRetry w =
    makeRequest up method url body config isRetry w.
Proof.
  unfold makeRequest. destruct isRetry.
  - rewrite !makeRequest_fuel_retry. reflexivity.
  - rewrite (makeRequest_fuel_first n w), (makeRequest_fuel_first 0 w).
    reflexivity.
Qed.

(** [makeRequest] always comes back, with a response or an exception. *)
Lemma makeRequest_returns (isRetry : bool) (w : World) :
  makeRequest up method url body config isRetry w <> OutOfFuel.
Proof.
  assert (Hretry : forall w', makeRequest_fuel up 1 method url body config true w'
                              <> OutOfFuel).
  { intros w'. rewrite makeRequest_fuel_retry.
    pose proof (ensureValidToken_returns up w') as He.
    destruct (ensureValidToken up w') as [[] w1 | e w1 |];
      [|discriminate|contradiction].
    destruct (the_call w1) as [[error | response] w2]; discriminate. }
  unfold makeRequest. destruct isRetry.
  - rewrite makeRequest_fuel_retry, <- (makeRequest_fuel_retry 0). apply Hretry.
  - rewrite (makeRequest_fuel_first 0 w).
    pose proof (ensureValidToken_returns up w) as He.
    destruct (ensureValidToken up w) as [[] w1 | e w1 |];
      [|discriminate|contradiction].
    destruct (the_call w1) as [[error | response] w2]; [|discriminate].
    destruct (isAuthError error && truthy (refreshToken (session w2)));
      [|discriminate].
    pose proof (refreshAccessToken_returns up (refreshToken (session w2)) w2) as Hr.
    destruct (refreshAccessToken up (refreshToken (session w2)) w2)
      as [tr w3 | e w3 |]; [|discriminate|contradiction].
    specialize (Hretry w3).
    destruct (makeRequest_fuel up 1 method url body config true w3);
      [discriminate|discriminate|contradiction].
Qed.

(** When the retry fails too, the caller is told about the first failure:
    the exception of the retry is caught by the handler meant for a
    failed refresh, which reports the error it has at hand. *)
Lemma makeRequest_failed_retry_reports_first
    (w w1 w2 w3 w4 : World) (first : AxiosError) (second : Exn)
    (tr : QuickBooksTokenResponse) :
  ensureValidToken up w = Ok tt w1 ->
  the_call w1 = (inl first, w2) ->
  isAuthError first = true ->
  present (refreshToken (session w2)) ->
  refreshAccessToken up (refreshToken (session w2)) w2 = Ok tr w3 ->
  makeRequest up method url body config true w3 = Throw second w4 ->
  makeRequest up method url body config false w =
    Throw (QuickBooksHelper.handleApiError first after_failed_refresh) w4.
Proof.
  intros He Hcall Hauth Hrt Hrefresh Hretry.
  unfold makeRequest in *. rewrite (makeRequest_fuel_first 0 w).
  rewrite He, Hcall, Hauth, Hrt. cbn [andb]. rewrite Hrefresh.
  rewrite makeRequest_fuel_retry in Hretry.
  rewrite makeRequest_fuel_retry, Hretry. reflexivity.
Qed.

End MakeRequest.

(** ** What a method sends *)

Definition result_world {A : Type} (r : Result A) : option World :=
  match r with
  | Ok _ w => Some w
  | Throw _ w => Some w
  | OutOfFuel => None
  end.

Definition is_api (ev : Event) : bool :=
  match ev with
  | ApiRequest _ _ _ _ _ => true
  | TokenRequest _ _ => false
  end.

(** The number of resource calls in a list of requests. *)
Definition api_calls (l : list Event) : nat := length (List.filter is_api l).

(** [emits P n m]: whatever [m] does, it only appends to the list of
    requests sent, every request it appends satisfies [P], and at most [n]
    of them are resource calls. *)
Definition emits {A : Type} (P : Event -> Prop) (n : nat) (m : M A) : Prop :=
  forall w w', result_world (m w) = Some w' ->
    exists new, sent w' = (sent w ++ new)%list /\ Forall P new /\ (api_calls new <= n)%nat.

Definition axios_emits {A : Type} (P : Event -> Prop) (n : nat) (call : Axios A)
    : Prop :=
  forall w,
    exists new, sent (call w).2 = (sent w ++ new)%list /\ Forall P new
                /\ (api_calls new <= n)%nat.

Lemma api_calls_app (l1 l2 : list Event) :
  api_calls (l1 ++ l2) = (api_calls l1 + api_calls l2)%nat.
Proof. unfold api_calls. rewrite List.filter_app, length_app. reflexivity. Qed.

Section Emits.

Context {A : Type} (P : Event -> Prop).

Lemma emits_silent (m : M A) :
  (forall w w', result_world (m w) = Some w' -> sent w' = sent w) ->
  emits P 0 m.
Proof.
  intros H w w' Hw. exists []. rewrite app_nil_r.
  split; [exact (H w w' Hw)|]. split; [constructor | reflexivity].
Qed.

Lemma emits_ret (a : A) : emits P 0 (ret a).
Proof. apply emits_silent. intros w w' [= <-]. reflexivity. Qed.

Lemma emits_throw (e : Exn) : emits P 0 (@throw A e).
Proof. apply emits_silent. intros w w' [= <-]. reflexivity. Qed.

Lemma emits_weaken (n n' : nat) (m : M A) :
  (n <= n')%nat -> emits P n m -> emits P n' m.
Proof.
  intros Hle H w w' Hw. destruct (H w w' Hw) as (new & Hs & HP & Hn).
  exists new. repeat split; [assumption..|lia].
Qed.

Lemma emits_try_catch (n1 n2 : nat) (m : M A) (handler : Exn -> M A) :
  emits P n1 m -> (forall e, emits P n2 (handler e)) ->
  emits P (n1 + n2) (try_catch m handler).
Proof.
  intros Hm Hh w w' Hw. unfold try_catch in Hw.
  destruct (m w) as [a w1 | e w1 |] eqn:E; [| |discriminate].
  - destruct (Hm w w1) as (new & Hs & HP & Hn); [rewrite E; reflexivity|].
    injection Hw as <-. exists new. repeat split; [assumption..|lia].
  - destruct (Hm w w1) as (new1 & Hs1 & HP1 & Hn1); [rewrite E; reflexivity|].
    destruct (Hh e w1 w' Hw) as (new2 & Hs2 & HP2 & Hn2).
    exists (new1 ++ new2)%list. rewrite Hs2, Hs1, app_assoc, api_calls_app.
    repeat split; [apply Forall_app; auto | lia].
Qed.

Lemma emits_await (n : nat) (call : Axios A) :
  axios_emits P n call -> emits P n (await call).
Proof.
  intros H w w' Hw. unfold await in Hw. specialize (H w).
  destruct (call w) as [[e | a] w1]; injection Hw as <-; exact H.
Qed.

Lemma emits_try_await (n1 n2 : nat) (call : Axios A)
    (handler : AxiosError -> M A) :
  axios_emits P n1 call -> (forall e, emits P n2 (handler e)) ->
  emits P (n1 + n2) (try_await call handler).
Proof.
  intros Hc Hh w w' Hw. unfold try_await in Hw.
  destruct (Hc w) as (new1 & Hs1 & HP1 & Hn1).
  destruct (call w) as [[e | a] w1]; cbn [snd] in Hs1.
  - destruct (Hh e w1 w' Hw) as (new2 & Hs2 & HP2 & Hn2).
    exists (new1 ++ new2)%list. rewrite Hs2, Hs1, app_assoc, api_calls_app.
    repeat split; [apply Forall_app; auto | lia].
  - injection Hw as <-. exists new1. repeat split; [assumption..|lia].
Qed.

End Emits.

Lemma emits_bind {A B : Type} (P : Event -> Prop) (n1 n2 : nat)
    (m : M A) (f : A -> M B) :
  emits P n1 m -> (forall a, emits P n2 (f a)) -> emits P (n1 + n2) (bind m f).
Proof.
  intros Hm Hf w w' Hw. unfold bind in Hw.
  destruct (m w) as [a w1 | e w1 |] eqn:E; [| |discriminate].
  - destruct (Hm w w1) as (new1 & Hs1 & HP1 & Hn1); [rewrite E; reflexivity|].
    destruct (Hf a w1 w' Hw) as (new2 & Hs2 & HP2 & Hn2).
    exists (new1 ++ new2)%list. rewrite Hs2, Hs1, app_assoc, api_calls_app.
    repeat split; [apply Forall_app; auto | lia].
  - destruct (Hm w w1) as (new & Hs & HP & Hn); [rewrite E; reflexivity|].
    injection Hw as <-. exists new. repeat split; [assumption..|lia].
Qed.

(** The requests a call of [makeRequest] with method [m] may send: token
    requests, and resource calls with that method. *)
Definition only_method (m : Method) (ev : Event) : Prop :=
  match ev with
  | TokenRequest _ _ => True
  | ApiRequest m' _ _ _ _ => m' = m
  end.

(** Any request except a resource call that posts. *)
Definition not_a_post (ev : Event) : Prop := only_method get ev.

Section ServiceEmits.

Variable up : Upstream.
Variable P : Event -> Prop.
Hypothesis P_token : forall grant_type token, P (TokenRequest grant_type token).

Lemma this_session_emits : emits P 0 this_session.
Proof. apply emits_silent. intros w w' [= <-]. reflexivity. Qed.

Lemma company_url_emits (suffix : string) : emits P 0 (company_url suffix).
Proof. apply emits_silent. intros w w' [= <-]. reflexivity. Qed.

Lemma refreshAccessToken_emits (rt : JsStr) :
  emits P 0 (refreshAccessToken up rt).
Proof.
  intros w w' Hw. exists [refresh_request rt].
  assert (Hsent : sent w' = (sent w ++ [refresh_request rt])%list).
  { destruct (tokenEndpoint up (sent w ++ [refresh_request rt])%list)
      as [elapsed answer] eqn:H.
    destruct answer as [ax | [td|]].
    - rewrite (refreshAccessToken_rejected up rt w elapsed _ H) in Hw
        by discriminate.
      injection Hw as <-. reflexivity.
    - rewrite (refreshAccessToken_ok up rt w elapsed td H) in Hw.
      injection Hw as <-. reflexivity.
    - rewrite (refreshAccessToken_rejected up rt w elapsed _ H) in Hw
        by discriminate.
      injection Hw as <-. reflexivity. }
  split; [exact Hsent|]. split; [|reflexivity].
  constructor; [apply P_token | constructor].
Qed.

Lemma ensureValidToken_emits : emits P 0 (ensureValidToken up).
Proof.
  intros w w' Hw.
  destruct (truthy (refreshToken (session w))) eqn:Hrt.
  - destruct (isTokenExpired (clock w) (session w)) eqn:Hexp.
    + exists [refresh_request (refreshToken (session w))].
      assert (Hsent : sent w'
                      = (sent w ++ [refresh_request (refreshToken (session w))])%list).
      { destruct (tokenEndpoint up
                    (sent w ++ [refresh_request (refreshToken (session w))])%list)
          as [elapsed answer] eqn:H.
        destruct answer as [ax | [td|]].
        - rewrite (ensureValidToken_refresh_fails up w elapsed _ Hrt Hexp H) in Hw
            by discriminate.
          injection Hw as <-. reflexivity.
        - rewrite (ensureValidToken_refreshes up w elapsed td Hrt Hexp H) in Hw.
          injection Hw as <-. reflexivity.
        - rewrite (ensureValidToken_refresh_fails up w elapsed _ Hrt Hexp H) in Hw
            by discriminate.
          injection Hw as <-. reflexivity. }
      split; [exact Hsent|]. split; [|reflexivity].
      constructor; [apply P_token | constructor].
    + rewrite (ensureValidToken_fresh up w Hexp) in Hw. injection Hw as <-.
      exists []. rewrite app_nil_r.
      split; [reflexivity|]. split; [constructor | reflexivity].
  - rewrite (ensureValidToken_no_refresh_token up w Hrt) in Hw. injection Hw as <-.
    exists []. rewrite app_nil_r.
      split; [reflexivity|]. split; [constructor | reflexivity].
Qed.

Lemma axiosInstance_emits (method : Method) (url : string)
    (body : RequestData) (config : Config) :
  (forall authorization, P (ApiRequest method url authorization config body)) ->
  axios_emits P 1 (axiosInstance up method url body config).
Proof.
  intros HP w. unfold axiosInstance.
  destruct (api up _) as [elapsed answer]. cbn [snd sent].
  eexists [_]. split; [reflexivity|]. split; [|reflexivity].
  constructor; [apply HP | constructor].
Qed.

End ServiceEmits.

Section MakeRequestEmits.

Variable up : Upstream.

(** A call of [makeRequest] sends token requests and resource calls of
    its own method only, and of the latter at most two: the call and one
    retry.  A retry sends at most one. *)
Lemma makeRequest_fuel_emits (fuel : nat) (method : Method) (url : string)
    (body : RequestData) (config : Config) (isRetry : bool) :
  emits (only_method method) (if isRetry then 1 else 2)
    (makeRequest_fuel up fuel method url body config isRetry).
Proof.
  revert isRetry. induction fuel as [|fuel IH]; intros isRetry.
  - intros w w' Hw. discriminate Hw.
  - cbn [makeRequest_fuel].
    apply (emits_weaken _ (0 + (1 + (0 + (if isRetry then 0 else 1))))%nat);
      [destruct isRetry; lia|].
    apply emits_bind; [apply ensureValidToken_emits; intros; exact I|].
    intros _. apply emits_try_await.
    { destruct method; apply axiosInstance_emits; intros; reflexivity. }
    intros error. apply emits_bind; [apply this_session_emits|].
    intros s. destruct isRetry.
    + rewrite andb_false_r. cbn [andb]. apply emits_throw.
    + destruct (isAuthError error && negb false && truthy (refreshToken s)).
      * apply (emits_weaken _ ((0 + 1) + 0)%nat); [lia|].
        apply emits_try_catch; [|intros e; apply emits_throw].
        apply emits_bind;
          [apply refreshAccessToken_emits; intros; exact I|].
        intros _. apply (IH true).
      * apply (emits_weaken _ 0%nat); [lia|]. apply emits_throw.
Qed.

Lemma makeRequest_emits (method : Method) (url : string)
    (body : RequestData) (config : Config) (isRetry : bool) :
  emits (only_method method) (if isRetry then 1 else 2)
    (makeRequest up method url body config isRetry).
Proof. apply makeRequest_fuel_emits. Qed.

(** A page is fetched with reads only, four at most. *)
Lemma executeQuery_emits (entity : string) (maxResults' startPosition' : Z)
    (where_ : JsStr) :
  emits not_a_post 4 (executeQuery up entity maxResults' startPosition' where_).
Proof.
  unfold executeQuery, not_a_post.
  apply (emits_weaken _ (0 + (2 + ((2 + 0) + 0)))%nat); [lia|].
  apply emits_bind; [apply company_url_emits|]. intros url.
  apply emits_bind; [apply (makeRequest_emits get _ _ _ false)|]. intros response.
  destruct (data response ≫= data_QueryResponse) as [queryResponse|].
  - apply emits_bind; [|intros count; apply emits_ret].
    apply emits_try_catch; [|intros e; apply emits_ret].
    apply (emits_weaken _ (0 + (2 + 0))%nat); [lia|].
    apply emits_bind; [apply company_url_emits|]. intros url'.
    apply emits_bind; [apply (makeRequest_emits get _ _ _ false)|].
    intros countResponse.
    destruct (data countResponse) as [d|]; [|apply emits_throw].
    destruct (data_QueryResponse d) as [countData|]; [|apply emits_ret].
    destruct (qr_totalCount countData); [apply emits_ret|].
    destruct (qr_entities countData !! entity ≫= head); apply emits_ret.
  - apply (emits_weaken _ 0%nat); [lia|]. apply emits_throw.
Qed.

Lemma findItemByName_emits (itemName : string) :
  emits not_a_post 4 (findItemByName up itemName).
Proof.
  unfold findItemByName.
  apply (emits_weaken _ (4 + 0)%nat); [lia|].
  apply emits_bind; [apply executeQuery_emits|]. intros result.
  destruct (items result); apply emits_ret.
Qed.

End MakeRequestEmits.

(** ** Paginated fetches and lookups *)

Definition query_url (w : World) : string :=
  "/v3/company/" +:+ template (realmId (session w)) +:+ "/query".

Definition not_found (entity id : string) : Exn :=
  ExHttp (BodyText (entity +:+ " with ID " +:+ id +:+ " not found")) NOT_FOUND.

Definition duplicate_item (name : string) (existing : Row) : Exn :=
  ExHttp
    (BodyDuplicateItem
       ("An item with the name " +:+ dquote +:+ name +:+ dquote
          +:+ " already exists")
       "DUPLICATE_ITEM_NAME"
       {| ex_Id := Id existing; ex_Name := Name existing; ex_Type := Type_ existing |}
       "Item names must be unique in QuickBooks. Please use a different name or update the existing item.")
    CONFLICT.

Section Queries.

Variable up : Upstream.

(** The rows of a page are the rows of the item query's answer. *)
Lemma executeQuery_items (entity : string) (maxResults' startPosition' : Z)
    (where_ : JsStr) (w w1 w' : World) (response : HttpResponse)
    (queryResponse : QueryResponse) (result : QuickBooksPaginatedResponse) :
  makeRequest up get (query_url w) NoData
    (Params "query"
       (QuickBooksHelper.formatQuery entity maxResults' startPosition' where_))
    false w = Ok response w1 ->
  data response ≫= data_QueryResponse = Some queryResponse ->
  executeQuery up entity maxResults' startPosition' where_ w = Ok result w' ->
  items result = default [] (qr_entities queryResponse !! entity).
Proof.
  intros Hitems Hqr. unfold executeQuery, company_url. run.
  unfold query_url in Hitems. rewrite Hitems, Hqr.
  destruct (makeRequest up get _ NoData _ false w1) as [cr w2 | e w2 |];
    [| |discriminate].
  - destruct (data cr) as [d|]; [|intros [= <- _]; reflexivity].
    destruct (data_QueryResponse d) as [cd|]; [|intros [= <- _]; reflexivity].
    destruct (qr_totalCount cd); [intros [= <- _]; reflexivity|].
    destruct (qr_entities cd !! entity ≫= head); intros [= <- _]; reflexivity.
  - intros [= <- _]. reflexivity.
Qed.

(** C8: when the item query of a paginated fetch succeeds and the count
    query that follows fails, [executeQuery] raises no error: it returns
    the rows of the item query with [totalCount] equal to their
    number. *)
Theorem executeQuery_count_failure (entity : string)
    (maxResults' startPosition' : Z) (where_ : JsStr) (w w1 w2 : World)
    (response : HttpResponse) (queryResponse : QueryResponse) (error : Exn) :
  makeRequest up get (query_url w) NoData
    (Params "query"
       (QuickBooksHelper.formatQuery entity maxResults' startPosition' where_))
    false w = Ok response w1 ->
  data response ≫= data_QueryResponse = Some queryResponse ->
  makeRequest up get (query_url w1) NoData
    (Params "query" (QuickBooksHelper.formatCountQuery entity where_))
    false w1 = Throw error w2 ->
  let rows := default [] (qr_entities queryResponse !! entity) in
  executeQuery up entity maxResults' startPosition' where_ w =
    Ok {| items := rows;
          totalCount := Z.of_nat (length rows);
          startPosition := startPosition';
          maxResults := maxResults' |} w2.
Proof.
  intros Hitems Hqr Hcount. unfold executeQuery, company_url. run.
  unfold query_url in Hitems, Hcount. rewrite Hitems, Hqr, Hcount.
  reflexivity.
Qed.

(** The list operations are [executeQuery] under another name, so the
    same holds for them. *)
Lemma getItems_count_failure (w w1 w2 : World) (response : HttpResponse)
    (queryResponse : QueryResponse) (error : Exn) :
  makeRequest up get (query_url w) NoData
    (Params "query" (QuickBooksHelper.formatQuery "Item" 20 1 JsUndefined))
    false w = Ok response w1 ->
  data response ≫= data_QueryResponse = Some queryResponse ->
  makeRequest up get (query_url w1) NoData
    (Params "query" (QuickBooksHelper.formatCountQuery "Item" JsUndefined))
    false w1 = Throw error w2 ->
  exists result,
    getItems up None None w = Ok result w2
    /\ totalCount result = Z.of_nat (length (items result)).
Proof.
  intros Hitems Hqr Hcount. eexists. split.
  - unfold getItems, executeQuery, company_url. cbn [default]. run.
    unfold query_url in Hitems, Hcount. rewrite Hitems, Hqr, Hcount.
    reflexivity.
  - reflexivity.
Qed.

Lemma getCustomers_count_failure (w w1 w2 : World) (response : HttpResponse)
    (queryResponse : QueryResponse) (error : Exn) :
  makeRequest up get (query_url w) NoData
    (Params "query" (QuickBooksHelper.formatQuery "Customer" 20 1 JsUndefined))
    false w = Ok response w1 ->
  data response ≫= data_QueryResponse = Some queryResponse ->
  makeRequest up get (query_url w1) NoData
    (Params "query" (QuickBooksHelper.formatCountQuery "Customer" JsUndefined))
    false w1 = Throw error w2 ->
  exists result customers,
    getCustomers up None None w = Ok (result, customers) w2
    /\ customers = items result
    /\ totalCount result = Z.of_nat (length customers).
Proof.
  intros Hitems Hqr Hcount. eexists _, _. split.
  - unfold getCustomers, executeQuery, company_url. cbn [default]. run.
    unfold query_url in Hitems, Hcount. rewrite Hitems, Hqr, Hcount.
    reflexivity.
  - split; reflexivity.
Qed.

(** What a successful query means for a lookup by id. *)
Definition by_id_outcome (lookup : string -> M Row) (entity : string) : Prop :=
  forall (id : string) (w w' : World) (result : QuickBooksPaginatedResponse),
    executeQuery up entity 1 1 (where_id id) w = Ok result w' ->
    lookup id w =
      match items result with
      | [] => Throw (not_found entity id) w'
      | row :: _ => Ok row w'
      end.

Lemma getById_outcome (entity : string) :
  by_id_outcome (getById up entity) entity.
Proof.
  intros id w w' result H. unfold getById. run. rewrite H.
  destruct (items result); reflexivity.
Qed.

(** C9: when the query of [getCustomerById], [getInvoiceById] or
    [getItemById] succeeds with no row, the operation throws the
    not-found exception with status 404, which no translation of an
    upstream fault by [handleApiError] ever equals; with at least one
    row it returns the first. *)
Theorem getById_not_found :
  by_id_outcome (getCustomerById up) "Customer"
  /\ by_id_outcome (getInvoiceById up) "Invoice"
  /\ by_id_outcome (getItemById up) "Item"
  /\ (forall entity id, exn_status (not_found entity id) = Some 404)
  /\ (forall entity id error context,
        not_found entity id <> QuickBooksHelper.handleApiError error context).
Proof.
  split; [apply getById_outcome|]. split; [apply getById_outcome|].
  split; [apply getById_outcome|]. split; [reflexivity|].
  intros entity id error context. unfold not_found, QuickBooksHelper.handleApiError.
  discriminate.
Qed.

(** C10: when the lookup by name that [createItem] starts with finds an
    item, [createItem] throws the 409 exception with code
    DUPLICATE_ITEM_NAME and the Id, Name and Type of the item found; it
    sends nothing after the lookup, and the lookup sent no post. *)
Theorem createItem_duplicate (itemData : QuickBooksItem) (w w' : World)
    (existing : Row) :
  findItemByName up (item_Name itemData) w = Ok (Some existing) w' ->
  createItem up itemData w = Throw (duplicate_item (item_Name itemData) existing) w'
  /\ exn_status (duplicate_item (item_Name itemData) existing) = Some 409
  /\ exists new, sent w' = (sent w ++ new)%list /\ Forall not_a_post new.
Proof.
  intros Hfound. split; [|split; [reflexivity|]].
  - unfold createItem. run. rewrite Hfound. reflexivity.
  - destruct (findItemByName_emits up (item_Name itemData) w w')
      as (new & Hsent & Hnew & _); [rewrite Hfound; reflexivity|].
    exists new. split; assumption.
Qed.

End Queries.

(** The only exception [ensureValidToken] ever throws is the terminal one:
    the branch that rethrows the caught error is never taken. *)
Lemma ensureValidToken_throws (up : Upstream) (w w' : World) (e : Exn) :
  ensureValidToken up w = Throw e w' -> e = reauthentication_required.
Proof.
  destruct (truthy (refreshToken (session w))) eqn:Hrt.
  - destruct (isTokenExpired (clock w) (session w)) eqn:Hexp.
    + destruct (tokenEndpoint up
                  (sent w ++ [refresh_request (refreshToken (session w))])%list)
        as [elapsed answer] eqn:H.
      destruct answer as [ax | [td|]].
      * rewrite (ensureValidToken_refresh_fails up w elapsed _ Hrt Hexp H)
          by discriminate.
        congruence.
      * rewrite (ensureValidToken_refreshes up w elapsed td Hrt Hexp H). discriminate.
      * rewrite (ensureValidToken_refresh_fails up w elapsed _ Hrt Hexp H)
          by discriminate.
        congruence.
    + rewrite (ensureValidToken_fresh up w Hexp). discriminate.
  - rewrite (ensureValidToken_no_refresh_token up w Hrt). discriminate.
Qed.

(** * Runs against concrete vendors *)

Module Scenarios.

Definition no_data : ResponseData :=
  {| data_Fault := None; data_fault := None; data_QueryResponse := None;
     data_Item := None; data_Account := None |}.

(** A fault envelope with one error record. *)
Definition fault_data (code detail : string) : ResponseData :=
  {| data_Fault :=
       Some {| fault_Error :=
                 Some [ {| ed_code := JsString code;
                           ed_Detail := JsString detail;
                           ed_detail := JsUndefined;
                           ed_Message := JsUndefined;
                           ed_message := JsUndefined |} ];
               fault_error := None |};
     data_fault := None; data_QueryResponse := None;
     data_Item := None; data_Account := None |}.

Definition rejected (st : Z) (d : option ResponseData) : AxiosError :=
  {| ax_status := None; ax_response := Some {| status := st; data := d |} |}.

Definition rows_data (entity : string) (rows : list Row) : ResponseData :=
  {| data_Fault := None; data_fault := None;
     data_QueryResponse :=
       Some {| qr_entities := {[ entity := rows ]}; qr_totalCount := None |};
     data_Item := None; data_Account := None |}.

(** A token answer without a new refresh token and without a realm id. *)
Definition granted : QuickBooksTokenResponse :=
  {| access_token := JsString "at2"; refresh_token := JsUndefined;
     expires_in := Some 3600; token_type := JsString "bearer";
     tr_realmId := JsUndefined |}.

Definition first_failure : AxiosError :=
  rejected 401 (Some (fault_data "3200" "first call rejected")).

Definition second_failure : AxiosError :=
  rejected 401 (Some (fault_data "3200" "second call rejected")).

(** The token endpoint grants; every resource call is rejected with 401,
    and the fault says which call it was. *)
Definition always_401 : Upstream :=
  {| tokenEndpoint := fun _ => (100, inr (Some granted));
     api := fun log =>
       (50, inl (if (api_calls log =? 1)%nat
                 then first_failure else second_failure)) |}.

(** The token endpoint answers 500; resource calls would succeed. *)
Definition token_endpoint_down : Upstream :=
  {| tokenEndpoint := fun _ => (100, inl (rejected 500 None));
     api := fun _ => (50, inr {| status := 200; data := Some no_data |}) |}.

(** The first resource call answers with [rows]; every later one is
    rejected with 500. *)
Definition count_fails (rows : list Row) : Upstream :=
  {| tokenEndpoint := fun _ => (100, inr (Some granted));
     api := fun log =>
       if (api_calls log =? 1)%nat
       then (50, inr {| status := 200; data := Some (rows_data "Item" rows) |})
       else (50, inl (rejected 500 None)) |}.

(** Every resource call answers with [rows] under [entity]. *)
Definition answers (entity : string) (rows : list Row) : Upstream :=
  {| tokenEndpoint := fun _ => (100, inr (Some granted));
     api := fun _ =>
       (50, inr {| status := 200; data := Some (rows_data entity rows) |}) |}.

Definition session_with (rt : JsStr) (expiry : option Date) : Session :=
  {| accessToken := JsString "at1"; refreshToken := rt;
     realmId := JsString "123"; tokenExpiresAt := expiry |}.

Definition w_fresh : World :=
  {| session := session_with (JsString "rt") None; clock := 1000; sent := [] |}.

Definition w_stale : World :=
  {| session := session_with (JsString "rt") (Some (ValidDate 0)); clock := 1000; sent := [] |}.

Definition w_no_refresh_token : World :=
  {| session := session_with JsNull (Some (ValidDate 0)); clock := 1000; sent := [] |}.

Definition widget : Row :=
  {| Id := JsString "7"; Name := JsString "Widget";
     Type_ := JsString "Service"; Count := JsUndefined |}.

Definition gadget : Row :=
  {| Id := JsString "8"; Name := JsString "Gadget";
     Type_ := JsString "Service"; Count := JsUndefined |}.

Definition an_item : QuickBooksItem :=
  {| item_Name := "Widget"; item_Type := "Service"; item_UnitPrice := Some 10;
     item_Description := JsUndefined; item_Sku := JsUndefined;
     item_IncomeAccountRef :=
       Some {| ref_value := JsString "79"; ref_name := JsUndefined |};
     item_ExpenseAccountRef := None; item_AssetAccountRef := None;
     item_QtyOnHand := None; item_InvStartDate := JsUndefined |}.

Definition items_url : string := "/v3/company/123/query".
Definition all_items : Config := Params "query" "SELECT * FROM Item".

Definition a_call (authorization : string) : Event :=
  ApiRequest get items_url (Some authorization) all_items NoData.

End Scenarios.

Import Scenarios.

(** C1: a call is rejected with 401 while a refresh token is on file; the
    refresh succeeds and the call is retried once, with the new token, and
    is rejected with 401 again.  Three requests leave the process (the
    call, the refresh, the retry) and no more, but the exception the
    caller gets is the translation of the first failure, under the context
    of a failed refresh; the second failure is dropped. *)
Theorem makeRequest_retry_failure_reports_first_error :
  let w_end :=
    {| session :=
         {| accessToken := JsString "at2"; refreshToken := JsString "rt";
            realmId := JsString "123"; tokenExpiresAt := Some (ValidDate 3601150) |};
       clock := 1200;
       sent := [a_call "Bearer at1"; TokenRequest "refresh_token" "rt";
                a_call "Bearer at2"] |} in
  makeRequest always_401 get items_url NoData all_items false w_fresh
  = Throw (QuickBooksHelper.handleApiError first_failure after_failed_refresh) w_end
  /\ QuickBooksHelper.handleApiError first_failure after_failed_refresh
     = ExHttp (BodyApiError (JsString "first call rejected") (JsString "3200")
                 (JsString "first call rejected")
                 (OrigData (fault_data "3200" "first call rejected")))
              401
  /\ QuickBooksHelper.handleApiError second_failure (request_context get items_url)
     = ExHttp (BodyApiError (JsString "second call rejected") (JsString "3200")
                 (JsString "second call rejected")
                 (OrigData (fault_data "3200" "second call rejected")))
              401.
Proof. cbv zeta. split; [|split]; vm_compute; reflexivity. Qed.

(** C4: the access token is past its expiry, a refresh token is on file,
    and the token endpoint answers 500.  [ensureValidToken] attempts the
    refresh and then throws the terminal re-authentication error with
    status 401: the 500 does not propagate, because [refreshAccessToken]
    has already replaced it by its own exception with status 400. *)
Theorem ensureValidToken_server_error_is_terminal :
  isTokenExpired (clock w_stale) (session w_stale) = true
  /\ refreshAccessToken token_endpoint_down (JsString "rt") w_stale
     = Throw refresh_failed (after_exchange w_stale (refresh_request (JsString "rt")) 100)
  /\ ensureValidToken token_endpoint_down w_stale
     = Throw reauthentication_required
         (after_exchange w_stale (refresh_request (JsString "rt")) 100)
  /\ exn_status reauthentication_required = Some 401.
Proof. repeat split; vm_compute; reflexivity. Qed.

Lemma ensureValidToken_without_refresh_token_witness :
  isTokenExpired (clock w_no_refresh_token) (session w_no_refresh_token) = true
  /\ ensureValidToken always_401 w_no_refresh_token = Ok tt w_no_refresh_token
  /\ makeRequest always_401 get items_url NoData all_items false w_no_refresh_token
     = Throw (QuickBooksHelper.handleApiError first_failure
                (request_context get items_url))
         (after_exchange w_no_refresh_token (a_call "Bearer at1") 50).
Proof.
  split; [reflexivity|].
  exact (ensureValidToken_without_refresh_token always_401 w_no_refresh_token
           get items_url NoData all_items false eq_refl).
Defined.

Lemma refreshAccessToken_keeps_token_witness :
  exists result w',
    refreshAccessToken always_401 (JsString "rt") w_fresh = Ok result w'
    /\ refresh_token result = JsString "rt"
    /\ refreshToken (session w') = JsString "rt"
    /\ tr_realmId result = JsString "123"
    /\ realmId (session w') = JsString "123".
Proof.
  destruct (refreshAccessToken_keeps_token always_401 (JsString "rt") w_fresh
              100 granted eq_refl eq_refl)
    as (result & w' & Hrun & Hresult & Hsession & _ & Hrealm).
  destruct (Hrealm eq_refl) as (_ & _ & Hstored).
  destruct (Hstored eq_refl) as [Hr1 Hr2].
  exists result, w'. repeat split; assumption.
Defined.

Lemma executeQuery_count_failure_witness :
  executeQuery (count_fails [widget; gadget]) "Item" 20 1 JsUndefined w_fresh
  = Ok {| items := [widget; gadget]; totalCount := 2;
          startPosition := 1; maxResults := 20 |}
       {| session := session w_fresh; clock := 1100;
          sent := [ApiRequest get items_url (Some "Bearer at1")
                     (Params "query" "SELECT * FROM Item MAXRESULTS 20 STARTPOSITION 1")
                     NoData;
                   ApiRequest get items_url (Some "Bearer at1")
                     (Params "query" "SELECT COUNT(*) FROM Item") NoData] |}.
Proof.
  refine (executeQuery_count_failure (count_fails [widget; gadget]) "Item" 20 1
            JsUndefined w_fresh
            {| session := session w_fresh; clock := 1050;
               sent := [ApiRequest get items_url (Some "Bearer at1")
                          (Params "query"
                             "SELECT * FROM Item MAXRESULTS 20 STARTPOSITION 1")
                          NoData] |}
            _
            {| status := 200; data := Some (rows_data "Item" [widget; gadget]) |}
            {| qr_entities := {[ "Item" := [widget; gadget] ]};
               qr_totalCount := None |}
            (QuickBooksHelper.handleApiError (rejected 500 None)
               (request_context get items_url))
            _ _ _).
  - vm_compute. reflexivity.
  - reflexivity.
  - vm_compute. reflexivity.
Defined.

Lemma getById_not_found_witness :
  getCustomerById (answers "Customer" []) "42" w_fresh
  = Throw (ExHttp (BodyText "Customer with ID 42 not found") 404)
      {| session := session w_fresh; clock := 1100;
         sent := [ApiRequest get items_url (Some "Bearer at1")
                    (Params "query"
                       "SELECT * FROM Customer WHERE Id = '42' MAXRESULTS 1 STARTPOSITION 1")
                    NoData;
                  ApiRequest get items_url (Some "Bearer at1")
                    (Params "query" "SELECT COUNT(*) FROM Customer WHERE Id = '42'")
                    NoData] |}.
Proof.
  refine (proj1 (getById_not_found (answers "Customer" [])) "42" w_fresh _
            {| items := []; totalCount := 0; startPosition := 1; maxResults := 1 |}
            _).
  vm_compute. reflexivity.
Defined.

Lemma createItem_duplicate_witness :
  createItem (answers "Item" [widget]) an_item w_fresh
  = Throw (duplicate_item "Widget" widget)
      {| session := session w_fresh; clock := 1100;
         sent := [ApiRequest get items_url (Some "Bearer at1")
                    (Params "query"
                       "SELECT * FROM Item WHERE Name = 'Widget' AND Active IN (true, false) MAXRESULTS 1 STARTPOSITION 1")
                    NoData;
                  ApiRequest get items_url (Some "Bearer at1")
                    (Params "query"
                       "SELECT COUNT(*) FROM Item WHERE Name = 'Widget' AND Active IN (true, false)")
                    NoData] |}.
Proof.
  refine (proj1 (createItem_duplicate (answers "Item" [widget]) an_item w_fresh _
                   widget _)).
  vm_compute. reflexivity.
Defined.

(** Without a match the same call does post the item. *)
Example createItem_posts_when_new :
  exists created w',
    createItem (answers "Item" []) an_item w_fresh = Ok created w'
    /\ api_calls (sent w') = 3%nat
    /\ exists authorization body,
         last (sent w') =
           Some (ApiRequest post "/v3/company/123/item" authorization NoConfig body).
Proof.
  eexists _, _. split; [vm_compute; reflexivity|].
  split; [reflexivity|]. eexists _, _. reflexivity.
Qed.


(** * The rest of the service *)

(** ** Storing credentials and the expiry verdict *)

(** Storing the same credentials twice at the same instant is the same as
    storing them once. *)
Lemma setAccessToken_idempotent (now : Z) (a rid rt : JsStr) (e : option Z)
    (s : Session) :
  setAccessToken now a rid rt e (setAccessToken now a rid rt e s)
  = setAccessToken now a rid rt e s.
Proof.
  unfold setAccessToken. cbn [accessToken refreshToken realmId tokenExpiresAt].
  f_equal.
  - destruct (truthy rt); reflexivity.
  - destruct (truthyZ e), e; reflexivity.
Qed.

(** The verdict on a token stored with a lifetime. *)
Lemma lifetime_verdict (now : Z) (a rid rt : JsStr) (e : Z) (s : Session) :
  present a ->
  e <> 0 ->
  isTokenExpired now (setAccessToken now a rid rt (Some e) s)
  = bool_decide (e <= 300 /\ - max_time <= now + e * 1000 <= max_time).
Proof.
  unfold present. intros Ha He.
  unfold isTokenExpired, setAccessToken.
  cbn [accessToken refreshToken tokenExpiresAt truthyZ].
  rewrite Ha. cbn [negb andb].
  destruct (Z.eqb_spec e 0) as [->|_]; [congruence|]. cbn [negb].
  cbv zeta. unfold new_Date.
  destruct (Z.leb_spec (Z.abs (now + e * 1000)) max_time) as [Hin|Hout];
    cbn [date_le]; case_bool_decide as Hle;
    try reflexivity; try (apply Z.leb_le; lia); try (apply Z.leb_gt; lia).
  lia.
Qed.

(** The verdict, at a later reading of the clock, on a token stored with
    a lifetime. *)
Lemma lifetime_verdict_later (now later : Z) (a rid rt : JsStr) (e : Z)
    (s : Session) :
  present a ->
  e <> 0 ->
  isTokenExpired later (setAccessToken now a rid rt (Some e) s)
  = bool_decide (- max_time <= now + e * 1000 <= max_time
                 /\ now + e * 1000 <= later + five_minutes).
Proof.
  unfold present, five_minutes. intros Ha He.
  unfold isTokenExpired, setAccessToken.
  cbn [accessToken refreshToken tokenExpiresAt truthyZ].
  rewrite Ha. cbn [negb andb].
  destruct (Z.eqb_spec e 0) as [->|_]; [congruence|]. cbn [negb].
  cbv zeta. unfold new_Date.
  destruct (Z.leb_spec (Z.abs (now + e * 1000)) max_time) as [Hin|Hout];
    cbn [date_le]; case_bool_decide as Hle;
    try reflexivity; try (apply Z.leb_le; lia); try (apply Z.leb_gt; lia).
  lia.
Qed.

(** X1: a non-empty access token stored with a lifetime of [e] whole
    seconds, other than zero, is reported expired at a later reading of
    the clock exactly when its expiry is an instant a [Date] can hold and
    lies at most five minutes after that reading; an expiry out of range
    is stored as an Invalid Date and is never reported expired.  At the
    instant of the store itself this means: exactly when [e] is at most
    300 and the expiry is in range, so a token that lives five minutes or
    less is stale from the start. *)
Theorem setAccessToken_lifetime_verdict (now later : Z) (a rid rt : JsStr)
    (e : Z) (s : Session) :
  present a ->
  e <> 0 ->
  (isTokenExpired later (setAccessToken now a rid rt (Some e) s) = true
   <-> - max_time <= now + e * 1000 <= max_time
       /\ now + e * 1000 <= later + five_minutes)
  /\ (isTokenExpired now (setAccessToken now a rid rt (Some e) s) = true
      <-> e <= 300 /\ - max_time <= now + e * 1000 <= max_time).
Proof.
  intros Ha He. split.
  - rewrite (lifetime_verdict_later now later a rid rt e s Ha He).
    apply bool_decide_eq_true.
  - rewrite (lifetime_verdict now a rid rt e s Ha He).
    apply bool_decide_eq_true.
Qed.

Lemma setAccessToken_lifetime_verdict_witness :
  isTokenExpired 1000
    (setAccessToken 1000 (JsString "at") (JsString "123") JsUndefined (Some 300)
       (mkSession JsNull JsNull JsNull None)) = true
  /\ isTokenExpired 1000
       (setAccessToken 1000 (JsString "at") (JsString "123") JsUndefined
          (Some (-8640000000002)) (mkSession JsNull JsNull JsNull None)) = false.
Proof.
  split.
  - apply (proj2 (setAccessToken_lifetime_verdict 1000 1000 (JsString "at")
                    (JsString "123") JsUndefined 300
                    (mkSession JsNull JsNull JsNull None) eq_refl
                    ltac:(discriminate))).
    vm_compute. repeat split; discriminate.
  - apply not_true_is_false. intros Hexpired.
    apply (proj2 (setAccessToken_lifetime_verdict 1000 1000 (JsString "at")
                    (JsString "123") JsUndefined (-8640000000002)
                    (mkSession JsNull JsNull JsNull None) eq_refl
                    ltac:(discriminate))) in Hexpired.
    destruct Hexpired as [_ [Hlow _]]. vm_compute in Hlow. apply Hlow. reflexivity.
Defined.

(** The verdict of the recorded expiry alone. *)
Definition expiry_passed (now : Z) (s : Session) : bool :=
  match tokenExpiresAt s with
  | Some (ValidDate t) => bool_decide (t <= now + five_minutes)
  | Some InvalidDate => false
  | None => false
  end.

(** Storing a non-empty access token without a lifetime (or with the
    lifetime 0) does not touch the recorded expiry, so the verdict stays
    what the old expiry says. *)
Lemma setAccessToken_keeps_verdict (now : Z) (a rid rt : JsStr)
    (e : option Z) (s : Session) :
  present a ->
  truthyZ e = false ->
  isTokenExpired now (setAccessToken now a rid rt e s) = expiry_passed now s.
Proof.
  unfold present. intros Ha He.
  rewrite isTokenExpired_general.
  - unfold setAccessToken, expiry_passed. cbn [tokenExpiresAt]. rewrite He.
    reflexivity.
  - unfold setAccessToken. cbn [accessToken]. rewrite Ha. reflexivity.
Qed.

(** ** Escaping query values *)

(** X2: [escapeQueryValue] is injective: two different values never give
    the same text between the quotes of a query. *)
Theorem escapeQueryValue_injective (a b : string) :
  QuickBooksHelper.escapeQueryValue a = QuickBooksHelper.escapeQueryValue b ->
  a = b.
Proof.
  revert b. induction a as [|c a IH]; intros [|d b]; cbn [QuickBooksHelper.escapeQueryValue].
  - reflexivity.
  - destruct (Ascii.eqb d "'"); discriminate.
  - destruct (Ascii.eqb c "'"); discriminate.
  - destruct (Ascii.eqb_spec c "'") as [->|Hc], (Ascii.eqb_spec d "'") as [->|Hd].
    + intros [= H]. f_equal. apply IH, H.
    + intros [= Hhead _]. congruence.
    + intros [= Hhead _]. congruence.
    + intros [= -> H]. f_equal. apply IH, H.
Qed.

Lemma escapeQueryValue_injective_witness :
  "O'Neil" = "O'Neil".
Proof.
  exact (escapeQueryValue_injective "O'Neil" "O'Neil" eq_refl).
Defined.

(** Every run of single quotes in [s] has even length. *)
Fixpoint quotes_paired (s : string) : bool :=
  match s with
  | EmptyString => true
  | String c s' =>
      if Ascii.eqb c "'"
      then match s' with
           | String c' s'' => Ascii.eqb c' "'" && quotes_paired s''
           | EmptyString => false
           end
      else quotes_paired s'
  end.

Fixpoint has_quote (s : string) : bool :=
  match s with
  | EmptyString => false
  | String c s' => Ascii.eqb c "'" || has_quote s'
  end.

(** X3: in the output of [escapeQueryValue] no single quote stands alone
    (every run of quotes has even length), the output is never shorter than the
    input and strictly longer when the input holds a quote, and a value
    without quotes is returned as it is. *)
Theorem escapeQueryValue_pairs_quotes (v : string) :
  quotes_paired (QuickBooksHelper.escapeQueryValue v) = true
  /\ (String.length v <= String.length (QuickBooksHelper.escapeQueryValue v))%nat
  /\ (if has_quote v
      then (String.length v < String.length (QuickBooksHelper.escapeQueryValue v))%nat
      else QuickBooksHelper.escapeQueryValue v = v).
Proof.
  induction v as [|c v (IH1 & IH2 & IH3)]; [repeat split; reflexivity|].
  cbn [QuickBooksHelper.escapeQueryValue has_quote].
  destruct (Ascii.eqb_spec c "'") as [->|Hc].
  - cbn [quotes_paired String.length orb]. rewrite Ascii.eqb_refl. cbn [andb].
    repeat split; [exact IH1 | lia | lia].
  - cbn [quotes_paired String.length orb].
    destruct (Ascii.eqb_spec c "'") as [?|_]; [contradiction|].
    split; [exact IH1|]. split; [lia|].
    destruct (has_quote v); [lia | congruence].
Qed.

(** ** The translation of vendor faults *)

Lemma js_or_present_r (a b : JsStr) : present b -> present (js_or a b).
Proof.
  unfold present, js_or. intros Hb. destruct (truthy a) eqn:Ha; assumption.
Qed.

Lemma handleApiError_shape (error : AxiosError) (context : string) :
  exists message code detail original st,
    QuickBooksHelper.handleApiError error context
    = ExHttp (BodyApiError message code detail original) st
    /\ present message /\ st <> 0.
Proof.
  unfold QuickBooksHelper.handleApiError. eexists _, _, _, _, _.
  split; [reflexivity|]. split.
  - apply js_or_present_r. reflexivity.
  - unfold js_orZ at 1.
    destruct (truthyZ (js_orZ (status <$> ax_response error) (ax_status error)))
      eqn:Hst.
    + destruct (js_orZ _ _) as [z|]; [|discriminate Hst].
      cbn [default]. cbn [truthyZ] in Hst.
      destruct (Z.eqb_spec z 0); [discriminate Hst | assumption].
    + cbn. discriminate.
Qed.

(** Text made of ASCII characters only.  On such text [toLowerCase] and
    [toUpperCase] above are the built-ins of JavaScript, and the white
    space [parseInt] skips is the white space JavaScript skips. *)
Fixpoint ascii_only (s : string) : bool :=
  match s with
  | EmptyString => true
  | String c s' => (nat_of_ascii c <? 128)%nat && ascii_only s'
  end.

(** X4: for an error without a response, or whose response carries a
    body, the exception [handleApiError] builds has a non-empty message
    and a status other than 0.  With nothing usable in the error (no
    response, no status) the status is 400, code and detail are
    [undefined], the original error is the empty object and, for a context
    written in ASCII, the message is the fallback naming the context in
    lower case. *)
Theorem handleApiError_informative (error : AxiosError) (context : string) :
  ((forall r, ax_response error = Some r -> data r <> None) ->
   exists message code detail original st,
     QuickBooksHelper.handleApiError error context
     = ExHttp (BodyApiError message code detail original) st
     /\ present message /\ st <> 0)
  /\ (exists message,
       QuickBooksHelper.handleApiError (mkAxiosError None None) context
       = ExHttp (BodyApiError message JsUndefined JsUndefined OrigEmpty) 400
       /\ (ascii_only context = true ->
           message = JsString ("Failed to " +:+ toLowerCase context))).
Proof.
  split; [intros _; apply handleApiError_shape|].
  eexists. split; [reflexivity|]. intros _. reflexivity.
Qed.

Lemma handleApiError_informative_witness :
  (exists message code detail original st,
     QuickBooksHelper.handleApiError first_failure "Create Item"
     = ExHttp (BodyApiError message code detail original) st
     /\ present message /\ st <> 0)
  /\ exists message,
       QuickBooksHelper.handleApiError (mkAxiosError None None) "Create Item"
       = ExHttp (BodyApiError message JsUndefined JsUndefined OrigEmpty) 400
       /\ message = JsString "Failed to create item".
Proof.
  split.
  - apply (proj1 (handleApiError_informative first_failure "Create Item")).
    intros r [= <-]. discriminate.
  - destruct (proj2 (handleApiError_informative (mkAxiosError None None) "Create Item"))
      as (message & Hthrown & Hmessage).
    exists message. split; [exact Hthrown|]. exact (Hmessage eq_refl).
Defined.

(** A fault list under the upper-case keys, and the same list under the
    lower-case ones. *)
Definition upper_detail (t : JsStr * JsStr * JsStr) : ErrorDetail :=
  let '(c, d, m) := t in
  {| ed_code := c; ed_Detail := d; ed_detail := JsUndefined;
     ed_Message := m; ed_message := JsUndefined |}.

Definition lower_detail (t : JsStr * JsStr * JsStr) : ErrorDetail :=
  let '(c, d, m) := t in
  {| ed_code := c; ed_Detail := JsUndefined; ed_detail := d;
     ed_Message := JsUndefined; ed_message := m |}.

Definition upper_envelope (l : list (JsStr * JsStr * JsStr)) : ResponseData :=
  {| data_Fault := Some {| fault_Error := Some (upper_detail <$> l);
                           fault_error := None |};
     data_fault := None; data_QueryResponse := None;
     data_Item := None; data_Account := None |}.

Definition lower_envelope (l : list (JsStr * JsStr * JsStr)) : ResponseData :=
  {| data_Fault := None;
     data_fault := Some {| fault_Error := None;
                           fault_error := Some (lower_detail <$> l) |};
     data_QueryResponse := None; data_Item := None; data_Account := None |}.

Definition failure_with (st : Z) (d : ResponseData) : AxiosError :=
  {| ax_status := None; ax_response := Some {| status := st; data := Some d |} |}.

(** The message, code and status of a translated fault. *)
Definition summary (e : Exn) : option (JsStr * JsStr * Z) :=
  match e with
  | ExHttp (BodyApiError message code _ _) st => Some (message, code, st)
  | _ => None
  end.

(** X5: the two key conventions of the vendor's fault envelope are treated
    alike: the same fault list under [Fault.Error] with [Detail]/[Message]
    and under [fault.error] with [detail]/[message] gives the same message,
    code and status from [handleApiError], and the same answer from the
    authentication test of [makeRequest]. *)
Theorem fault_envelope_case_insensitive (st : Z)
    (l : list (JsStr * JsStr * JsStr)) (context : string) :
  summary (QuickBooksHelper.handleApiError (failure_with st (upper_envelope l)) context)
  = summary (QuickBooksHelper.handleApiError (failure_with st (lower_envelope l)) context)
  /\ isAuthError (failure_with st (upper_envelope l))
     = isAuthError (failure_with st (lower_envelope l)).
Proof.
  destruct l as [|[[c d] m] l].
  - split; reflexivity.
  - split.
    + unfold QuickBooksHelper.handleApiError. cbn -[js_or js_orZ toLowerCase].
      unfold js_or. cbn [truthy].
      destruct (truthy d) eqn:Hd; [rewrite ?Hd; reflexivity|].
      destruct (truthy m) eqn:Hm; rewrite ?Hd, ?Hm; cbn [truthy]; rewrite ?Hm;
        reflexivity.
    + unfold isAuthError. cbn -[bool_decide js_orZ].
      destruct (bool_decide _); cbn [orb]; [reflexivity|].
      rewrite orb_false_r. reflexivity.
Qed.

(** ** What a method may throw *)

(** [raises P m]: every exception that leaves [m] satisfies [P]. *)
Definition raises {A : Type} (P : Exn -> Prop) (m : M A) : Prop :=
  forall w e w', m w = Throw e w' -> P e.

Lemma raises_ret {A : Type} (P : Exn -> Prop) (a : A) : raises P (ret a).
Proof. intros w e w' H. discriminate H. Qed.

Lemma raises_throw {A : Type} (P : Exn -> Prop) (e : Exn) :
  P e -> raises P (@throw A e).
Proof. intros HP w e' w' [= <- _]. exact HP. Qed.

Lemma raises_bind {A B : Type} (P : Exn -> Prop) (m : M A) (f : A -> M B) :
  raises P m -> (forall a, raises P (f a)) -> raises P (bind m f).
Proof.
  intros Hm Hf w e w' H. unfold bind in H.
  destruct (m w) as [a w1 | e1 w1 |] eqn:E; [| |discriminate].
  - exact (Hf a w1 e w' H).
  - injection H as <- <-. exact (Hm w e1 w1 E).
Qed.

Lemma raises_try_catch {A : Type} (Q P : Exn -> Prop) (m : M A)
    (handler : Exn -> M A) :
  raises Q m -> (forall e, Q e -> raises P (handler e)) ->
  raises P (try_catch m handler).
Proof.
  intros Hm Hh w e w' H. unfold try_catch in H.
  destruct (m w) as [a w1 | e1 w1 |] eqn:E; [discriminate| |discriminate].
  exact (Hh e1 (Hm w e1 w1 E) w1 e w' H).
Qed.

Lemma raises_weaken {A : Type} (P Q : Exn -> Prop) (m : M A) :
  (forall e, P e -> Q e) -> raises P m -> raises Q m.
Proof. intros HPQ Hm w e w' H. exact (HPQ e (Hm w e w' H)). Qed.

Lemma raises_this_session (P : Exn -> Prop) : raises P this_session.
Proof. intros w e w' H. discriminate H. Qed.

Lemma raises_company_url (P : Exn -> Prop) (suffix : string) :
  raises P (company_url suffix).
Proof. intros w e w' H. discriminate H. Qed.

(** An exception built by the service for its callers: the terminal
    re-authentication error, or the translation of what axios rejected
    with. *)
Definition translated (e : Exn) : Prop :=
  e = reauthentication_required
  \/ exists error context, e = QuickBooksHelper.handleApiError error context.

Section MakeRequestOutcomes.

Variable up : Upstream.
Variables (method : Method) (url : string) (body : RequestData) (config : Config).

(** Whatever [makeRequest] throws is the terminal re-authentication error
    of [ensureValidToken] or a translation by [handleApiError]. *)
Lemma makeRequest_translates (isRetry : bool) (w w' : World) (e : Exn) :
  makeRequest up method url body config isRetry w = Throw e w' ->
  translated e.
Proof.
  assert (Hretry : forall w0 e0 w0',
             makeRequest_fuel up 1 method url body config true w0 = Throw e0 w0' ->
             translated e0).
  { intros w0 e0 w0'. rewrite makeRequest_fuel_retry.
    destruct (ensureValidToken up w0) as [[] w1 | e1 w1 |] eqn:He; [| |discriminate].
    - destruct (the_call up method url body config w1) as [[error | response] w2];
        [|discriminate].
      intros [= <- _]. right. eauto.
    - intros [= <- _]. left. exact (ensureValidToken_throws up w0 w1 e1 He). }
  unfold makeRequest. destruct isRetry.
  { rewrite makeRequest_fuel_retry,
      <- (makeRequest_fuel_retry up method url body config 0).
    apply Hretry. }
  rewrite (makeRequest_fuel_first up method url body config 0 w).
  destruct (ensureValidToken up w) as [[] w1 | e1 w1 |] eqn:He; [| |discriminate].
  - destruct (the_call up method url body config w1) as [[error | response] w2];
      [|discriminate].
    destruct (isAuthError error && truthy (refreshToken (session w2)));
      [|intros [= <- _]; right; eauto].
    destruct (refreshAccessToken up (refreshToken (session w2)) w2)
      as [tr w3 | e3 w3 |]; [| |discriminate].
    + destruct (makeRequest_fuel up 1 method url body config true w3);
        [discriminate | | discriminate].
      intros [= <- _]. right. eauto.
    + intros [= <- _]. right. eauto.
  - intros [= <- _]. left. exact (ensureValidToken_throws up w w1 e1 He).
Qed.


(** X7: a failure that is not an authentication failure is reported at
    once: after [ensureValidToken], one request is sent and its translated
    failure is thrown, with no refresh and no retry. *)
Theorem makeRequest_no_retry_on_other_failure (isRetry : bool)
    (w w1 : World) (elapsed : Z) (error : AxiosError) :
  ensureValidToken up w = Ok tt w1 ->
  api up (sent w1 ++ [request_of method url body config w1])%list
    = (elapsed, inl error) ->
  isAuthError error = false ->
  makeRequest up method url body config isRetry w
  = Throw (QuickBooksHelper.handleApiError error (request_context method url))
      (after_exchange w1 (request_of method url body config w1) elapsed).
Proof.
  intros He Hapi Hauth. unfold makeRequest. destruct isRetry.
  - rewrite makeRequest_fuel_retry, He, the_call_eq. cbv zeta.
    rewrite Hapi. reflexivity.
  - rewrite (makeRequest_fuel_first up method url body config 0 w), He, the_call_eq.
    cbv zeta. rewrite Hapi. cbn [fst snd]. rewrite Hauth. reflexivity.
Qed.

(** X8: when the call fails with an authentication failure, the refresh
    succeeds and the retry succeeds, the caller gets the response of the
    retry, in the world the retry left. *)
Theorem makeRequest_retry_success (w w1 w2 w3 w4 : World) (first : AxiosError)
    (tr : QuickBooksTokenResponse) (response : HttpResponse) :
  ensureValidToken up w = Ok tt w1 ->
  the_call up method url body config w1 = (inl first, w2) ->
  isAuthError first = true ->
  present (refreshToken (session w2)) ->
  refreshAccessToken up (refreshToken (session w2)) w2 = Ok tr w3 ->
  makeRequest up method url body config true w3 = Ok response w4 ->
  makeRequest up method url body config false w = Ok response w4.
Proof.
  intros He Hcall Hauth Hrt Hrefresh Hretry.
  unfold makeRequest in *. rewrite (makeRequest_fuel_first up method url body config 0 w).
  rewrite He, Hcall, Hauth, Hrt. cbn [andb]. rewrite Hrefresh.
  rewrite makeRequest_fuel_retry in Hretry.
  rewrite makeRequest_fuel_retry, Hretry. reflexivity.
Qed.

(** X9: when the call fails with an authentication failure and the
    refresh fails, no retry is sent: the caller gets the translation of the
    call's failure under the context of a failed refresh, the session is
    the one the call left, and the only request after the call is the
    refresh. *)
Theorem makeRequest_refresh_failure (w w1 w2 : World) (first : AxiosError)
    (elapsed : Z) (answer : AxiosError + option QuickBooksTokenResponse) :
  ensureValidToken up w = Ok tt w1 ->
  the_call up method url body config w1 = (inl first, w2) ->
  isAuthError first = true ->
  present (refreshToken (session w2)) ->
  tokenEndpoint up (sent w2 ++ [refresh_request (refreshToken (session w2))])%list
    = (elapsed, answer) ->
  (forall td, answer <> inr (Some td)) ->
  makeRequest up method url body config false w
  = Throw (QuickBooksHelper.handleApiError first after_failed_refresh)
      (after_exchange w2 (refresh_request (refreshToken (session w2))) elapsed).
Proof.
  intros He Hcall Hauth Hrt Htoken Hbad.
  unfold makeRequest. rewrite (makeRequest_fuel_first up method url body config 0 w).
  rewrite He, Hcall, Hauth, Hrt. cbn [andb].
  rewrite (refreshAccessToken_rejected up _ w2 elapsed answer Htoken Hbad).
  reflexivity.
Qed.

(** X10: one call of [makeRequest] sends at most two resource calls (the
    call and one retry), a retry sends at most one, and all of them use
    the method asked for; anything else it sends goes to the token
    endpoint. *)
Theorem makeRequest_at_most_one_retry (isRetry : bool) (w w' : World) :
  result_world (makeRequest up method url body config isRetry w) = Some w' ->
  exists new,
    sent w' = (sent w ++ new)%list
    /\ Forall (only_method method) new
    /\ (api_calls new <= if isRetry then 1 else 2)%nat.
Proof. apply makeRequest_emits. Qed.

End MakeRequestOutcomes.

(** ** Refreshing before the call *)

Section RefreshOutcomes.

Variable up : Upstream.

(** X11: when the vendor's answer to a refresh carries a new refresh token
    (rotation), the new token replaces the stored one and is the one handed
    back; the token that was supplied is gone. *)
Theorem refreshAccessToken_rotates_token (rt : JsStr) (w : World)
    (elapsed : Z) (td : QuickBooksTokenResponse) :
  tokenEndpoint up (sent w ++ [refresh_request rt])%list = (elapsed, inr (Some td)) ->
  present (refresh_token td) ->
  exists result w',
    refreshAccessToken up rt w = Ok result w'
    /\ refresh_token result = refresh_token td
    /\ refreshToken (session w') = refresh_token td
    /\ accessToken (session w') = access_token td
    /\ sent w' = (sent w ++ [refresh_request rt])%list.
Proof.
  intros H Hnew. eexists _, _.
  split; [apply (refreshAccessToken_ok up rt w elapsed td H)|].
  unfold present in Hnew.
  unfold refreshed_result, refreshed_session, setAccessToken.
  cbn [refresh_token refreshToken accessToken session sent after_exchange].
  assert (Hor : js_or (refresh_token td) rt = refresh_token td)
    by (unfold js_or; rewrite Hnew; reflexivity).
  rewrite Hor, Hnew. repeat split.
Qed.

(** Whatever goes wrong with a refresh, [refreshAccessToken] throws the
    same exception with status 400, after exactly one token request, and
    leaves the session as it was. *)
Lemma refreshAccessToken_failure (rt : JsStr) (w : World) (elapsed : Z)
    (answer : AxiosError + option QuickBooksTokenResponse) :
  tokenEndpoint up (sent w ++ [refresh_request rt])%list = (elapsed, answer) ->
  (forall td, answer <> inr (Some td)) ->
  exists w',
    refreshAccessToken up rt w = Throw refresh_failed w'
    /\ exn_status refresh_failed = Some 400
    /\ session w' = session w
    /\ sent w' = (sent w ++ [refresh_request rt])%list.
Proof.
  intros H Hbad. eexists. split.
  - apply (refreshAccessToken_rejected up rt w elapsed answer H Hbad).
  - repeat split.
Qed.

(** Storing the token result on top of the session that
    [refreshAccessToken] left, at the same clock reading, changes
    nothing. *)
Lemma store_again (rt : JsStr) (td : QuickBooksTokenResponse) (now : Z)
    (s : Session) :
  let s1 := refreshed_session rt td now s in
  let result := refreshed_result rt td s1 in
  setAccessToken now (access_token result) (tr_realmId result)
    (refresh_token result) (expires_in result) s1 = s1.
Proof.
  cbv zeta. unfold refreshed_result, refreshed_session, setAccessToken.
  cbn [access_token tr_realmId refresh_token expires_in
       accessToken realmId refreshToken tokenExpiresAt].
  f_equal.
  - destruct (truthy (js_or (refresh_token td) rt)); reflexivity.
  - unfold js_or. destruct (truthy (tr_realmId td)) eqn:E1; [rewrite ?E1; reflexivity|].
    destruct (truthy (realmId s)) eqn:E2; rewrite ?E1, ?E2; cbn [truthy];
      rewrite ?E2; reflexivity.
  - destruct (truthyZ (expires_in td)), (expires_in td); reflexivity.
Qed.



(** In the embedding no time passes between the store of
    [refreshAccessToken] and the store of [ensureValidToken], so when
    [ensureValidToken] refreshes, the world it leaves is the world
    [refreshAccessToken] left. *)
Lemma ensureValidToken_refresh_world (w w1 : World)
    (tr : QuickBooksTokenResponse) :
  present (refreshToken (session w)) ->
  isTokenExpired (clock w) (session w) = true ->
  refreshAccessToken up (refreshToken (session w)) w = Ok tr w1 ->
  ensureValidToken up w = Ok tt w1.
Proof.
  intros Hrt Hexp Hrefresh.
  destruct (tokenEndpoint up
              (sent w ++ [refresh_request (refreshToken (session w))])%list)
    as [elapsed answer] eqn:H.
  destruct answer as [ax | [td|]].
  - rewrite (refreshAccessToken_rejected up _ w elapsed _ H) in Hrefresh
      by discriminate.
    discriminate.
  - rewrite (ensureValidToken_refreshes up w elapsed td Hrt Hexp H).
    rewrite (refreshAccessToken_ok up _ w elapsed td H) in Hrefresh.
    injection Hrefresh as _ <-. cbv zeta.
    rewrite (store_again (refreshToken (session w)) td
               (clock (after_exchange w (refresh_request (refreshToken (session w)))
                         elapsed))
               (session w)).
    reflexivity.
  - rewrite (refreshAccessToken_rejected up _ w elapsed _ H) in Hrefresh
      by discriminate.
    discriminate.
Qed.


(** X13: [ensureValidToken] sends nothing at all, or exactly one refresh
    request carrying the stored refresh token, and the latter only when a
    refresh token is on file and the token is reported expired. *)
Theorem ensureValidToken_requests (w w' : World) :
  result_world (ensureValidToken up w) = Some w' ->
  (sent w' = sent w /\ session w' = session w)
  \/ (present (refreshToken (session w))
      /\ isTokenExpired (clock w) (session w) = true
      /\ sent w' = (sent w ++ [refresh_request (refreshToken (session w))])%list).
Proof.
  intros Hw.
  destruct (truthy (refreshToken (session w))) eqn:Hrt.
  - destruct (isTokenExpired (clock w) (session w)) eqn:Hexp.
    + right. split; [exact Hrt|]. split; [reflexivity|].
      destruct (tokenEndpoint up
                  (sent w ++ [refresh_request (refreshToken (session w))])%list)
        as [elapsed answer] eqn:H.
      destruct answer as [ax | [td|]].
      * rewrite (ensureValidToken_refresh_fails up w elapsed _ Hrt Hexp H) in Hw
          by discriminate.
        injection Hw as <-. reflexivity.
      * rewrite (ensureValidToken_refreshes up w elapsed td Hrt Hexp H) in Hw.
        injection Hw as <-. reflexivity.
      * rewrite (ensureValidToken_refresh_fails up w elapsed _ Hrt Hexp H) in Hw
          by discriminate.
        injection Hw as <-. reflexivity.
    + left. rewrite (ensureValidToken_fresh up w Hexp) in Hw.
      injection Hw as <-. split; reflexivity.
  - left. rewrite (ensureValidToken_no_refresh_token up w Hrt) in Hw.
    injection Hw as <-. split; reflexivity.
Qed.

(** X14: when the token is reported expired, a refresh token is on file and
    the vendor grants a non-empty access token with a lifetime of more than
    300 seconds, [ensureValidToken] leaves a session that holds the new
    access token and is no longer reported expired. *)
Theorem ensureValidToken_makes_fresh (w : World) (elapsed lifetime : Z)
    (td : QuickBooksTokenResponse) :
  present (refreshToken (session w)) ->
  isTokenExpired (clock w) (session w) = true ->
  tokenEndpoint up (sent w ++ [refresh_request (refreshToken (session w))])%list
    = (elapsed, inr (Some td)) ->
  present (access_token td) ->
  expires_in td = Some lifetime ->
  300 < lifetime ->
  exists w',
    ensureValidToken up w = Ok tt w'
    /\ accessToken (session w') = access_token td
    /\ isTokenExpired (clock w') (session w') = false.
Proof.
  intros Hrt Hexp H Hat Hlife Hlong. eexists. split.
  - eapply ensureValidToken_refresh_world; [exact Hrt | exact Hexp |].
    apply (refreshAccessToken_ok up _ w elapsed td H).
  - cbn [session clock after_exchange]. unfold refreshed_session.
    split; [reflexivity|]. rewrite Hlife.
    rewrite lifetime_verdict by (assumption || lia).
    apply bool_decide_eq_false. lia.
Qed.

(** X15: with a stale token and a refresh token on file, a call that the
    vendor accepts goes out after exactly one refresh and carries the
    access token the refresh returned, not the stale one. *)
Theorem makeRequest_refreshes_first (method : Method) (url : string)
    (body : RequestData) (config : Config) (w : World) (elapsed elapsed' : Z)
    (td : QuickBooksTokenResponse) (response : HttpResponse) :
  present (refreshToken (session w)) ->
  isTokenExpired (clock w) (session w) = true ->
  tokenEndpoint up (sent w ++ [refresh_request (refreshToken (session w))])%list
    = (elapsed, inr (Some td)) ->
  present (access_token td) ->
  let call :=
    ApiRequest method url (Some ("Bearer " +:+ template (access_token td))) config
      (match method with get => NoData | post => body end) in
  api up (sent w ++ [refresh_request (refreshToken (session w)); call])%list
    = (elapsed', inr response) ->
  exists w',
    makeRequest up method url body config false w = Ok response w'
    /\ sent w'
       = (sent w ++ [refresh_request (refreshToken (session w)); call])%list
    /\ accessToken (session w') = access_token td.
Proof.
  intros Hrt Hexp H Hat call Hapi.
  pose proof (ensureValidToken_refresh_world w _ _ Hrt Hexp
                (refreshAccessToken_ok up _ w elapsed td H)) as He.
  cbv zeta in He.
  unfold makeRequest.
  rewrite (makeRequest_fuel_first up method url body config 0 w), He, the_call_eq.
  cbv zeta. unfold request_of.
  cbn [session sent after_exchange accessToken refreshed_session setAccessToken].
  unfold present in Hat. rewrite Hat.
  rewrite <- app_assoc. cbn [app]. fold call. rewrite Hapi. cbn [fst snd].
  eexists. split; [reflexivity|].
  cbn [session sent after_exchange accessToken]. rewrite <- app_assoc.
  split; reflexivity.
Qed.

End RefreshOutcomes.

(** ** What the resource operations do to the session *)

(** From one world to a later one: a refresh token that was on file is
    still on file, and without a refresh token on file the session has not
    changed at all. *)
Definition session_step (w w' : World) : Prop :=
  (present (refreshToken (session w)) -> present (refreshToken (session w')))
  /\ (absent (refreshToken (session w)) -> session w' = session w).

Lemma session_step_refl (w : World) : session_step w w.
Proof. split; auto. Qed.

Lemma session_step_trans (w1 w2 w3 : World) :
  session_step w1 w2 -> session_step w2 w3 -> session_step w1 w3.
Proof.
  intros [Hp1 Ha1] [Hp2 Ha2]. split.
  - auto.
  - intros Habs. pose proof (Ha1 Habs) as H12.
    rewrite <- H12. apply Ha2. rewrite H12. exact Habs.
Qed.

Lemma session_step_same (w w' : World) : session w' = session w -> session_step w w'.
Proof. intros H. unfold session_step. rewrite H. auto. Qed.

(** [keeps m]: every run of [m] is a [session_step]. *)
Definition keeps {A : Type} (m : M A) : Prop :=
  forall w w', result_world (m w) = Some w' -> session_step w w'.

Lemma keeps_ret {A : Type} (a : A) : keeps (ret a).
Proof. intros w w' [= <-]. apply session_step_refl. Qed.

Lemma keeps_throw {A : Type} (e : Exn) : keeps (@throw A e).
Proof. intros w w' [= <-]. apply session_step_refl. Qed.

Lemma keeps_this_session : keeps this_session.
Proof. intros w w' [= <-]. apply session_step_refl. Qed.

Lemma keeps_company_url (suffix : string) : keeps (company_url suffix).
Proof. intros w w' [= <-]. apply session_step_refl. Qed.

Lemma keeps_today : keeps today.
Proof. intros w w' [= <-]. apply session_step_refl. Qed.

Lemma keeps_bind {A B : Type} (m : M A) (f : A -> M B) :
  keeps m -> (forall a, keeps (f a)) -> keeps (bind m f).
Proof.
  intros Hm Hf w w' Hw. unfold bind in Hw.
  destruct (m w) as [a w1 | e w1 |] eqn:E; [| |discriminate].
  - apply (session_step_trans w w1 w').
    + apply Hm. rewrite E. reflexivity.
    + exact (Hf a w1 w' Hw).
  - injection Hw as <-. apply Hm. rewrite E. reflexivity.
Qed.

Lemma keeps_try_catch {A : Type} (m : M A) (handler : Exn -> M A) :
  keeps m -> (forall e, keeps (handler e)) -> keeps (try_catch m handler).
Proof.
  intros Hm Hh w w' Hw. unfold try_catch in Hw.
  destruct (m w) as [a w1 | e w1 |] eqn:E; [| |discriminate].
  - injection Hw as <-. apply Hm. rewrite E. reflexivity.
  - apply (session_step_trans w w1 w').
    + apply Hm. rewrite E. reflexivity.
    + exact (Hh e w1 w' Hw).
Qed.

Create HintDb keeps.
#[export] Hint Resolve keeps_this_session keeps_company_url keeps_today : keeps.

(** Taking a method apart along its binds, handlers and case analyses. *)
Ltac keeps_auto :=
  repeat (cbv zeta;
          first [ apply keeps_ret
                | apply keeps_throw
                | solve [auto 1 with keeps]
                | apply keeps_bind; [|intros ?]
                | apply keeps_try_catch; [|intros ?]
                | match goal with
                  | |- keeps (match ?x with _ => _ end) => destruct x
                  end ]).

Section SessionSteps.

Variable up : Upstream.

Lemma refreshAccessToken_step (w w' : World) :
  present (refreshToken (session w)) ->
  result_world (refreshAccessToken up (refreshToken (session w)) w) = Some w' ->
  session_step w w'.
Proof.
  intros Hrt Hw.
  destruct (tokenEndpoint up
              (sent w ++ [refresh_request (refreshToken (session w))])%list)
    as [elapsed answer] eqn:H.
  assert (Hbad : (forall td, answer <> inr (Some td)) -> session_step w w').
  { intros Hbad.
    rewrite (refreshAccessToken_rejected up _ w elapsed answer H Hbad) in Hw.
    injection Hw as <-. apply session_step_same. reflexivity. }
  destruct answer as [ax | [td|]]; [apply Hbad; discriminate | | apply Hbad; discriminate].
  rewrite (refreshAccessToken_ok up _ w elapsed td H) in Hw. injection Hw as <-.
  unfold present, absent in *. split.
  - intros _. unfold present, refreshed_session, setAccessToken.
    cbn [session refreshToken].
    destruct (truthy (js_or (refresh_token td) (refreshToken (session w)))) eqn:E;
      assumption.
  - intros Habs. rewrite Habs in Hrt. discriminate.
Qed.

Lemma keeps_ensureValidToken : keeps (ensureValidToken up).
Proof.
  intros w w' Hw.
  destruct (truthy (refreshToken (session w))) eqn:Hrt.
  - destruct (isTokenExpired (clock w) (session w)) eqn:Hexp.
    + destruct (refreshAccessToken up (refreshToken (session w)) w)
        as [tr w1 | e w1 |] eqn:Hrefresh.
      * rewrite (ensureValidToken_refresh_world up w w1 tr Hrt Hexp Hrefresh) in Hw.
        injection Hw as <-.
        apply (refreshAccessToken_step w w1 Hrt). rewrite Hrefresh. reflexivity.
      * assert (Hw1 : w' = w1).
        { revert Hw. unfold ensureValidToken. run. rewrite Hrt, Hexp, Hrefresh.
          destruct (_ || _); intros [= <-]; reflexivity. }
        subst w'.
        apply (refreshAccessToken_step w w1 Hrt). rewrite Hrefresh. reflexivity.
      * exfalso. exact (refreshAccessToken_returns up _ w Hrefresh).
    + rewrite (ensureValidToken_fresh up w Hexp) in Hw. injection Hw as <-.
      apply session_step_refl.
  - rewrite (ensureValidToken_no_refresh_token up w Hrt) in Hw. injection Hw as <-.
    apply session_step_refl.
Qed.

Lemma the_call_step (method : Method) (url : string) (body : RequestData)
    (config : Config) (w : World) :
  session (the_call up method url body config w).2 = session w.
Proof. rewrite the_call_eq. reflexivity. Qed.

Lemma keeps_makeRequest (method : Method) (url : string) (body : RequestData)
    (config : Config) (isRetry : bool) :
  keeps (makeRequest up method url body config isRetry).
Proof.
  assert (Hretry : forall w w',
             result_world (makeRequest_fuel up 1 method url body config true w)
             = Some w' -> session_step w w').
  { intros w w'. rewrite makeRequest_fuel_retry.
    pose proof (keeps_ensureValidToken w) as He.
    destruct (ensureValidToken up w) as [[] w1 | e w1 |]; [| |discriminate].
    - specialize (He w1 eq_refl).
      pose proof (the_call_step method url body config w1) as Hc.
      destruct (the_call up method url body config w1) as [[error | response] w2];
        cbn [snd] in Hc; intros [= <-];
        exact (session_step_trans w w1 w2 He (session_step_same w1 w2 Hc)).
    - intros [= <-]. exact (He w1 eq_refl). }
  intros w w'. unfold makeRequest. destruct isRetry.
  { rewrite makeRequest_fuel_retry,
      <- (makeRequest_fuel_retry up method url body config 0).
    apply Hretry. }
  rewrite (makeRequest_fuel_first up method url body config 0 w).
  pose proof (keeps_ensureValidToken w) as He.
  destruct (ensureValidToken up w) as [[] w1 | e w1 |]; [| |discriminate].
  - specialize (He w1 eq_refl).
    pose proof (the_call_step method url body config w1) as Hc.
    destruct (the_call up method url body config w1) as [[error | response] w2];
      cbn [snd] in Hc.
    + pose proof (session_step_trans w w1 w2 He (session_step_same w1 w2 Hc)) as H2.
      destruct (isAuthError error); cbn [andb]; [|intros [= <-]; exact H2].
      destruct (truthy (refreshToken (session w2))) eqn:Hrt; [|intros [= <-]; exact H2].
      pose proof (refreshAccessToken_step w2) as Hr.
      destruct (refreshAccessToken up (refreshToken (session w2)) w2)
        as [tr w3 | e3 w3 |]; [| |discriminate].
      * specialize (Hr w3 Hrt eq_refl). specialize (Hretry w3).
        pose proof (session_step_trans w w2 w3 H2 Hr) as H3.
        destruct (makeRequest_fuel up 1 method url body config true w3)
          as [r w4 | e4 w4 |]; [| |discriminate];
          intros [= <-]; exact (session_step_trans w w3 w4 H3 (Hretry w4 eq_refl)).
      * intros [= <-]. exact (session_step_trans w w2 w3 H2 (Hr w3 Hrt eq_refl)).
    + intros [= <-].
      exact (session_step_trans w w1 w2 He (session_step_same w1 w2 Hc)).
  - intros [= <-]. exact (He w1 eq_refl).
Qed.

#[local] Hint Resolve keeps_ensureValidToken keeps_makeRequest : keeps.

Lemma keeps_executeQuery (entity : string) (maxResults' startPosition' : Z)
    (where_ : JsStr) :
  keeps (executeQuery up entity maxResults' startPosition' where_).
Proof. unfold executeQuery. keeps_auto. Qed.

#[local] Hint Resolve keeps_executeQuery : keeps.

Lemma keeps_getById (entity id : string) : keeps (getById up entity id).
Proof. unfold getById. keeps_auto. Qed.

Lemma keeps_findItemByName (itemName : string) : keeps (findItemByName up itemName).
Proof. unfold findItemByName. keeps_auto. Qed.

Lemma keeps_findOrCreateAccount (accountName accountType : string)
    (accountSubType : JsStr) :
  keeps (findOrCreateAccount up accountName accountType accountSubType).
Proof. unfold findOrCreateAccount. keeps_auto. Qed.

#[local] Hint Resolve keeps_findItemByName keeps_findOrCreateAccount : keeps.

Lemma keeps_resolveAccountRef (accountRef : AccountRef)
    (accountType accountSubType : JsStr) :
  keeps (resolveAccountRef up accountRef accountType accountSubType).
Proof. unfold resolveAccountRef. keeps_auto. Qed.

#[local] Hint Resolve keeps_resolveAccountRef : keeps.

Lemma keeps_formatItemRequestBody (itemData : QuickBooksItem) :
  keeps (formatItemRequestBody up itemData).
Proof. unfold formatItemRequestBody. keeps_auto. Qed.

#[local] Hint Resolve keeps_formatItemRequestBody : keeps.

Lemma keeps_createItem (itemData : QuickBooksItem) : keeps (createItem up itemData).
Proof. unfold createItem. keeps_auto. Qed.

(** X16: no resource operation ever removes a refresh token that is on
    file, and without a refresh token on file none of them changes the
    session at all.  This holds for every run, failed or not, of
    [makeRequest], [executeQuery], the lookups by id and by name,
    [findOrCreateAccount] and [createItem]. *)
Theorem resource_operations_keep_refresh_token :
  (forall method url body config isRetry,
      keeps (makeRequest up method url body config isRetry))
  /\ (forall entity maxResults' startPosition' where_,
        keeps (executeQuery up entity maxResults' startPosition' where_))
  /\ (forall id, keeps (getCustomerById up id))
  /\ (forall id, keeps (getInvoiceById up id))
  /\ (forall id, keeps (getItemById up id))
  /\ (forall name, keeps (findItemByName up name))
  /\ (forall name type subtype, keeps (findOrCreateAccount up name type subtype))
  /\ (forall itemData, keeps (createItem up itemData)).
Proof.
  split; [intros; apply keeps_makeRequest|].
  split; [intros; apply keeps_executeQuery|].
  split; [intros; apply (keeps_getById "Customer")|].
  split; [intros; apply (keeps_getById "Invoice")|].
  split; [intros; apply (keeps_getById "Item")|].
  split; [intros; apply keeps_findItemByName|].
  split; [intros; apply keeps_findOrCreateAccount|].
  intros; apply keeps_createItem.
Qed.

End SessionSteps.

(** ** Accounts and items *)

Definition realm_not_set : Exn :=
  ExHttp (BodyText "Realm ID not set. Please authenticate first.") BAD_REQUEST.

Definition account_failure (accountName : string) : Exn :=
  ExHttp (BodyAccount ("Failed to find or create account: " +:+ accountName)
            JsUndefined None)
         BAD_REQUEST.

(** An exception that did not come from axios directly: it has no
    [response.data] and no [response.status] to look into. *)
Definition not_from_axios (e : Exn) : Prop :=
  match e with
  | ExAxios _ => False
  | _ => True
  end.

Lemma translated_not_from_axios (e : Exn) : translated e -> not_from_axios e.
Proof. intros [-> | (error & context & ->)]; exact I. Qed.

Section AccountsAndItems.

Variable up : Upstream.

Lemma raises_ensureValidToken :
  raises (fun e => e = reauthentication_required) (ensureValidToken up).
Proof. intros w e w' H. exact (ensureValidToken_throws up w w' e H). Qed.

Lemma raises_makeRequest (method : Method) (url : string) (body : RequestData)
    (config : Config) (isRetry : bool) :
  raises not_from_axios (makeRequest up method url body config isRetry).
Proof.
  intros w e w' H. apply translated_not_from_axios.
  exact (makeRequest_translates up method url body config isRetry w w' e H).
Qed.

(** X17: [findOrCreateAccount] reports every failure of its search or
    create step in one shape: status 400, the message naming the account,
    no detail and no original error.  What the vendor said (its status, its
    fault detail) never reaches the caller, because the errors it catches
    have already been translated by [makeRequest]; for the same reason the
    second search for a duplicate name can never start.  The only other
    exceptions are the missing realm and the terminal re-authentication
    error, both raised before the search. *)
Theorem findOrCreateAccount_failures (accountName accountType : string)
    (accountSubType : JsStr) (w w' : World) (e : Exn) :
  findOrCreateAccount up accountName accountType accountSubType w = Throw e w' ->
  e = realm_not_set \/ e = reauthentication_required
  \/ e = account_failure accountName.
Proof.
  revert w e w'.
  change (raises (fun e => e = realm_not_set \/ e = reauthentication_required
                           \/ e = account_failure accountName)
            (findOrCreateAccount up accountName accountType accountSubType)).
  unfold findOrCreateAccount.
  apply raises_bind; [apply raises_this_session|]. intros s.
  destruct (negb (truthy (realmId s))); [apply raises_throw; auto|].
  apply raises_bind.
  { eapply raises_weaken; [|apply raises_ensureValidToken]. cbv beta. auto. }
  intros _. apply (raises_try_catch not_from_axios).
  - apply raises_bind; [apply raises_company_url|]. intros url.
    apply raises_bind; [apply raises_makeRequest|]. intros searchResponse.
    destruct (data searchResponse ≫= data_QueryResponse) as [q|];
      [|apply raises_throw; exact I].
    destruct (default [] (qr_entities q !! "Account")); [|apply raises_ret].
    apply raises_bind; [apply raises_company_url|]. intros url'.
    apply raises_bind; [apply raises_makeRequest|]. intros createResponse.
    destruct (data createResponse) as [created|]; [|apply raises_throw; exact I].
    destruct (data_Account created) as [acc|]; [|apply raises_throw; exact I].
    destruct (truthy (Id acc)); [apply raises_ret | apply raises_throw; exact I].
  - intros e He. destruct e as [ax | b st |]; [contradiction He | |];
      cbn; apply raises_throw; right; right; reflexivity.
Qed.

(** What [createItem] makes of the response to its post. *)
Definition created_of (response : HttpResponse) : M Created :=
  match data response with
  | None => throw ExTypeError
  | Some d =>
      match data_Item d with
      | Some item => ret (CreatedItem item)
      | None => ret (CreatedData d)
      end
  end.

Definition is_service (itemData : QuickBooksItem) : bool :=
  String.eqb (item_Type itemData) "Service"
  || String.eqb (item_Type itemData) "NonInventory".

Definition income_required : Exn :=
  ExHttp (BodyText "IncomeAccountRef is required for Service and NonInventory items")
         BAD_REQUEST.

Definition inventory_refs_required : Exn :=
  ExHttp (BodyText "Income, Expense, and Asset account references are required for Inventory items")
         BAD_REQUEST.

(** The body posted for a service or non-inventory item whose income
    account is given by id. *)
Definition service_body (itemData : QuickBooksItem) (ref : AccountRef) : ItemBody :=
  {| ib_Name := item_Name itemData;
     ib_Type := item_Type itemData;
     ib_UnitPrice := item_UnitPrice itemData;
     ib_Description := spread_if (item_Description itemData);
     ib_Sku := spread_if (item_Sku itemData);
     ib_IncomeAccountRef := Some ref;
     ib_ExpenseAccountRef := None;
     ib_AssetAccountRef := None;
     ib_TrackQtyOnHand := None;
     ib_QtyOnHand := None;
     ib_InvStartDate := None |}.

Lemma service_not_inventory (itemData : QuickBooksItem) :
  is_service itemData = true -> String.eqb (item_Type itemData) "Inventory" = false.
Proof.
  unfold is_service. intros H. apply orb_true_iff in H as [H | H];
    apply String.eqb_eq in H; rewrite H; reflexivity.
Qed.

(** X18: for a service or non-inventory item whose income account is given
    by id, once the lookup by name has found nothing, [createItem] is one
    [makeRequest]: a post to the item endpoint of the session's realm with
    the name, type, price, the non-empty description and SKU, and the
    income account reference, and with no expense or asset account and no
    quantity tracking.  No account is searched or created. *)
Theorem createItem_service_by_id (itemData : QuickBooksItem) (ref : AccountRef)
    (w w1 : World) :
  findItemByName up (item_Name itemData) w = Ok None w1 ->
  is_service itemData = true ->
  item_IncomeAccountRef itemData = Some ref ->
  present (ref_value ref) ->
  createItem up itemData w
  = bind (makeRequest up post
            ("/v3/company/" +:+ template (realmId (session w1)) +:+ "/item")
            (ItemData (service_body itemData ref)) NoConfig false)
         created_of w1.
Proof.
  intros Hlookup Hservice Href Hvalue.
  pose proof (service_not_inventory itemData Hservice) as Hinv.
  unfold is_service in Hservice. unfold present in Hvalue.
  unfold createItem. unfold bind at 1. rewrite Hlookup.
  unfold formatItemRequestBody, resolveAccountRef, company_url, created_of,
    service_body.
  rewrite Hservice, Href, Hinv. run. rewrite !Hvalue. cbn [andb].
  destruct ref as [v n]. reflexivity.
Qed.

(** X19: an item that fails the check of its account references is
    rejected with status 400 right after the lookup by name: nothing is
    posted, and no account is searched or created.  This is the case for a
    service or non-inventory item without an income account, or with one
    that has neither id nor name, and for an inventory item that lacks any
    of its three accounts. *)
Theorem createItem_rejects_missing_accounts (itemData : QuickBooksItem)
    (w w1 : World) :
  findItemByName up (item_Name itemData) w = Ok None w1 ->
  (is_service itemData = true ->
   match item_IncomeAccountRef itemData with
   | Some ref => absent (ref_value ref) /\ absent (ref_name ref)
   | None => True
   end ->
   createItem up itemData w = Throw income_required w1)
  /\ (item_Type itemData = "Inventory" ->
      item_IncomeAccountRef itemData = None
      \/ item_ExpenseAccountRef itemData = None
      \/ item_AssetAccountRef itemData = None ->
      createItem up itemData w = Throw inventory_refs_required w1).
Proof.
  intros Hlookup. split.
  - intros Hservice Href. unfold is_service in Hservice.
    unfold createItem. unfold bind at 1. rewrite Hlookup.
    unfold formatItemRequestBody. rewrite Hservice.
    destruct (item_IncomeAccountRef itemData) as [ref|]; [|reflexivity].
    destruct Href as [Hv Hn]. unfold absent in *. run. rewrite Hv, Hn. reflexivity.
  - intros Htype Hmissing.
    unfold createItem. unfold bind at 1. rewrite Hlookup.
    unfold formatItemRequestBody. rewrite Htype. run.
    destruct (item_IncomeAccountRef itemData), (item_ExpenseAccountRef itemData),
      (item_AssetAccountRef itemData); try reflexivity.
    destruct Hmissing as [H | [H | H]]; discriminate H.
Qed.

End AccountsAndItems.

(** ** More on paginated fetches *)

Section MoreQueries.

Variable up : Upstream.
Variables (entity : string) (maxResults' startPosition' : Z) (where_ : JsStr).

(** The item query of [executeQuery], from world [w]. *)
Definition item_query (w : World) : Result HttpResponse :=
  makeRequest up get (query_url w) NoData
    (Params "query"
       (QuickBooksHelper.formatQuery entity maxResults' startPosition' where_))
    false w.

(** The count query of [executeQuery], from world [w]. *)
Definition count_query (w : World) : Result HttpResponse :=
  makeRequest up get (query_url w) NoData
    (Params "query" (QuickBooksHelper.formatCountQuery entity where_))
    false w.

(** X20: [executeQuery] fails in two ways only: the item query fails, and
    its exception is passed on as it is, or the item query's answer has no
    [QueryResponse], which ends in a [TypeError].  In both cases the count
    query is never sent, and nothing that happens during the count query
    can make [executeQuery] fail. *)
Theorem executeQuery_failures (w w' : World) (e : Exn) :
  executeQuery up entity maxResults' startPosition' where_ w = Throw e w' ->
  item_query w = Throw e w'
  \/ exists response,
       item_query w = Ok response w'
       /\ data response ≫= data_QueryResponse = None
       /\ e = ExTypeError.
Proof.
  unfold executeQuery, company_url, item_query, query_url. run.
  destruct (makeRequest up get _ NoData _ false w) as [response w1 | e1 w1 |];
    [| intros [= <- <-]; left; reflexivity | discriminate].
  destruct (data response ≫= data_QueryResponse) as [q|] eqn:Hq.
  - destruct (makeRequest up get _ NoData _ false w1) as [cr w2 | e2 w2 |];
      [| discriminate | discriminate].
    destruct (data cr) as [d|]; [|discriminate].
    destruct (data_QueryResponse d) as [cd|]; [|discriminate].
    destruct (qr_totalCount cd); [discriminate|].
    destruct (qr_entities cd !! entity ≫= head); discriminate.
  - intros [= <- <-]. right. exists response. auto.
Qed.

(** The largest magnitude up to which every integer is a JavaScript
    number, so that [parseInt] returns the integer it read. *)
Definition exact_integer (n : Z) : Prop := Z.abs n <= 2 ^ 53.

(** X21: when both queries succeed, the page holds the rows of the item
    query, and its [totalCount] is the vendor's [totalCount] field if the
    count answer has one.  Otherwise it is the number of rows of the page,
    unless the count answer has a first row whose [Count] parses to an
    integer other than zero, which is then the total; this is stated for a
    [Count] written in ASCII that parses to an integer a JavaScript number
    holds exactly. *)
Theorem executeQuery_totalCount (w w1 w2 : World)
    (response countResponse : HttpResponse) (queryResponse : QueryResponse) :
  item_query w = Ok response w1 ->
  data response ≫= data_QueryResponse = Some queryResponse ->
  count_query w1 = Ok countResponse w2 ->
  let rows := default [] (qr_entities queryResponse !! entity) in
  let countData := data countResponse ≫= data_QueryResponse in
  exists result,
    executeQuery up entity maxResults' startPosition' where_ w = Ok result w2
    /\ items result = rows
    /\ match countData ≫= qr_totalCount with
       | Some n => totalCount result = n
       | None =>
           match (countData ≫= (fun c => qr_entities c !! entity)) ≫= head with
           | Some row =>
               ascii_only (template (Count row)) = true ->
               match parseInt (template (Count row)) with
               | Some n =>
                   exact_integer n ->
                   totalCount result
                   = (if n =? 0 then Z.of_nat (length rows) else n)
               | None => totalCount result = Z.of_nat (length rows)
               end
           | None => totalCount result = Z.of_nat (length rows)
           end
       end.
Proof.
  intros Hitems Hq Hcount. cbv zeta.
  unfold executeQuery, company_url. run.
  unfold item_query, count_query, query_url in *. rewrite Hitems, Hq, Hcount.
  destruct (data countResponse) as [d|]; cbn [mbind option_bind];
    [|eexists; split; [reflexivity|]; split; reflexivity].
  destruct (data_QueryResponse d) as [cd|]; cbn [mbind option_bind];
    [|eexists; split; [reflexivity|]; split; reflexivity].
  destruct (qr_totalCount cd) as [n|];
    [eexists; split; [reflexivity|]; split; reflexivity|].
  destruct (qr_entities cd !! entity ≫= head) as [row|] eqn:Hrow;
    [|eexists; split; [reflexivity|]; split; reflexivity].
  eexists; split; [reflexivity|]; split; [reflexivity|].
  intros _. cbn [totalCount]. unfold js_orZ.
  destruct (parseInt (template (Count row))) as [n|]; [|reflexivity].
  intros _. cbn [truthyZ]. destruct (n =? 0); reflexivity.
Qed.

(** The first request a method sends from [w] when it leaves world [w']. *)
Definition first_sent (w w' : World) (request : Event) : Prop :=
  exists rest, sent w' = (sent w ++ request :: rest)%list.

Lemma makeRequest_first_sent (method : Method) (url : string)
    (body : RequestData) (config : Config) (w : World) :
  absent (refreshToken (session w)) ->
  exists w',
    result_world (makeRequest up method url body config false w) = Some w'
    /\ sent w' = (sent w ++ [request_of method url body config w])%list.
Proof.
  intros Hrt. unfold makeRequest.
  rewrite (makeRequest_fuel_first up method url body config 0 w).
  rewrite (ensureValidToken_no_refresh_token up w Hrt), the_call_eq. cbv zeta.
  destruct (api up _) as [elapsed [error | response]]; cbn [fst snd].
  - cbn [session after_exchange]. unfold absent in Hrt. rewrite Hrt, andb_false_r.
    eexists. split; reflexivity.
  - eexists. split; reflexivity.
Qed.

Lemma bind_company_url {A : Type} (suffix : string) (f : string -> M A)
    (w : World) :
  bind (company_url suffix) f w
  = f ("/v3/company/" +:+ template (realmId (session w)) +:+ suffix) w.
Proof. reflexivity. Qed.

Lemma bind_first_sent {A B : Type} (P : Event -> Prop) (n : nat) (m : M A)
    (f : A -> M B) (w w' : World) (request : Event) :
  (exists w1, result_world (m w) = Some w1
              /\ sent w1 = (sent w ++ [request])%list) ->
  (forall a, emits P n (f a)) ->
  result_world (bind m f w) = Some w' ->
  first_sent w w' request.
Proof.
  intros (w1 & Hw1 & Hsent) Hf Hw. unfold bind in Hw.
  destruct (m w) as [a v | e v |]; [| |discriminate Hw1].
  - injection Hw1 as ->.
    destruct (Hf a w1 w' Hw) as (new & Hs & _ & _).
    exists new. rewrite Hs, Hsent, <- app_assoc. reflexivity.
  - injection Hw1 as ->. injection Hw as <-. exists []. exact Hsent.
Qed.

(** X22: [executeQuery] does not check that a realm is set.  With no
    refresh token on file, the first thing it does is send the item query
    to the query endpoint built from whatever the realm field holds; for a
    session whose realm is [null] that is the path [/v3/company/null/query].
    (The companion operations [getCompanyInfo] and [findOrCreateAccount]
    refuse to run without a realm.) *)
Theorem executeQuery_sends_without_realm (w w' : World) :
  absent (refreshToken (session w)) ->
  result_world (executeQuery up entity maxResults' startPosition' where_ w) = Some w' ->
  first_sent w w'
    (request_of get (query_url w) NoData
       (Params "query"
          (QuickBooksHelper.formatQuery entity maxResults' startPosition' where_))
       w)
  /\ (realmId (session w) = JsNull -> query_url w = "/v3/company/null/query").
Proof.
  intros Hrt Hw. split; [|intros Hnull; unfold query_url; rewrite Hnull; reflexivity].
  unfold executeQuery in Hw. rewrite bind_company_url in Hw.
  refine (bind_first_sent not_a_post 2 _ _ w w' _ _ _ Hw).
  - apply (makeRequest_first_sent get (query_url w) NoData _ w Hrt).
  - intros response. unfold not_a_post.
    destruct (data response ≫= data_QueryResponse) as [q|].
    + apply (emits_weaken _ ((2 + 0) + 0)%nat); [lia|].
      apply emits_bind; [|intros count; apply emits_ret].
      apply emits_try_catch; [|intros e; apply emits_ret].
      apply (emits_weaken _ (0 + (2 + 0))%nat); [lia|].
      apply emits_bind; [apply company_url_emits|]. intros url'.
      apply emits_bind; [apply (makeRequest_emits up get _ _ _ false)|].
      intros countResponse.
      destruct (data countResponse) as [d|]; [|apply emits_throw].
      destruct (data_QueryResponse d) as [countData|]; [|apply emits_ret].
      destruct (qr_totalCount countData); [apply emits_ret|].
      destruct (qr_entities countData !! entity ≫= head); apply emits_ret.
    + apply (emits_weaken _ 0%nat); [lia|]. apply emits_throw.
Qed.

End MoreQueries.

(** ** Status, code exchange and the controller's token routes *)

(** What [getTokenStatus()] returns. *)
Record TokenStatus : Type := mkTokenStatus {
  isAuthenticated : bool;
  status_realmId : JsStr;
  status_tokenExpiresAt : option Date;
  hasRefreshToken : bool
}.

(** [getTokenStatus()]. *)
Definition getTokenStatus (s : Session) : TokenStatus :=
  {| isAuthenticated := truthy (accessToken s) && truthy (realmId s);
     status_realmId := realmId s;
     status_tokenExpiresAt := tokenExpiresAt s;
     hasRefreshToken := truthy (refreshToken s) |}.

Definition exchange_request (code : string) : Event :=
  TokenRequest "authorization_code" code.

Definition exchange_failed : Exn :=
  ExHttp (BodyText "Failed to exchange authorization code for token") BAD_REQUEST.

Section TokenRoutes.

Variable up : Upstream.

(** [exchangeCodeForToken(code)].  As for a refresh, the parts of the
    request that come from the configuration (the redirect URI, the basic
    credentials) are not recorded in the request sent. *)
Definition exchangeCodeForToken (code : string) : M QuickBooksTokenResponse :=
  try_catch
    (response_data ← await (axios_post_token up "authorization_code" code);
     match response_data with
     | None => throw ExTypeError   (* tokenData.access_token of undefined *)
     | Some tokenData =>
         this_setAccessToken
           (access_token tokenData)
           (tr_realmId tokenData)
           (refresh_token tokenData)
           (expires_in tokenData);;
         ret {| access_token := access_token tokenData;
                refresh_token := refresh_token tokenData;
                expires_in := expires_in tokenData;
                token_type := token_type tokenData;
                tr_realmId := tr_realmId tokenData |}
     end)
    (fun error => throw exchange_failed).

(** [getCompanyInfo()]: the first [CompanyInfo] row of the answer, or the
    answer's body. *)
Definition getCompanyInfo : M (Row + ResponseData) :=
  s ← this_session;
  if negb (truthy (realmId s)) then throw realm_not_set
  else
    response ←
      makeRequest up get
        ("/v3/company/" +:+ template (realmId s) +:+ "/companyinfo/"
           +:+ template (realmId s))
        NoData NoConfig false;
    match data response with
    | None => throw ExTypeError   (* response.data.QueryResponse of undefined *)
    | Some d =>
        match (data_QueryResponse d ≫= (fun q => qr_entities q !! "CompanyInfo"))
                ≫= head with
        | Some info => ret (inl info)
        | None => ret (inr d)
        end
    end.

(** [getIncomeAccounts()]: the accounts and the fixed hint. *)
Definition getIncomeAccounts : M (list Row * string) :=
  result ← executeQuery up "Account" 100 1 (JsString "AccountType = 'Income'");
  ret (items result,
       "Use the Id field from these accounts as IncomeAccountRef.value when creating items").

(** The controller's [exchangeCode] route: the body's [realmId], when
    given, overrides the vendor's. *)
Definition controller_exchangeCode (code : string) (dto_realmId : JsStr)
    : M (QuickBooksTokenResponse * string) :=
  tokenResponse ← exchangeCodeForToken code;
  let realmId' := js_or dto_realmId (tr_realmId tokenResponse) in
  this_setAccessToken
    (access_token tokenResponse)
    realmId'
    (refresh_token tokenResponse)
    (expires_in tokenResponse);;
  ret ({| access_token := access_token tokenResponse;
          refresh_token := refresh_token tokenResponse;
          expires_in := expires_in tokenResponse;
          token_type := token_type tokenResponse;
          tr_realmId := realmId' |},
       "Tokens exchanged successfully. Store these tokens securely in your database.").

(** The controller's [setTokens] route. *)
Definition controller_setTokens (access_token' realmId' refresh_token' : JsStr)
    : M (string * TokenStatus) :=
  this_setAccessToken access_token' realmId' refresh_token' None;;
  s ← this_session;
  ret ("Tokens set successfully. You can now make API calls.", getTokenStatus s).

(** The controller's [getTokenStatus] route: the status and [isExpired]. *)
Definition controller_getTokenStatus : M (TokenStatus * bool) :=
  s ← this_session;
  expired ← this_isTokenExpired;
  ret (getTokenStatus s, expired).

(** X23: after the [exchangeCode] route succeeds, the status shows the
    realm the caller gave, or the vendor's when the caller gave none; the
    session counts as authenticated exactly when the vendor's access token
    and that realm are non-empty; a refresh token in the vendor's answer is
    on file; and the token result handed back carries the same realm. *)
Theorem exchangeCode_then_status (code : string) (dto_realmId : JsStr)
    (w : World) (elapsed : Z) (td : QuickBooksTokenResponse) :
  tokenEndpoint up (sent w ++ [exchange_request code])%list = (elapsed, inr (Some td)) ->
  exists result message w',
    controller_exchangeCode code dto_realmId w = Ok (result, message) w'
    /\ tr_realmId result = js_or dto_realmId (tr_realmId td)
    /\ status_realmId (getTokenStatus (session w')) = js_or dto_realmId (tr_realmId td)
    /\ isAuthenticated (getTokenStatus (session w'))
       = truthy (access_token td) && truthy (js_or dto_realmId (tr_realmId td))
    /\ hasRefreshToken (getTokenStatus (session w'))
       = truthy (refresh_token td) || truthy (refreshToken (session w))
    /\ sent w' = (sent w ++ [exchange_request code])%list.
Proof.
  intros H. unfold controller_exchangeCode, exchangeCodeForToken.
  unfold try_catch, bind, await, axios_post_token, this_setAccessToken, ret.
  unfold exchange_request in H. rewrite H. cbn -[truthy js_or].
  eexists _, _, _. split; [reflexivity|].
  cbn -[truthy js_or]. repeat split.
  destruct (truthy (refresh_token td)) eqn:E; cbn -[truthy]; rewrite ?E; reflexivity.
Qed.

(** X24: whatever goes wrong with a code exchange, the service and the
    route throw the same exception with status 400, after one token
    request, and the session is left as it was: a failed exchange never
    logs the current session out. *)
Theorem exchangeCode_failure (code : string) (dto_realmId : JsStr)
    (w : World) (elapsed : Z)
    (answer : AxiosError + option QuickBooksTokenResponse) :
  tokenEndpoint up (sent w ++ [exchange_request code])%list = (elapsed, answer) ->
  (forall td, answer <> inr (Some td)) ->
  let w' := after_exchange w (exchange_request code) elapsed in
  exchangeCodeForToken code w = Throw exchange_failed w'
  /\ controller_exchangeCode code dto_realmId w = Throw exchange_failed w'
  /\ exn_status exchange_failed = Some 400
  /\ session w' = session w.
Proof.
  intros H Hbad. cbv zeta.
  assert (Hservice : exchangeCodeForToken code w
                     = Throw exchange_failed
                         (after_exchange w (exchange_request code) elapsed)).
  { unfold exchangeCodeForToken, try_catch, bind, await, axios_post_token.
    unfold exchange_request in H. rewrite H.
    destruct answer as [e | [td|]]; [reflexivity | | reflexivity].
    exfalso. exact (Hbad td eq_refl). }
  split; [exact Hservice|]. split; [|split; reflexivity].
  unfold controller_exchangeCode. unfold bind at 1. rewrite Hservice. reflexivity.
Qed.

(** [getCompanyInfo] and [findOrCreateAccount] refuse to run without a
    realm, in the world they started from: nothing is sent. *)
Lemma realm_required (w : World) (accountName accountType : string)
    (accountSubType : JsStr) :
  absent (realmId (session w)) ->
  getCompanyInfo w = Throw realm_not_set w
  /\ findOrCreateAccount up accountName accountType accountSubType w
     = Throw realm_not_set w
  /\ exn_status realm_not_set = Some 400.
Proof.
  unfold absent. intros Hrealm. repeat split.
  - unfold getCompanyInfo. run. rewrite Hrealm. reflexivity.
  - unfold findOrCreateAccount. run. rewrite Hrealm. reflexivity.
Qed.

End TokenRoutes.

(** ** The authorization header: guard and interceptor *)

(** [s.split(sep)] for a one-character separator: the pieces between the
    separators, empty pieces included. *)
Fixpoint split (sep : ascii) (s : string) : list string :=
  match s with
  | EmptyString => [EmptyString]
  | String c rest =>
      if Ascii.eqb c sep then EmptyString :: split sep rest
      else match split sep rest with
           | piece :: pieces => String c piece :: pieces
           | [] => [String c EmptyString]
           end
  end.

(** [parts[i]]. *)
Definition part (parts : list string) (i : nat) : JsStr :=
  match parts !! i with
  | Some p => JsString p
  | None => JsUndefined
  end.

Definition space : ascii := " "%char.

(** What the guard and the interceptor read of an incoming request. *)
Record HttpRequest : Type := mkHttpRequest {
  authorization : JsStr;
  query_realmId : JsStr;
  body_realmId : JsStr
}.

(** The guard lets the request through, with the session it leaves, or
    throws an [UnauthorizedException] with a message. *)
Inductive Verdict : Type :=
| Activated (s : Session)
| Unauthorized (message : string).

(** [QuickbooksAuthGuard.canActivate(context)]. *)
Definition canActivate (now : Z) (request : HttpRequest) (s : Session) : Verdict :=
  let authHeader := authorization request in
  if negb (truthy authHeader) then
    Unauthorized "Authorization header is missing"
  else
    let parts := split space (template authHeader) in
    if negb (length parts =? 2)%nat || negb (is_string (part parts 0) "Bearer") then
      Unauthorized "Invalid authorization header format. Use: Bearer <token>"
    else
      let accessToken' := part parts 1 in
      if negb (truthy accessToken') then Unauthorized "Access token is missing"
      else
        let realmId' :=
          js_or (js_or (query_realmId request) (body_realmId request))
                (status_realmId (getTokenStatus s)) in
        if negb (truthy realmId') then
          Unauthorized "Realm ID is required. Provide it in query parameter ?realmId=xxx, or set tokens first using POST /quickbooks/auth/set-tokens"
        else
          Activated (setAccessToken now accessToken' realmId' JsUndefined None s).

(** [AuthTokenInterceptor.intercept(context, next)]: the session when
    [next.handle()] is reached.  [configured] is the realm of the
    configuration. *)
Definition intercept (now : Z) (configured : JsStr) (request : HttpRequest)
    (s : Session) : Session :=
  let authHeader := authorization request in
  if truthy authHeader then
    let parts := split space (template authHeader) in
    if (length parts =? 2)%nat && is_string (part parts 0) "Bearer" then
      let accessToken' := part parts 1 in
      let realmId' :=
        js_or (js_or (js_or (query_realmId request) (body_realmId request))
                     configured)
              (status_realmId (getTokenStatus s)) in
      if truthy accessToken' && truthy realmId'
      then setAccessToken now accessToken' realmId' JsUndefined None s
      else s
    else s
  else s.

Fixpoint has_char (c : ascii) (s : string) : bool :=
  match s with
  | EmptyString => false
  | String c' s' => Ascii.eqb c' c || has_char c s'
  end.

Lemma split_nonempty (sep : ascii) (s : string) : split sep s <> [].
Proof.
  destruct s as [|c s]; cbn; [discriminate|].
  destruct (Ascii.eqb c sep); [discriminate|].
  destruct (split sep s); discriminate.
Qed.

Lemma split_one (sep : ascii) (s a : string) :
  split sep s = [a] <-> s = a /\ has_char sep a = false.
Proof.
  revert a. induction s as [|c s IH]; intros a; cbn [split].
  - split.
    + intros [= <-]. split; reflexivity.
    + intros [<- _]. reflexivity.
  - destruct (Ascii.eqb c sep) eqn:Hc.
    + split.
      * intros [= _ Hnil]. exfalso. exact (split_nonempty sep s Hnil).
      * intros [<- Hno]. cbn in Hno. rewrite Hc in Hno. discriminate.
    + destruct (split sep s) as [|p ps] eqn:Hs;
        [exfalso; exact (split_nonempty sep s Hs)|].
      split.
      * intros [= <- ->]. destruct (proj1 (IH p) eq_refl) as [-> Hno].
        split; [reflexivity|]. cbn. rewrite Hc. exact Hno.
      * intros [<- Hno]. cbn in Hno. rewrite Hc in Hno. cbn in Hno.
        pose proof (proj2 (IH s) (conj eq_refl Hno)) as [= -> ->]. reflexivity.
Qed.

Lemma split_two (sep : ascii) (s a b : string) :
  split sep s = [a; b]
  <-> s = a +:+ String sep b /\ has_char sep a = false /\ has_char sep b = false.
Proof.
  revert a. induction s as [|c s IH]; intros a; cbn [split].
  - split; [discriminate|]. intros [H _]. destruct a; discriminate H.
  - destruct (Ascii.eqb_spec c sep) as [->|Hc].
    + split.
      * intros [= <- Hb]. apply split_one in Hb as [-> Hno]. repeat split. exact Hno.
      * intros (Hs & Ha & Hb). destruct a as [|c' a].
        -- cbn in Hs. injection Hs as ->. f_equal. apply split_one. auto.
        -- cbn in Hs, Ha. injection Hs as <- _. rewrite Ascii.eqb_refl in Ha.
           discriminate.
    + destruct (split sep s) as [|p ps] eqn:Hs;
        [exfalso; exact (split_nonempty sep s Hs)|].
      split.
      * intros [= <- ->]. destruct (proj1 (IH p) eq_refl) as (-> & Hp & Hb).
        repeat split; [|exact Hb]. cbn.
        destruct (Ascii.eqb_spec c sep); [contradiction | exact Hp].
      * intros (Heq & Ha & Hb). destruct a as [|c' a].
        -- cbn in Heq. injection Heq as -> _. contradiction.
        -- cbn in Heq, Ha. injection Heq as <- ->.
           destruct (Ascii.eqb_spec c sep); [contradiction|]. cbn in Ha.
           pose proof (proj2 (IH a) (conj eq_refl (conj Ha Hb))) as [= -> ->].
           reflexivity.
Qed.

(** The realm the guard uses: the query's, else the body's, else the
    session's. *)
Definition guard_realm (request : HttpRequest) (s : Session) : JsStr :=
  js_or (js_or (query_realmId request) (body_realmId request)) (realmId s).

Lemma bearer_split (h token : string) :
  split space h = ["Bearer"; token]
  <-> h = "Bearer " +:+ token /\ has_char space token = false.
Proof.
  rewrite split_two. split.
  - intros (-> & _ & Ht). split; [reflexivity | exact Ht].
  - intros (-> & Ht). repeat split. exact Ht.
Qed.

(** X25: the guard lets a request through exactly when its authorization
    header is the word [Bearer], one space, and a non-empty token without
    a space, and a realm is found in the query, the body or the session.
    The session it leaves holds that token and that realm, with the
    refresh token and the expiry it had before. *)
Theorem canActivate_accepts (now : Z) (request : HttpRequest) (s s' : Session) :
  canActivate now request s = Activated s'
  <-> exists token,
        authorization request = JsString ("Bearer " +:+ token)
        /\ token <> EmptyString
        /\ has_char space token = false
        /\ present (guard_realm request s)
        /\ s' = {| accessToken := JsString token;
                   refreshToken := refreshToken s;
                   realmId := guard_realm request s;
                   tokenExpiresAt := tokenExpiresAt s |}.
Proof.
  unfold guard_realm, present. split.
  - unfold canActivate. cbn [getTokenStatus status_realmId].
    destruct (authorization request) as [| |h]; cbn [truthy negb template];
      [discriminate | discriminate |].
    destruct (String.eqb h EmptyString); cbn [negb]; [discriminate|].
    destruct (split space h) as [|p0 [|p1 [|p2 ps]]] eqn:Hsplit;
      cbn [length Nat.eqb negb orb]; [discriminate | discriminate | | discriminate].
    unfold part. cbn [lookup list_lookup is_string truthy].
    destruct (String.eqb_spec p0 "Bearer") as [->|Hb]; cbn [negb]; [|discriminate].
    destruct (String.eqb_spec p1 EmptyString) as [->|Hp1]; cbn [negb]; [discriminate|].
    destruct (truthy (js_or (js_or (query_realmId request) (body_realmId request))
                            (realmId s))) eqn:Hrealm; cbn [negb]; [|discriminate].
    intros [= <-]. apply bearer_split in Hsplit as [-> Hno].
    exists p1. repeat split; assumption.
  - intros (token & Hauth & Hne & Hno & Hrealm & ->).
    unfold canActivate. cbn [getTokenStatus status_realmId].
    rewrite Hauth. cbn [template].
    rewrite (proj2 (bearer_split _ token) (conj eq_refl Hno)).
    unfold part. cbn [lookup list_lookup is_string truthy length Nat.eqb].
    destruct (String.eqb_spec token EmptyString) as [->|_]; [contradiction|].
    cbn [negb orb String.eqb Ascii.eqb Bool.eqb andb].
    rewrite Hrealm. reflexivity.
Qed.

(** X26: the interceptor never touches the refresh token or the expiry,
    whatever the header is; and, when no realm is configured, it agrees
    with the guard: a request the guard lets through leaves the same
    session after the interceptor, and a request the guard rejects leaves
    the interceptor's session unchanged. *)
Theorem intercept_agrees_with_guard (now : Z) (configured : JsStr)
    (request : HttpRequest) (s : Session) :
  refreshToken (intercept now configured request s) = refreshToken s
  /\ tokenExpiresAt (intercept now configured request s) = tokenExpiresAt s
  /\ match canActivate now request s with
     | Activated s' => intercept now JsUndefined request s = s'
     | Unauthorized _ => intercept now JsUndefined request s = s
     end.
Proof.
  split; [|split].
  - unfold intercept. destruct (truthy (authorization request)); [|reflexivity].
    cbv zeta. destruct (_ && _); [|reflexivity].
    destruct (_ && _); reflexivity.
  - unfold intercept. destruct (truthy (authorization request)); [|reflexivity].
    cbv zeta. destruct (_ && _); [|reflexivity].
    destruct (_ && _); reflexivity.
  - unfold canActivate, intercept. cbn [getTokenStatus status_realmId].
    destruct (truthy (authorization request)); cbn [negb]; [|reflexivity].
    cbv zeta.
    destruct (length (split space (template (authorization request))) =? 2)%nat;
      cbn [negb orb andb]; [|reflexivity].
    destruct (is_string (part (split space (template (authorization request))) 0)
                "Bearer"); cbn [negb]; [|reflexivity].
    destruct (truthy (part (split space (template (authorization request))) 1));
      cbn [negb andb]; [|reflexivity].
    assert (Hor : forall x, js_or (js_or x JsUndefined) (realmId s)
                            = js_or x (realmId s)).
    { intros x. unfold js_or. destruct (truthy x) eqn:E; [rewrite E|]; reflexivity. }
    rewrite Hor.
    destruct (truthy (js_or (js_or (query_realmId request) (body_realmId request))
                            (realmId s))); reflexivity.
Qed.

(** ** Request bodies for invoices and customers *)

(** The static formatters of [QuickBooksHelper]; the service's
    [createInvoice] and [formatCustomerRequestBody] build the same bodies.
    Input and output are loosely typed objects in the source, so one
    record serves for both. *)

Record SalesItemLineDetail : Type := mkSalesItemLineDetail {
  sd_ItemRef : option AccountRef;
  sd_Qty : option Z;
  sd_UnitPrice : option Z;
  sd_TaxCodeRef : option AccountRef
}.

Record InvoiceLine : Type := mkInvoiceLine {
  line_Id : JsStr;
  line_LineNum : option Z;
  line_Description : JsStr;
  line_Amount : option Z;
  line_DetailType : JsStr;
  line_SalesItemLineDetail : option SalesItemLineDetail
}.

Record Invoice : Type := mkInvoice {
  inv_CustomerRef : option AccountRef;
  inv_Line : list InvoiceLine;
  inv_TxnDate : JsStr;
  inv_DueDate : JsStr;
  inv_DocNumber : JsStr
}.

(** [...(x && { key: x })] for a number and for a string. *)
Definition spread_number (x : option Z) : option Z :=
  if truthyZ x then x else None.

Definition spread_string (x : JsStr) : JsStr :=
  if truthy x then x else JsUndefined.

(** The callback of [invoiceData.Line.map]. *)
Definition formatInvoiceLine (index : nat) (line : InvoiceLine) : InvoiceLine :=
  {| line_Id := JsUndefined;
     line_Amount := line_Amount line;
     line_DetailType := js_or (line_DetailType line) (JsString "SalesItemLineDetail");
     line_SalesItemLineDetail :=
       if is_string (line_DetailType line) "SalesItemLineDetail" then
         match line_SalesItemLineDetail line with
         | Some d =>
             Some {| sd_ItemRef := sd_ItemRef d;
                     sd_Qty := spread_number (sd_Qty d);
                     sd_UnitPrice := spread_number (sd_UnitPrice d);
                     sd_TaxCodeRef := None |}
         | None => None
         end
       else None;
     line_Description := spread_string (line_Description line);
     line_LineNum := js_orZ (line_LineNum line) (Some (Z.of_nat index + 1)) |}.

(** [formatInvoiceRequestBody(invoiceData)]. *)
Definition formatInvoiceRequestBody (invoiceData : Invoice) : Invoice :=
  {| inv_CustomerRef := inv_CustomerRef invoiceData;
     inv_Line := imap formatInvoiceLine (inv_Line invoiceData);
     inv_TxnDate := spread_string (inv_TxnDate invoiceData);
     inv_DueDate := spread_string (inv_DueDate invoiceData);
     inv_DocNumber := spread_string (inv_DocNumber invoiceData) |}.

(** A contact field of a customer: missing, a plain string, or an object
    with the one key the formatter reads. *)
Inductive Contact : Type :=
| ContactAbsent
| ContactText (text : string)
| ContactObject (field : JsStr).

Definition contact_given (c : Contact) : bool :=
  match c with
  | ContactAbsent => false
  | ContactText text => negb (String.eqb text EmptyString)
  | ContactObject _ => true
  end.

Record Address : Type := mkAddress {
  addr_Id : JsStr;
  addr_Line1 : JsStr;
  addr_Line2 : JsStr;
  addr_City : JsStr;
  addr_Country : JsStr;
  addr_CountrySubDivisionCode : JsStr;
  addr_PostalCode : JsStr
}.

Record Customer : Type := mkCustomer {
  cust_DisplayName : JsStr;
  cust_PrimaryEmailAddr : Contact;
  cust_PrimaryPhone : Contact;
  cust_BillAddr : option Address;
  cust_Notes : JsStr
}.

(** [typeof x === 'string' ? x : x.key], for a contact that is given. *)
Definition contact_value (c : Contact) : JsStr :=
  match c with
  | ContactAbsent => JsUndefined
  | ContactText text => JsString text
  | ContactObject field => field
  end.

Definition formatContact (c : Contact) : Contact :=
  if contact_given c then ContactObject (contact_value c) else ContactAbsent.

(** [formatCustomerRequestBody(customerData)]. *)
Definition formatCustomerRequestBody (customerData : Customer) : Customer :=
  {| cust_DisplayName := cust_DisplayName customerData;
     cust_PrimaryEmailAddr := formatContact (cust_PrimaryEmailAddr customerData);
     cust_PrimaryPhone := formatContact (cust_PrimaryPhone customerData);
     cust_BillAddr := cust_BillAddr customerData;
     cust_Notes := spread_string (cust_Notes customerData) |}.

Lemma spread_number_twice (x : option Z) :
  spread_number (spread_number x) = spread_number x.
Proof. unfold spread_number. destruct (truthyZ x) eqn:E; [rewrite E|]; reflexivity. Qed.

Lemma spread_string_twice (x : JsStr) :
  spread_string (spread_string x) = spread_string x.
Proof. unfold spread_string. destruct (truthy x) eqn:E; [rewrite E|]; reflexivity. Qed.

Lemma formatInvoiceLine_LineNum (index : nat) (line : InvoiceLine) :
  exists n, line_LineNum (formatInvoiceLine index line) = Some n
            /\ n <> 0
            /\ (truthyZ (line_LineNum line) = false -> n = Z.of_nat index + 1)
            /\ (truthyZ (line_LineNum line) = true -> line_LineNum line = Some n).
Proof.
  cbn [formatInvoiceLine line_LineNum]. unfold js_orZ.
  destruct (truthyZ (line_LineNum line)) eqn:E.
  - destruct (line_LineNum line) as [n|]; [|discriminate E]. exists n.
    cbn in E. destruct (Z.eqb_spec n 0); [discriminate E|]. repeat split; auto.
    discriminate.
  - eexists. split; [reflexivity|]. repeat split; [lia | discriminate].
Qed.

(** X27: the invoice body has as many lines as the invoice, in the same
    order and with the same amounts, and every line is sent with a line
    number other than zero: its own when it has one, its position counted
    from one otherwise. *)
Theorem formatInvoiceRequestBody_lines (invoiceData : Invoice) :
  length (inv_Line (formatInvoiceRequestBody invoiceData))
  = length (inv_Line invoiceData)
  /\ forall (i : nat) (line : InvoiceLine),
       inv_Line invoiceData !! i = Some line ->
       exists sent,
         inv_Line (formatInvoiceRequestBody invoiceData) !! i = Some sent
         /\ line_Amount sent = line_Amount line
         /\ exists n,
              line_LineNum sent = Some n /\ n <> 0
              /\ (truthyZ (line_LineNum line) = false -> n = Z.of_nat i + 1)
              /\ (truthyZ (line_LineNum line) = true -> line_LineNum line = Some n).
Proof.
  cbn [formatInvoiceRequestBody inv_Line]. split; [apply length_imap|].
  intros i line Hline. exists (formatInvoiceLine i line).
  split; [rewrite list_lookup_imap, Hline; reflexivity|].
  split; [reflexivity|]. apply formatInvoiceLine_LineNum.
Qed.

(** X28: a line keeps its sales item detail only when its [DetailType] is
    spelled out as [SalesItemLineDetail].  A line that leaves [DetailType]
    out is sent labelled [SalesItemLineDetail] all the same, but without
    the detail it came with.  In a detail that is kept, the item reference
    is passed on, a quantity or price of zero is left out, and the tax code
    reference is never sent. *)
Theorem formatInvoiceLine_detail (index : nat) (line : InvoiceLine) :
  (line_SalesItemLineDetail (formatInvoiceLine index line) <> None
   <-> line_DetailType line = JsString "SalesItemLineDetail"
       /\ line_SalesItemLineDetail line <> None)
  /\ (absent (line_DetailType line) ->
      line_DetailType (formatInvoiceLine index line) = JsString "SalesItemLineDetail"
      /\ line_SalesItemLineDetail (formatInvoiceLine index line) = None)
  /\ (forall kept,
        line_SalesItemLineDetail (formatInvoiceLine index line) = Some kept ->
        exists d,
          line_SalesItemLineDetail line = Some d
          /\ sd_ItemRef kept = sd_ItemRef d
          /\ sd_TaxCodeRef kept = None
          /\ sd_Qty kept <> Some 0 /\ sd_UnitPrice kept <> Some 0).
Proof.
  cbn [formatInvoiceLine line_SalesItemLineDetail line_DetailType].
  assert (Hspread : forall x, spread_number x <> Some 0).
  { intros [z|]; unfold spread_number; cbn; [|discriminate].
    destruct (Z.eqb_spec z 0); cbn; congruence. }
  split; [|split].
  - destruct (line_DetailType line) as [| |t]; cbn [is_string];
      try (split; [congruence | intros [H _]; discriminate H]).
    destruct (String.eqb_spec t "SalesItemLineDetail") as [->|Ht].
    + destruct (line_SalesItemLineDetail line); split; try congruence;
        try (intros [_ H]; congruence); intros _; split; congruence.
    + split; [congruence | intros [[= H] _]; contradiction].
  - unfold absent. intros Habs. unfold js_or. rewrite Habs. split; [reflexivity|].
    destruct (line_DetailType line) as [| |t]; cbn [is_string]; try reflexivity.
    destruct (String.eqb_spec t "SalesItemLineDetail") as [->|_]; [|reflexivity].
    discriminate Habs.
  - intros kept. destruct (is_string _ _); [|discriminate].
    destruct (line_SalesItemLineDetail line) as [d|]; [|discriminate].
    intros [= <-]. exists d. cbn. repeat split; apply Hspread.
Qed.

(** X29: formatting is a normal form.  A customer whose e-mail or phone is
    given as a plain non-empty string is sent exactly like one who gives
    the object form; and formatting an already formatted customer or
    invoice changes nothing. *)
Theorem formatters_normalise (customerData : Customer) (invoiceData : Invoice)
    (email phone : string) :
  formatCustomerRequestBody (formatCustomerRequestBody customerData)
  = formatCustomerRequestBody customerData
  /\ formatInvoiceRequestBody (formatInvoiceRequestBody invoiceData)
     = formatInvoiceRequestBody invoiceData
  /\ (email <> EmptyString -> phone <> EmptyString ->
      formatCustomerRequestBody
        {| cust_DisplayName := cust_DisplayName customerData;
           cust_PrimaryEmailAddr := ContactText email;
           cust_PrimaryPhone := ContactText phone;
           cust_BillAddr := cust_BillAddr customerData;
           cust_Notes := cust_Notes customerData |}
      = formatCustomerRequestBody
          {| cust_DisplayName := cust_DisplayName customerData;
             cust_PrimaryEmailAddr := ContactObject (JsString email);
             cust_PrimaryPhone := ContactObject (JsString phone);
             cust_BillAddr := cust_BillAddr customerData;
             cust_Notes := cust_Notes customerData |}).
Proof.
  assert (Hcontact : forall c, formatContact (formatContact c) = formatContact c).
  { intros c. unfold formatContact. destruct (contact_given c); reflexivity. }
  split; [|split].
  - unfold formatCustomerRequestBody.
    cbn [cust_DisplayName cust_PrimaryEmailAddr cust_PrimaryPhone cust_BillAddr
         cust_Notes].
    rewrite !Hcontact, spread_string_twice. reflexivity.
  - unfold formatInvoiceRequestBody.
    cbn [inv_CustomerRef inv_Line inv_TxnDate inv_DueDate inv_DocNumber].
    rewrite !spread_string_twice. f_equal.
    apply list_eq. intros i. rewrite !list_lookup_imap.
    destruct (inv_Line invoiceData !! i) as [line|]; [|reflexivity].
    cbn [fmap option_fmap option_map]. f_equal.
    unfold formatInvoiceLine.
    cbn [line_Id line_LineNum line_Description line_Amount line_DetailType
         line_SalesItemLineDetail].
    rewrite spread_string_twice. f_equal.
    + unfold js_orZ. destruct (truthyZ (line_LineNum line)) eqn:E; [rewrite E; reflexivity|].
      cbn [truthyZ]. destruct (Z.eqb_spec (Z.of_nat i + 1) 0); [lia | reflexivity].
    + unfold js_or. destruct (truthy (line_DetailType line)) eqn:E;
        [rewrite E|]; reflexivity.
    + destruct (line_DetailType line) as [| |t]; cbn [is_string js_or truthy];
        try reflexivity.
      destruct (String.eqb_spec t "SalesItemLineDetail") as [->|Ht].
      * cbn. destruct (line_SalesItemLineDetail line) as [d|]; [|reflexivity].
        cbn [sd_ItemRef sd_Qty sd_UnitPrice]. rewrite !spread_number_twice.
        reflexivity.
      * destruct (is_string _ _); reflexivity.
  - intros He Hp. unfold formatCustomerRequestBody, formatContact.
    cbn [cust_PrimaryEmailAddr cust_PrimaryPhone contact_given contact_value].
    destruct (String.eqb_spec email EmptyString); [contradiction|].
    destruct (String.eqb_spec phone EmptyString); [contradiction|].
    reflexivity.
Qed.

(** X30: the set-tokens route never resets the recorded expiry.  After it
    stores a non-empty access token, the status shows the expiry that was
    recorded before, and the status route reports the session expired
    exactly when that old expiry is at most five minutes away: tokens set
    by hand over a stale expiry are reported expired at once.  Neither
    route sends anything. *)
Theorem setTokens_keeps_expiry (access_token' realmId' refresh_token' : JsStr)
    (w : World) :
  present access_token' ->
  exists message st w',
    controller_setTokens access_token' realmId' refresh_token' w = Ok (message, st) w'
    /\ status_tokenExpiresAt st = tokenExpiresAt (session w)
    /\ isAuthenticated st = truthy realmId'
    /\ hasRefreshToken st
       = truthy refresh_token' || truthy (refreshToken (session w))
    /\ controller_getTokenStatus w'
       = Ok (st, expiry_passed (clock w) (session w)) w'
    /\ sent w' = sent w.
Proof.
  intros Ha. eexists _, _, _. split; [reflexivity|].
  cbn [session clock sent getTokenStatus status_tokenExpiresAt isAuthenticated
       hasRefreshToken].
  unfold present in Ha.
  split; [reflexivity|]. split; [cbn; rewrite Ha; reflexivity|]. split.
  - cbn. destruct (truthy refresh_token') eqn:E; [rewrite E|]; reflexivity.
  - split; [|reflexivity].
    unfold controller_getTokenStatus, bind, this_session, this_isTokenExpired, ret.
    cbn [session clock].
    rewrite (setAccessToken_keeps_verdict (clock w) access_token' realmId'
               refresh_token' None (session w) Ha eq_refl).
    reflexivity.
Qed.

(** * More runs against concrete vendors *)

Module MoreScenarios.

Definition ok_response (d : ResponseData) : HttpResponse :=
  {| status := 200; data := Some d |}.

(** Every resource call is rejected with 500; the token endpoint grants. *)
Definition always_500 : Upstream :=
  {| tokenEndpoint := fun _ => (100, inr (Some granted));
     api := fun _ => (50, inl (rejected 500 None)) |}.

(** The first resource call is rejected with 401, later ones succeed; the
    token endpoint grants. *)
Definition rejects_once : Upstream :=
  {| tokenEndpoint := fun _ => (100, inr (Some granted));
     api := fun log =>
       if (api_calls log =? 1)%nat
       then (50, inl first_failure)
       else (50, inr (ok_response (rows_data "Item" [widget]))) |}.

(** Resource calls are rejected with 401 and the token endpoint with 500. *)
Definition nothing_works : Upstream :=
  {| tokenEndpoint := fun _ => (100, inl (rejected 500 None));
     api := fun _ => (50, inl first_failure) |}.

(** A token answer that rotates the refresh token and names the realm. *)
Definition rotated : QuickBooksTokenResponse :=
  {| access_token := JsString "at2"; refresh_token := JsString "rt2";
     expires_in := Some 3600; token_type := JsString "bearer";
     tr_realmId := JsString "456" |}.

Definition rotating : Upstream :=
  {| tokenEndpoint := fun _ => (100, inr (Some rotated));
     api := fun _ => (50, inr (ok_response no_data)) |}.

Definition count_row : Row :=
  {| Id := JsUndefined; Name := JsUndefined; Type_ := JsUndefined;
     Count := JsString "5" |}.

(** The item query answers with two rows, the count query with a row whose
    [Count] is 5. *)
Definition with_count : Upstream :=
  {| tokenEndpoint := fun _ => (100, inr (Some granted));
     api := fun log =>
       if (api_calls log =? 1)%nat
       then (50, inr (ok_response (rows_data "Item" [widget; gadget])))
       else (50, inr (ok_response (rows_data "Item" [count_row]))) |}.

Definition w_no_realm : World :=
  {| session := {| accessToken := JsString "at1"; refreshToken := JsNull;
                   realmId := JsNull; tokenExpiresAt := None |};
     clock := 1000; sent := [] |}.

Definition w_retried : World :=
  {| session :=
       {| accessToken := JsString "at2"; refreshToken := JsString "rt";
          realmId := JsString "123"; tokenExpiresAt := Some (ValidDate 3601150) |};
     clock := 1200;
     sent := [a_call "Bearer at1"; TokenRequest "refresh_token" "rt";
              a_call "Bearer at2"] |}.

Definition w_refreshed : World :=
  {| session :=
       {| accessToken := JsString "at2"; refreshToken := JsString "rt";
          realmId := JsString "123"; tokenExpiresAt := Some (ValidDate 3601100) |};
     clock := 1100;
     sent := [TokenRequest "refresh_token" "rt"] |}.

Definition item_without_account : QuickBooksItem :=
  {| item_Name := "Widget"; item_Type := "Service"; item_UnitPrice := Some 10;
     item_Description := JsUndefined; item_Sku := JsUndefined;
     item_IncomeAccountRef := None;
     item_ExpenseAccountRef := None; item_AssetAccountRef := None;
     item_QtyOnHand := None; item_InvStartDate := JsUndefined |}.

Definition widget_lookup : list Event :=
  [ApiRequest get items_url (Some "Bearer at1")
     (Params "query"
        "SELECT * FROM Item WHERE Name = 'Widget' AND Active IN (true, false) MAXRESULTS 1 STARTPOSITION 1")
     NoData;
   ApiRequest get items_url (Some "Bearer at1")
     (Params "query"
        "SELECT COUNT(*) FROM Item WHERE Name = 'Widget' AND Active IN (true, false)")
     NoData].

Definition w_looked_up : World :=
  {| session := session w_fresh; clock := 1100; sent := widget_lookup |}.

End MoreScenarios.

Import MoreScenarios.


Lemma makeRequest_no_retry_on_other_failure_witness :
  makeRequest always_500 get items_url NoData all_items false w_fresh
  = Throw (QuickBooksHelper.handleApiError (rejected 500 None)
             (request_context get items_url))
      (after_exchange w_fresh (a_call "Bearer at1") 50).
Proof.
  refine (makeRequest_no_retry_on_other_failure always_500 get items_url NoData
            all_items false w_fresh w_fresh 50 (rejected 500 None) _ _ _);
    reflexivity.
Defined.

Lemma makeRequest_retry_success_witness :
  makeRequest rejects_once get items_url NoData all_items false w_fresh
  = Ok (ok_response (rows_data "Item" [widget])) w_retried.
Proof.
  refine (makeRequest_retry_success rejects_once get items_url NoData all_items
            w_fresh w_fresh
            (after_exchange w_fresh (a_call "Bearer at1") 50)
            {| session := session w_retried; clock := 1150;
               sent := [a_call "Bearer at1"; TokenRequest "refresh_token" "rt"] |}
            w_retried first_failure
            {| access_token := JsString "at2"; refresh_token := JsString "rt";
               expires_in := Some 3600; token_type := JsString "bearer";
               tr_realmId := JsString "123" |}
            (ok_response (rows_data "Item" [widget])) _ _ _ _ _ _);
    vm_compute; reflexivity.
Defined.

Lemma makeRequest_refresh_failure_witness :
  makeRequest nothing_works get items_url NoData all_items false w_fresh
  = Throw (QuickBooksHelper.handleApiError first_failure after_failed_refresh)
      {| session := session w_fresh; clock := 1150;
         sent := [a_call "Bearer at1"; TokenRequest "refresh_token" "rt"] |}.
Proof.
  refine (makeRequest_refresh_failure nothing_works get items_url NoData all_items
            w_fresh w_fresh (after_exchange w_fresh (a_call "Bearer at1") 50)
            first_failure 100 (inl (rejected 500 None)) _ _ _ _ _ _);
    first [ discriminate | vm_compute; reflexivity ].
Defined.

Lemma makeRequest_at_most_one_retry_witness :
  exists new,
    sent w_retried = (sent w_fresh ++ new)%list
    /\ Forall (only_method get) new
    /\ (api_calls new <= 2)%nat.
Proof.
  refine (makeRequest_at_most_one_retry always_401 get items_url NoData all_items
            false w_fresh w_retried _).
  vm_compute. reflexivity.
Defined.

Lemma refreshAccessToken_rotates_token_witness :
  exists result w',
    refreshAccessToken rotating (JsString "rt") w_fresh = Ok result w'
    /\ refresh_token result = JsString "rt2"
    /\ refreshToken (session w') = JsString "rt2"
    /\ accessToken (session w') = JsString "at2"
    /\ sent w' = [TokenRequest "refresh_token" "rt"].
Proof.
  exact (refreshAccessToken_rotates_token rotating (JsString "rt") w_fresh 100
           rotated eq_refl eq_refl).
Defined.


(** The second store one millisecond after the first moves the expiry by
    one millisecond and nothing else. *)
Example second_store_one_tick_later :
  let s1 := refreshed_session (JsString "rt") granted 1100 (session w_stale) in
  let tr := refreshed_result (JsString "rt") granted s1 in
  tokenExpiresAt s1 = Some (ValidDate 3601100)
  /\ setAccessToken 1101 (access_token tr) (tr_realmId tr) (refresh_token tr)
       (expires_in tr) s1
     = {| accessToken := accessToken s1; refreshToken := refreshToken s1;
          realmId := realmId s1; tokenExpiresAt := Some (ValidDate 3601101) |}.
Proof. split; reflexivity. Qed.

Lemma ensureValidToken_requests_witness :
  (sent w_refreshed = sent w_stale /\ session w_refreshed = session w_stale)
  \/ (present (refreshToken (session w_stale))
      /\ isTokenExpired (clock w_stale) (session w_stale) = true
      /\ sent w_refreshed
         = (sent w_stale ++ [refresh_request (refreshToken (session w_stale))])%list).
Proof.
  refine (ensureValidToken_requests always_401 w_stale w_refreshed _).
  vm_compute. reflexivity.
Defined.

Lemma ensureValidToken_makes_fresh_witness :
  exists w',
    ensureValidToken always_401 w_stale = Ok tt w'
    /\ accessToken (session w') = JsString "at2"
    /\ isTokenExpired (clock w') (session w') = false.
Proof.
  refine (ensureValidToken_makes_fresh always_401 w_stale 100 3600 granted
            eq_refl eq_refl eq_refl eq_refl eq_refl _).
  lia.
Defined.

Lemma makeRequest_refreshes_first_witness :
  exists w',
    makeRequest (answers "Item" [widget]) get items_url NoData all_items false w_stale
    = Ok (ok_response (rows_data "Item" [widget])) w'
    /\ sent w' = [TokenRequest "refresh_token" "rt"; a_call "Bearer at2"]
    /\ accessToken (session w') = JsString "at2".
Proof.
  exact (makeRequest_refreshes_first (answers "Item" [widget]) get items_url NoData
           all_items w_stale 100 50 granted
           (ok_response (rows_data "Item" [widget]))
           eq_refl eq_refl eq_refl eq_refl eq_refl).
Defined.

Lemma findOrCreateAccount_failures_witness :
  account_failure "Sales" = realm_not_set
  \/ account_failure "Sales" = reauthentication_required
  \/ account_failure "Sales" = account_failure "Sales".
Proof.
  eapply (findOrCreateAccount_failures always_500 "Sales" "Income" JsUndefined
            w_fresh).
  vm_compute. reflexivity.
Defined.

Lemma createItem_service_by_id_witness :
  createItem (answers "Item" []) an_item w_fresh
  = bind (makeRequest (answers "Item" []) post "/v3/company/123/item"
            (ItemData (service_body an_item
                         {| ref_value := JsString "79"; ref_name := JsUndefined |}))
            NoConfig false)
         created_of w_looked_up.
Proof.
  refine (createItem_service_by_id (answers "Item" []) an_item
            {| ref_value := JsString "79"; ref_name := JsUndefined |}
            w_fresh w_looked_up _ _ _ _);
    first [ reflexivity | vm_compute; reflexivity ].
Defined.

Lemma createItem_rejects_missing_accounts_witness :
  createItem (answers "Item" []) item_without_account w_fresh
  = Throw income_required w_looked_up.
Proof.
  refine (proj1 (createItem_rejects_missing_accounts (answers "Item" [])
                   item_without_account w_fresh w_looked_up _) eq_refl I).
  vm_compute. reflexivity.
Defined.

Lemma executeQuery_failures_witness :
  let e := QuickBooksHelper.handleApiError (rejected 500 None)
             (request_context get items_url) in
  let w' := after_exchange w_fresh
              (ApiRequest get items_url (Some "Bearer at1")
                 (Params "query" "SELECT * FROM Item MAXRESULTS 20 STARTPOSITION 1")
                 NoData) 50 in
  item_query always_500 "Item" 20 1 JsUndefined w_fresh = Throw e w'
  \/ exists response,
       item_query always_500 "Item" 20 1 JsUndefined w_fresh = Ok response w'
       /\ data response ≫= data_QueryResponse = None
       /\ e = ExTypeError.
Proof.
  cbv zeta.
  refine (executeQuery_failures always_500 "Item" 20 1 JsUndefined w_fresh _ _ _).
  vm_compute. reflexivity.
Defined.

Definition w_counted : World :=
  {| session := session w_fresh; clock := 1100;
     sent := [ApiRequest get items_url (Some "Bearer at1")
                (Params "query" "SELECT * FROM Item MAXRESULTS 20 STARTPOSITION 1")
                NoData;
              ApiRequest get items_url (Some "Bearer at1")
                (Params "query" "SELECT COUNT(*) FROM Item") NoData] |}.

Lemma executeQuery_totalCount_witness :
  exists result,
    executeQuery with_count "Item" 20 1 JsUndefined w_fresh = Ok result w_counted
    /\ items result = [widget; gadget]
    /\ totalCount result = 5.
Proof.
  destruct (executeQuery_totalCount with_count "Item" 20 1 JsUndefined w_fresh
              (after_exchange w_fresh
                 (ApiRequest get items_url (Some "Bearer at1")
                    (Params "query" "SELECT * FROM Item MAXRESULTS 20 STARTPOSITION 1")
                    NoData) 50)
              w_counted
              (ok_response (rows_data "Item" [widget; gadget]))
              (ok_response (rows_data "Item" [count_row]))
              {| qr_entities := {[ "Item" := [widget; gadget] ]};
                 qr_totalCount := None |}
              ltac:(vm_compute; reflexivity) eq_refl ltac:(vm_compute; reflexivity))
    as (result & Hrun & Hitems & Htotal).
  exists result. split; [exact Hrun|]. split; [exact Hitems|].
  refine (Htotal eq_refl _). unfold exact_integer. vm_compute. discriminate.
Defined.

Example executeQuery_parsed_count :
  exists result,
    executeQuery with_count "Item" 20 1 JsUndefined w_fresh = Ok result w_counted
    /\ totalCount result = 5.
Proof. eexists. split; [vm_compute; reflexivity | reflexivity]. Qed.

Definition null_realm_query : Event :=
  ApiRequest get "/v3/company/null/query" (Some "Bearer at1")
    (Params "query" "SELECT * FROM Customer MAXRESULTS 20 STARTPOSITION 1") NoData.

Definition w_null_realm_queried : World :=
  {| session := session w_no_realm; clock := 1100;
     sent := [null_realm_query;
              ApiRequest get "/v3/company/null/query" (Some "Bearer at1")
                (Params "query" "SELECT COUNT(*) FROM Customer") NoData] |}.

Lemma executeQuery_sends_without_realm_witness :
  first_sent w_no_realm w_null_realm_queried null_realm_query.
Proof.
  refine (proj1 (executeQuery_sends_without_realm (answers "Customer" [])
                   "Customer" 20 1 JsUndefined w_no_realm w_null_realm_queried
                   eq_refl _)).
  vm_compute. reflexivity.
Defined.

Lemma exchangeCode_then_status_witness :
  exists result message w',
    controller_exchangeCode always_401 "code-1" (JsString "999") w_no_realm
    = Ok (result, message) w'
    /\ tr_realmId result = JsString "999"
    /\ status_realmId (getTokenStatus (session w')) = JsString "999"
    /\ isAuthenticated (getTokenStatus (session w')) = true
    /\ hasRefreshToken (getTokenStatus (session w')) = false
    /\ sent w' = [TokenRequest "authorization_code" "code-1"].
Proof.
  exact (exchangeCode_then_status always_401 "code-1" (JsString "999") w_no_realm
           100 granted eq_refl).
Defined.

Lemma exchangeCode_failure_witness :
  exchangeCodeForToken token_endpoint_down "code-1" w_fresh
  = Throw exchange_failed
      {| session := session w_fresh; clock := 1100;
         sent := [TokenRequest "authorization_code" "code-1"] |}.
Proof.
  refine (proj1 (exchangeCode_failure token_endpoint_down "code-1" JsUndefined
                   w_fresh 100 (inl (rejected 500 None)) eq_refl _)).
  discriminate.
Defined.

Lemma setTokens_keeps_expiry_witness :
  exists message st w',
    controller_setTokens (JsString "new") (JsString "123") (JsString "rt2") w_stale
    = Ok (message, st) w'
    /\ status_tokenExpiresAt st = Some (ValidDate 0)
    /\ isAuthenticated st = true
    /\ hasRefreshToken st = true
    /\ controller_getTokenStatus w' = Ok (st, true) w'
    /\ sent w' = [].
Proof.
  exact (setTokens_keeps_expiry (JsString "new") (JsString "123") (JsString "rt2")
           w_stale eq_refl).
Defined.

Definition bearer_request : HttpRequest :=
  {| authorization := JsString "Bearer abc"; query_realmId := JsUndefined;
     body_realmId := JsString "456" |}.

Lemma canActivate_accepts_witness :
  canActivate 0 bearer_request (session w_fresh)
  = Activated {| accessToken := JsString "abc"; refreshToken := JsString "rt";
                 realmId := JsString "456"; tokenExpiresAt := None |}.
Proof.
  apply (proj2 (canActivate_accepts 0 bearer_request (session w_fresh) _)).
  exists "abc". repeat split. discriminate.
Defined.

(** Headers the guard turns away. *)
Example canActivate_rejects :
  canActivate 0 (mkHttpRequest (JsString "Bearer  abc") JsUndefined JsUndefined)
    (session w_fresh)
  = Unauthorized "Invalid authorization header format. Use: Bearer <token>"
  /\ canActivate 0 (mkHttpRequest (JsString "Bearer ") JsUndefined JsUndefined)
       (session w_fresh)
     = Unauthorized "Access token is missing"
  /\ canActivate 0 (mkHttpRequest (JsString "bearer abc") JsUndefined JsUndefined)
       (session w_fresh)
     = Unauthorized "Invalid authorization header format. Use: Bearer <token>"
  /\ canActivate 0 (mkHttpRequest JsUndefined JsUndefined JsUndefined)
       (session w_fresh)
     = Unauthorized "Authorization header is missing".
Proof. repeat split. Qed.
